(** * SecureOps frontend: trusted-request layer and upload workflow

    A shallow embedding of the client-side session and job-tracking code:

    - [Api]    : the axios instance of [api.js] (token holder, request and
                 response interceptors, the [SafetyAPI] wrapper);
    - [Auth]   : [AuthProvider] of [context/AuthContext.jsx]
                 ([initAuth], [login], [signup], [logout]);
    - [Upload] : the [Upload] component ([validateFiles],
                 [handleFileSelect], the polling [useEffect]).

    Asynchronous functions are written in a small free monad [prog] whose
    operations are the effects the source performs (reads and writes of the
    module variable [_accessToken], a network round trip, console output,
    React state setters, [clearInterval]).  [run] executes one asynchronous
    function to completion; [resume] executes it up to its next network
    round trip, which is where a JavaScript task is suspended, so that
    several requests can be interleaved by a schedule. *)

From stdpp Require Import base strings list gmap.
From Stdlib Require Import ZArith String Ascii DecimalString Lia.

Local Open Scope string_scope.

(** ** Unicode case conversion *)

(** [String.prototype.toUpperCase] converts the code points of the string
    by the Unicode default case conversion: the simple mappings of
    [UnicodeData.txt] and the unconditional full mappings of
    [SpecialCasing.txt] (Unicode 14).  Strings are held as their UTF-8
    bytes. *)
Module Unicode.

Local Open Scope Z_scope.

(** Simple mappings, [(first, last, stride, offset)]: every [stride]-th
    code point from [first] to [last] maps to itself plus [offset]. *)
Definition simple : list (Z * Z * Z * Z) :=
  [
   (97, 122, 1, (-32)); (181, 181, 1, 743); (224, 246, 1, (-32));
   (248, 254, 1, (-32)); (255, 255, 1, 121); (257, 303, 2, (-1));
   (305, 305, 1, (-232)); (307, 311, 2, (-1)); (314, 328, 2, (-1));
   (331, 375, 2, (-1)); (378, 382, 2, (-1)); (383, 383, 1, (-300));
   (384, 384, 1, 195); (387, 389, 2, (-1)); (392, 392, 1, (-1));
   (396, 396, 1, (-1)); (402, 402, 1, (-1)); (405, 405, 1, 97);
   (409, 409, 1, (-1)); (410, 410, 1, 163); (414, 414, 1, 130);
   (417, 421, 2, (-1)); (424, 424, 1, (-1)); (429, 429, 1, (-1));
   (432, 432, 1, (-1)); (436, 438, 2, (-1)); (441, 441, 1, (-1));
   (445, 445, 1, (-1)); (447, 447, 1, 56); (453, 453, 1, (-1));
   (454, 454, 1, (-2)); (456, 456, 1, (-1)); (457, 457, 1, (-2));
   (459, 459, 1, (-1)); (460, 460, 1, (-2)); (462, 476, 2, (-1));
   (477, 477, 1, (-79)); (479, 495, 2, (-1)); (498, 498, 1, (-1));
   (499, 499, 1, (-2)); (501, 501, 1, (-1)); (505, 543, 2, (-1));
   (547, 563, 2, (-1)); (572, 572, 1, (-1)); (575, 576, 1, 10815);
   (578, 578, 1, (-1)); (583, 591, 2, (-1)); (592, 592, 1, 10783);
   (593, 593, 1, 10780); (594, 594, 1, 10782); (595, 595, 1, (-210));
   (596, 596, 1, (-206)); (598, 599, 1, (-205)); (601, 601, 1, (-202));
   (603, 603, 1, (-203)); (604, 604, 1, 42319); (608, 608, 1, (-205));
   (609, 609, 1, 42315); (611, 611, 1, (-207)); (613, 613, 1, 42280);
   (614, 614, 1, 42308); (616, 616, 1, (-209)); (617, 617, 1, (-211));
   (618, 618, 1, 42308); (619, 619, 1, 10743); (620, 620, 1, 42305);
   (623, 623, 1, (-211)); (625, 625, 1, 10749); (626, 626, 1, (-213));
   (629, 629, 1, (-214)); (637, 637, 1, 10727); (640, 640, 1, (-218));
   (642, 642, 1, 42307); (643, 643, 1, (-218)); (647, 647, 1, 42282);
   (648, 648, 1, (-218)); (649, 649, 1, (-69)); (650, 651, 1, (-217));
   (652, 652, 1, (-71)); (658, 658, 1, (-219)); (669, 669, 1, 42261);
   (670, 670, 1, 42258); (837, 837, 1, 84); (881, 883, 2, (-1));
   (887, 887, 1, (-1)); (891, 893, 1, 130); (940, 940, 1, (-38));
   (941, 943, 1, (-37)); (945, 961, 1, (-32)); (962, 962, 1, (-31));
   (963, 971, 1, (-32)); (972, 972, 1, (-64)); (973, 974, 1, (-63));
   (976, 976, 1, (-62)); (977, 977, 1, (-57)); (981, 981, 1, (-47));
   (982, 982, 1, (-54)); (983, 983, 1, (-8)); (985, 1007, 2, (-1));
   (1008, 1008, 1, (-86)); (1009, 1009, 1, (-80)); (1010, 1010, 1, 7);
   (1011, 1011, 1, (-116)); (1013, 1013, 1, (-96)); (1016, 1016, 1, (-1));
   (1019, 1019, 1, (-1)); (1072, 1103, 1, (-32)); (1104, 1119, 1, (-80));
   (1121, 1153, 2, (-1)); (1163, 1215, 2, (-1)); (1218, 1230, 2, (-1));
   (1231, 1231, 1, (-15)); (1233, 1327, 2, (-1)); (1377, 1414, 1, (-48));
   (4304, 4346, 1, 3008); (4349, 4351, 1, 3008); (5112, 5117, 1, (-8));
   (7296, 7296, 1, (-6254)); (7297, 7297, 1, (-6253));
   (7298, 7298, 1, (-6244)); (7299, 7300, 1, (-6242));
   (7301, 7301, 1, (-6243)); (7302, 7302, 1, (-6236));
   (7303, 7303, 1, (-6181)); (7304, 7304, 1, 35266);
   (7545, 7545, 1, 35332); (7549, 7549, 1, 3814); (7566, 7566, 1, 35384);
   (7681, 7829, 2, (-1)); (7835, 7835, 1, (-59)); (7841, 7935, 2, (-1));
   (7936, 7943, 1, 8); (7952, 7957, 1, 8); (7968, 7975, 1, 8);
   (7984, 7991, 1, 8); (8000, 8005, 1, 8); (8017, 8023, 2, 8);
   (8032, 8039, 1, 8); (8048, 8049, 1, 74); (8050, 8053, 1, 86);
   (8054, 8055, 1, 100); (8056, 8057, 1, 128); (8058, 8059, 1, 112);
   (8060, 8061, 1, 126); (8112, 8113, 1, 8); (8126, 8126, 1, (-7205));
   (8144, 8145, 1, 8); (8160, 8161, 1, 8); (8165, 8165, 1, 7);
   (8526, 8526, 1, (-28)); (8560, 8575, 1, (-16)); (8580, 8580, 1, (-1));
   (9424, 9449, 1, (-26)); (11312, 11359, 1, (-48));
   (11361, 11361, 1, (-1)); (11365, 11365, 1, (-10795));
   (11366, 11366, 1, (-10792)); (11368, 11372, 2, (-1));
   (11379, 11379, 1, (-1)); (11382, 11382, 1, (-1));
   (11393, 11491, 2, (-1)); (11500, 11502, 2, (-1));
   (11507, 11507, 1, (-1)); (11520, 11557, 1, (-7264));
   (11559, 11559, 1, (-7264)); (11565, 11565, 1, (-7264));
   (42561, 42605, 2, (-1)); (42625, 42651, 2, (-1));
   (42787, 42799, 2, (-1)); (42803, 42863, 2, (-1));
   (42874, 42876, 2, (-1)); (42879, 42887, 2, (-1));
   (42892, 42892, 1, (-1)); (42897, 42899, 2, (-1)); (42900, 42900, 1, 48);
   (42903, 42921, 2, (-1)); (42933, 42947, 2, (-1));
   (42952, 42954, 2, (-1)); (42961, 42961, 1, (-1));
   (42967, 42969, 2, (-1)); (42998, 42998, 1, (-1));
   (43859, 43859, 1, (-928)); (43888, 43967, 1, (-38864));
   (65345, 65370, 1, (-32)); (66600, 66639, 1, (-40));
   (66776, 66811, 1, (-40)); (66967, 67003, 2, (-39));
   (66968, 66977, 1, (-39)); (66980, 66993, 1, (-39));
   (66996, 67001, 1, (-39)); (67004, 67004, 1, (-39));
   (68800, 68850, 1, (-64)); (71872, 71903, 1, (-32));
   (93792, 93823, 1, (-32)); (125218, 125251, 1, (-34))
  ].

(** Code points whose uppercase form is a sequence of code points. *)
Definition special : list (Z * list Z) :=
  [
   (223, [83; 83]); (329, [700; 78]); (496, [74; 780]);
   (912, [921; 776; 769]); (944, [933; 776; 769]); (1415, [1333; 1362]);
   (7830, [72; 817]); (7831, [84; 776]); (7832, [87; 778]);
   (7833, [89; 778]); (7834, [65; 702]); (8016, [933; 787]);
   (8018, [933; 787; 768]); (8020, [933; 787; 769]);
   (8022, [933; 787; 834]); (8064, [7944; 921]); (8065, [7945; 921]);
   (8066, [7946; 921]); (8067, [7947; 921]); (8068, [7948; 921]);
   (8069, [7949; 921]); (8070, [7950; 921]); (8071, [7951; 921]);
   (8072, [7944; 921]); (8073, [7945; 921]); (8074, [7946; 921]);
   (8075, [7947; 921]); (8076, [7948; 921]); (8077, [7949; 921]);
   (8078, [7950; 921]); (8079, [7951; 921]); (8080, [7976; 921]);
   (8081, [7977; 921]); (8082, [7978; 921]); (8083, [7979; 921]);
   (8084, [7980; 921]); (8085, [7981; 921]); (8086, [7982; 921]);
   (8087, [7983; 921]); (8088, [7976; 921]); (8089, [7977; 921]);
   (8090, [7978; 921]); (8091, [7979; 921]); (8092, [7980; 921]);
   (8093, [7981; 921]); (8094, [7982; 921]); (8095, [7983; 921]);
   (8096, [8040; 921]); (8097, [8041; 921]); (8098, [8042; 921]);
   (8099, [8043; 921]); (8100, [8044; 921]); (8101, [8045; 921]);
   (8102, [8046; 921]); (8103, [8047; 921]); (8104, [8040; 921]);
   (8105, [8041; 921]); (8106, [8042; 921]); (8107, [8043; 921]);
   (8108, [8044; 921]); (8109, [8045; 921]); (8110, [8046; 921]);
   (8111, [8047; 921]); (8114, [8122; 921]); (8115, [913; 921]);
   (8116, [902; 921]); (8118, [913; 834]); (8119, [913; 834; 921]);
   (8124, [913; 921]); (8130, [8138; 921]); (8131, [919; 921]);
   (8132, [905; 921]); (8134, [919; 834]); (8135, [919; 834; 921]);
   (8140, [919; 921]); (8146, [921; 776; 768]); (8147, [921; 776; 769]);
   (8150, [921; 834]); (8151, [921; 776; 834]); (8162, [933; 776; 768]);
   (8163, [933; 776; 769]); (8164, [929; 787]); (8166, [933; 834]);
   (8167, [933; 776; 834]); (8178, [8186; 921]); (8179, [937; 921]);
   (8180, [911; 921]); (8182, [937; 834]); (8183, [937; 834; 921]);
   (8188, [937; 921]); (64256, [70; 70]); (64257, [70; 73]);
   (64258, [70; 76]); (64259, [70; 70; 73]); (64260, [70; 70; 76]);
   (64261, [83; 84]); (64262, [83; 84]); (64275, [1348; 1350]);
   (64276, [1348; 1333]); (64277, [1348; 1339]); (64278, [1358; 1350]);
   (64279, [1348; 1341])
  ].

Definition in_range (cp : Z) (r : Z * Z * Z * Z) : bool :=
  let '(first, last, stride, _) := r in
  (first <=? cp) && (cp <=? last) && ((cp - first) mod stride =? 0).

(** The uppercase form of one code point. *)
Definition toUppercase (cp : Z) : list Z :=
  match List.find (fun e => fst e =? cp) special with
  | Some e => snd e
  | None =>
      match List.find (in_range cp) simple with
      | Some r => [cp + snd r]
      | None => [cp]
      end
  end.

Definition byte (c : ascii) : Z := Z.of_N (N_of_ascii c).

Definition char (b : Z) : ascii := ascii_of_N (Z.to_N b).

(** The code points of a UTF-8 string; [pending] is the code point under
    construction and [need] the number of continuation bytes it still
    lacks. *)
Fixpoint decode (pending : Z) (need : nat) (s : string) : list Z :=
  match s with
  | EmptyString => []
  | String c rest =>
      let b := byte c in
      match need with
      | S n =>
          let cp := pending * 64 + Z.land b 63 in
          match n with
          | O => cp :: decode 0 O rest
          | S _ => decode cp n rest
          end
      | O =>
          if b <? 128 then b :: decode 0 O rest
          else if b <? 224 then decode (Z.land b 31) 1 rest
          else if b <? 240 then decode (Z.land b 15) 2 rest
          else decode (Z.land b 7) 3 rest
      end
  end.

(** The UTF-8 bytes of one code point. *)
Definition encode (cp : Z) : string :=
  if cp <? 128 then String (char cp) EmptyString
  else if cp <? 2048 then
    String (char (192 + cp / 64)) (String (char (128 + cp mod 64)) EmptyString)
  else if cp <? 65536 then
    String (char (224 + cp / 4096))
      (String (char (128 + (cp / 64) mod 64))
         (String (char (128 + cp mod 64)) EmptyString))
  else
    String (char (240 + cp / 262144))
      (String (char (128 + (cp / 4096) mod 64))
         (String (char (128 + (cp / 64) mod 64))
            (String (char (128 + cp mod 64)) EmptyString))).

End Unicode.

(** ** JavaScript values and string primitives *)

Module JS.

(** The values that flow through the modelled code: tokens, job
    identifiers and status fields are strings, [null] or [undefined]. *)
Inductive value : Type :=
| undefined
| null
| str (s : string).

(** [===] on these values is structural equality. *)
#[global] Instance value_eq_dec : EqDecision value.
Proof. solve_decision. Defined.

(** [if (v)]: the empty string, [null] and [undefined] are falsy. *)
Definition truthy (v : value) : bool :=
  match v with
  | str s => negb (s =? "")
  | _ => false
  end.

(** Template-literal interpolation [`${v}`]. *)
Definition template (v : value) : string :=
  match v with
  | undefined => "undefined"
  | null => "null"
  | str s => s
  end.

(** [s.startsWith(p)] *)
Definition startsWith (s p : string) : bool := String.prefix p s.

(** [s.includes(sub)] *)
Fixpoint includes (s sub : string) : bool :=
  String.prefix sub s ||
  match s with
  | EmptyString => false
  | String _ rest => includes rest sub
  end.

(** [s.toUpperCase()]: every code point of [s] replaced by its
    uppercase form. *)
Definition toUpperCase (s : string) : string :=
  List.fold_right String.append EmptyString
    (List.map Unicode.encode
       (List.flat_map Unicode.toUppercase (Unicode.decode 0 0 s))).

(** A JSON object, read by field; a missing field reads [undefined]. *)
Definition field (o : gmap string value) (k : string) : value :=
  default undefined (o !! k).

End JS.

Abbreviation json := (gmap string JS.value).

(** ** Requests, responses and thrown values *)

Record request : Type := Request {
  method : string;
  url : string;
  body : json;
  Authorization : option string;   (* config.headers.Authorization *)
  _retry : bool                    (* originalRequest._retry *)
}.

Module Http.
Record response : Type := Response {
  status : Z;
  data : json
}.
End Http.

(** What the transport yields for one round trip. *)
Inductive netresult : Type :=
| Reply (status : Z) (data : json)
| NetworkError.

(** Values thrown by the modelled code.  [RecursionLimit] is not a
    JavaScript value: it marks the exhaustion of the unfolding bound of
    [Api.api_], which [Api.api] never reaches (see [api_fuel]). *)
Inductive exn : Type :=
| AxiosError (config : request) (resp : option Http.response)
| TypeError (msg : string)
| RecursionLimit.

Definition set_Authorization (h : string) (c : request) : request :=
  {| method := method c; url := url c; body := body c;
     Authorization := Some h; _retry := _retry c |}.

Definition set_retry (b : bool) (c : request) : request :=
  {| method := method c; url := url c; body := body c;
     Authorization := Authorization c; _retry := b |}.

(** ** File handles of the upload form *)

Module File.
Record t : Type := make {
  name : string;
  size : Z;      (* bytes *)
  type : string  (* the declared MIME type *)
}.
End File.

(** ** Effects and asynchronous programs *)

Inductive effect : Type -> Type :=
| ReadAccessToken : effect JS.value
| WriteAccessToken (v : JS.value) : effect unit
| Transport (config : request) : effect netresult
| Console (level msg : string) : effect unit
| SetUser (u : option json) : effect unit
| SetIsAuthenticated (b : option bool) : effect unit
| SetLoading (b : bool) : effect unit
| SetFiles (l : list File.t) : effect unit
| SetStatus (s : string) : effect unit
| SetError (e : option string) : effect unit
| ClearInterval (id : nat) : effect unit
| OnUploadComplete (id : JS.value) : effect unit.

Inductive prog (A : Type) : Type :=
| Return (a : A)
| Throw (e : exn)
| Do {X : Type} (op : effect X) (k : X -> prog A).

Arguments Return {A} a.
Arguments Throw {A} e.
Arguments Do {A X} op k.

Fixpoint bind {A B : Type} (m : prog A) (f : A -> prog B) : prog B :=
  match m with
  | Return a => f a
  | Throw e => Throw e
  | Do op k => Do op (fun x => bind (k x) f)
  end.

#[global] Instance prog_ret : MRet prog := fun A a => Return a.
#[global] Instance prog_bind : MBind prog := fun A B f m => bind m f.

Definition perform {X : Type} (op : effect X) : prog X := Do op Return.

(** [try { body } catch (e) { handler e }] *)
Fixpoint try_catch {A : Type} (body : prog A) (handler : exn -> prog A) : prog A :=
  match body with
  | Return a => Return a
  | Throw e => handler e
  | Do op k => Do op (fun x => try_catch (k x) handler)
  end.

(** [try { body } finally { final }] *)
Fixpoint try_finally {A : Type} (body : prog A) (final : prog unit) : prog A :=
  match body with
  | Return a => _ ← final; Return a
  | Throw e => _ ← final; Throw e
  | Do op k => Do op (fun x => try_finally (k x) final)
  end.

Notation "m ;; k" := (mbind (fun _ => k) m)
  (at level 100, k at level 200, right associativity).

(** ** The mutable state of the page *)

(** React state of [AuthProvider]; [isAuthenticated = None] is the
    initial [null] ("checking"). *)
Record AuthState : Type := mkAuth {
  user : option json;
  isAuthenticated : option bool;
  loading : bool
}.

(** React state of the [Upload] component. *)
Record UploadState : Type := mkUpload {
  selectedType : JS.value;
  files : list File.t;
  status : string;
  uploadId : JS.value;
  error : option string
}.

(** Everything the modelled code reads or writes: the module variable of
    [api.js], the two components' state, and the environment (network
    log, console, interval timers, calls of the [onUploadComplete] prop).
    [wire] and [console] list the newest entry first; [timers] maps the
    identifier of every active interval to its period in milliseconds;
    [poller] is the interval held by the cleanup closure of the mounted
    polling effect, if that run of the effect created one;
    [onUploadComplete] is the prop of [Upload] ([None] when it is not
    passed, otherwise the identity of the function passed). *)
Record world : Type := mkWorld {
  _accessToken : JS.value;
  wire : list (request * netresult);
  console : list (string * string);
  auth : AuthState;
  upload : UploadState;
  timers : gmap nat Z;
  next_timer : nat;
  poller : option nat;
  onUploadComplete : option nat;
  completions : list JS.value
}.

Definition with_token (v : JS.value) (w : world) : world :=
  mkWorld v (wire w) (console w) (auth w)
          (upload w) (timers w) (next_timer w)
          (poller w) (onUploadComplete w) (completions w).

Definition with_wire (l : list (request * netresult)) (w : world) : world :=
  mkWorld (_accessToken w) l (console w) (auth w)
          (upload w) (timers w) (next_timer w)
          (poller w) (onUploadComplete w) (completions w).

Definition with_console (l : list (string * string)) (w : world) : world :=
  mkWorld (_accessToken w) (wire w) l (auth w)
          (upload w) (timers w) (next_timer w)
          (poller w) (onUploadComplete w) (completions w).

Definition with_auth (a : AuthState) (w : world) : world :=
  mkWorld (_accessToken w) (wire w) (console w) a
          (upload w) (timers w) (next_timer w)
          (poller w) (onUploadComplete w) (completions w).

Definition with_upload (u : UploadState) (w : world) : world :=
  mkWorld (_accessToken w) (wire w) (console w) (auth w)
          u (timers w) (next_timer w)
          (poller w) (onUploadComplete w) (completions w).

Definition with_timers (t : gmap nat Z) (w : world) : world :=
  mkWorld (_accessToken w) (wire w) (console w) (auth w)
          (upload w) t (next_timer w)
          (poller w) (onUploadComplete w) (completions w).

Definition with_next_timer (n : nat) (w : world) : world :=
  mkWorld (_accessToken w) (wire w) (console w) (auth w)
          (upload w) (timers w) n
          (poller w) (onUploadComplete w) (completions w).

Definition with_poller (h : option nat) (w : world) : world :=
  mkWorld (_accessToken w) (wire w) (console w) (auth w)
          (upload w) (timers w) (next_timer w)
          h (onUploadComplete w) (completions w).

Definition with_completions (l : list JS.value) (w : world) : world :=
  mkWorld (_accessToken w) (wire w) (console w) (auth w)
          (upload w) (timers w) (next_timer w)
          (poller w) (onUploadComplete w) l.

Definition with_user (u : option json) (a : AuthState) : AuthState :=
  mkAuth u (isAuthenticated a) (loading a).

Definition with_isAuthenticated (b : option bool) (a : AuthState) : AuthState :=
  mkAuth (user a) b (loading a).

Definition with_loading (b : bool) (a : AuthState) : AuthState :=
  mkAuth (user a) (isAuthenticated a) b.

Definition with_files (l : list File.t) (u : UploadState) : UploadState :=
  mkUpload (selectedType u) l (status u) (uploadId u) (error u).

Definition with_status (s : string) (u : UploadState) : UploadState :=
  mkUpload (selectedType u) (files u) s (uploadId u) (error u).

Definition with_error (e : option string) (u : UploadState) : UploadState :=
  mkUpload (selectedType u) (files u) (status u) (uploadId u) e.

(** ** [api.js]: the axios instance and the [SafetyAPI] wrapper *)

Module Api.

Definition setAccessToken (token : JS.value) : prog unit :=
  perform (WriteAccessToken token).

Definition getAccessToken : prog JS.value := perform ReadAccessToken.

(** Request interceptor: attach the bearer header when a token is held. *)
Definition request_interceptor (_accessToken : JS.value) (config : request)
  : request :=
  if JS.truthy _accessToken
  then set_Authorization ("Bearer " ++ JS.template _accessToken) config
  else config.

(** axios' default [validateStatus]: 2xx fulfils, anything else rejects
    with an error carrying the response; no reply at all (timeout,
    connection failure) rejects with an error without [response]. *)
Definition settle (config : request) (res : netresult)
  : Http.response + exn :=
  match res with
  | Reply st d =>
      if (200 <=? st)%Z && (st <? 300)%Z
      then inl (Http.Response st d)
      else inr (AxiosError config (Some (Http.Response st d)))
  | NetworkError => inr (AxiosError config None)
  end.

(** [error.response?.status === 401] *)
Definition is_401 (resp : option Http.response) : bool :=
  match resp with
  | Some r => (Http.status r =? 401)%Z
  | None => false
  end.

Definition is_auth_url (u : string) : bool :=
  JS.includes u "/auth/refresh" || JS.includes u "/auth/login".

Definition post_config (u : string) (payload : json) : request :=
  Request "post" u payload None false.

Definition get_config (u : string) : request :=
  Request "get" u ∅ None false.

(** Response interceptor, rejection branch.  [api] is the instance
    itself, called for the refresh ([api.post]) and for the resend
    ([api(originalRequest)]).  The resend is [return]ed without [await]
    from inside the [try], so its own rejection does not pass through
    the [catch]: only the refresh and the two assignments are guarded. *)
Definition onRejected (api : request -> prog Http.response) (error : exn)
  : prog Http.response :=
  match error with
  | AxiosError originalRequest resp =>
      if is_401 resp && negb (_retry originalRequest) then
        if is_auth_url (url originalRequest) then Throw error
        else
          let originalRequest := set_retry true originalRequest in
          originalRequest ←
            try_catch
              (r ← api (post_config "/auth/refresh" ∅);
               let access_token := JS.field (Http.data r) "access_token" in
               setAccessToken access_token;;
               Return (set_Authorization
                         ("Bearer " ++ JS.template access_token)
                         originalRequest))
              (fun refreshError =>
                 perform (WriteAccessToken JS.null);;
                 Throw refreshError);
          api originalRequest
      else Throw error
  | _ => Throw error
  end.

(** One call of the instance: request interceptor, transport, response
    interceptor.  The recursion of the source (the interceptor calls
    the instance) is unfolded [fuel] times. *)
Fixpoint api_ (fuel : nat) (config : request) : prog Http.response :=
  match fuel with
  | O => Throw RecursionLimit
  | S fuel =>
      token ← perform ReadAccessToken;
      let config := request_interceptor token config in
      res ← perform (Transport config);
      match settle config res with
      | inl response => Return response
      | inr error => onRejected (api_ fuel) error
      end
  end.

Definition api : request -> prog Http.response := api_ 2.

Definition post (u : string) (payload : json) : prog Http.response :=
  api (post_config u payload).

Definition get (u : string) : prog Http.response :=
  api (get_config u).

Module SafetyAPI.

Definition login (email password : string) : prog json :=
  response ← post "/auth/login"
               (<["email" := JS.str email]>
                  (<["password" := JS.str password]> ∅));
  Return (Http.data response).

Definition signup (email password : string) (role : JS.value) : prog json :=
  response ← post "/auth/signup"
               (<["email" := JS.str email]>
                  (<["password" := JS.str password]>
                     (<["role" := role]> ∅)));
  Return (Http.data response).

Definition logout : prog unit :=
  post "/auth/logout" ∅;;
  setAccessToken JS.null.

Definition refreshToken : prog json :=
  response ← post "/auth/refresh" ∅;
  (if JS.truthy (JS.field (Http.data response) "access_token")
   then setAccessToken (JS.field (Http.data response) "access_token")
   else Return tt);;
  Return (Http.data response).

Definition getMe : prog json :=
  response ← get "/auth/me";
  Return (Http.data response).

Definition getStatus (videoId : JS.value) : prog json :=
  response ← get ("/videos/" ++ JS.template videoId ++ "/status");
  Return (Http.data response).

End SafetyAPI.

End Api.

(** ** Execution *)

(** The backend is a parameter: [server history config] is the reply to
    [config] after the exchanges in [history] (newest first). *)
Abbreviation backend := (list (request * netresult) -> request -> netresult).

Definition handle (server : backend) {X : Type} (op : effect X) (w : world)
  : X * world :=
  match op in effect X return X * world with
  | ReadAccessToken => (_accessToken w, w)
  | WriteAccessToken v => (tt, with_token v w)
  | Transport config =>
      let res := server (wire w) config in
      (res, with_wire ((config, res) :: wire w) w)
  | Console level msg => (tt, with_console ((level, msg) :: console w) w)
  | SetUser u => (tt, with_auth (with_user u (auth w)) w)
  | SetIsAuthenticated b => (tt, with_auth (with_isAuthenticated b (auth w)) w)
  | SetLoading b => (tt, with_auth (with_loading b (auth w)) w)
  | SetFiles l => (tt, with_upload (with_files l (upload w)) w)
  | SetStatus s => (tt, with_upload (with_status s (upload w)) w)
  | SetError e => (tt, with_upload (with_error e (upload w)) w)
  | ClearInterval id => (tt, with_timers (delete id (timers w)) w)
  | OnUploadComplete id => (tt, with_completions (id :: completions w) w)
  end.

(** Run an asynchronous function until it settles: [inl] is the value it
    resolves to, [inr] the value it rejects with. *)
Fixpoint run (server : backend) {A : Type} (p : prog A) (w : world)
  : (A + exn) * world :=
  match p with
  | Return a => (inl a, w)
  | Throw e => (inr e, w)
  | Do op k => let '(x, w') := handle server op w in run server (k x) w'
  end.

Definition is_transport {X : Type} (op : effect X) : bool :=
  match op with
  | Transport _ => true
  | _ => false
  end.

(** Run a task up to and including its next network round trip, the point
    where it is suspended and another task may run. *)
Fixpoint resume (server : backend) {A : Type} (p : prog A) (w : world)
  : prog A * world :=
  match p with
  | Do op k =>
      let '(x, w') := handle server op w in
      if is_transport op then (k x, w') else resume server (k x) w'
  | _ => (p, w)
  end.

(** Cooperative interleaving of a pool of tasks: the schedule names, turn
    by turn, the task that is resumed. *)
Definition turn (server : backend) {A : Type} (i : nat)
    (s : list (prog A) * world) : list (prog A) * world :=
  match s.1 !! i with
  | Some p => let '(p', w') := resume server p s.2 in (<[i := p']> s.1, w')
  | None => s
  end.

Definition interleave (server : backend) {A : Type} (schedule : list nat)
    (s : list (prog A) * world) : list (prog A) * world :=
  foldl (fun s i => turn server i s) s schedule.

Definition settled {A : Type} (p : prog A) : bool :=
  match p with
  | Do _ _ => false
  | _ => true
  end.

(** ** [context/AuthContext.jsx] *)

Module Auth.

Import Api.

(** [useState(null)], [useState(null)], [useState(true)] *)
Definition initial : AuthState := mkAuth None None true.

Definition initAuth : prog unit :=
  try_finally
    (try_catch
       (SafetyAPI.refreshToken;;
        userData ← SafetyAPI.getMe;
        perform (SetUser (Some userData));;
        perform (SetIsAuthenticated (Some true)))
       (fun err =>
          perform (Console "debug"
                     "Session restoration failed (Normal if new user):");;
          perform (SetIsAuthenticated (Some false));;
          perform (SetUser None);;
          setAccessToken JS.null))
    (perform (SetLoading false)).

Definition login (email password : string) : prog json :=
  try_catch
    (data ← SafetyAPI.login email password;
     setAccessToken (JS.field data "access_token");;
     userData ← SafetyAPI.getMe;
     perform (SetUser (Some userData));;
     perform (SetIsAuthenticated (Some true));;
     Return data)
    (fun error =>
       perform (SetIsAuthenticated (Some false));;
       Throw error).

Definition signup (email password : string) (role : JS.value) : prog json :=
  data ← SafetyAPI.signup email password role;
  Return data.

Definition logout : prog unit :=
  try_catch
    SafetyAPI.logout
    (fun err => perform (Console "warn" "Logout API call failed"));;
  setAccessToken JS.null;;
  perform (SetUser None);;
  perform (SetIsAuthenticated (Some false)).

End Auth.

(** ** The [Upload] component *)

Module Upload.

Import Api.

(** One entry of [LIMITS]: size in megabytes, extensions, MIME type. *)
Record rule : Type := Rule {
  size : Z;
  ext : list string;
  mime : string
}.

Definition LIMITS : gmap string rule :=
  <["image" := Rule 10 ["jpg"; "jpeg"; "png"; "bmp"] "image/"]>
    (<["pdf" := Rule 50 ["pdf"] "application/pdf"]>
       (<["video" := Rule 100 ["mp4"; "mov"; "avi"; "mkv"] "video/"]> ∅)).

(** [`${n}`] for an integer. *)
Definition decimal (n : Z) : string := NilZero.string_of_int (Z.to_int n).

(** The property names an object literal inherits from
    [Object.prototype].  Reading one of them from [LIMITS] gives a
    function (the prototype object for [__proto__]): a truthy value that
    has no [size]. *)
Definition Object_prototype : list string :=
  ["constructor"; "hasOwnProperty"; "isPrototypeOf"; "propertyIsEnumerable";
   "toLocaleString"; "toString"; "valueOf"; "__proto__";
   "__defineGetter__"; "__defineSetter__"; "__lookupGetter__"; "__lookupSetter__"].

(** What [LIMITS[key]] evaluates to when it is not [undefined]. *)
Inductive property : Type :=
| Own (r : rule)
| Inherited.

(** [LIMITS[key]] *)
Definition LIMITS_get (key : string) : option property :=
  match LIMITS !! key with
  | Some r => Some (Own r)
  | None => if bool_decide (key ∈ Object_prototype) then Some Inherited else None
  end.

(** [file.size > rule.size * 1024 * 1024], with the [rule.size] to
    interpolate when it holds; for an inherited property [rule.size] is
    [undefined], the product is [NaN] and the comparison is false. *)
Definition exceeds (file : File.t) (p : property) : option Z :=
  match p with
  | Own r => if (size r * 1024 * 1024 <? File.size file)%Z then Some (size r) else None
  | Inherited => None
  end.

(** [validateFiles(selected, type)]: [inl None] is [return null],
    [inl (Some msg)] a returned message and [inr] a thrown value
    ([selected[0]] is [undefined] for an empty array, and reading
    [.size] of it throws).  [LIMITS[type]] coerces [type] to a
    property key. *)
Definition validateFiles (selected : list File.t) (type : JS.value)
  : option string + exn :=
  match LIMITS_get (JS.template type) with
  | None => inl (Some "Unknown type")
  | Some rule =>
      if (1 <? List.length selected)%nat then inl (Some "Please select only one file")
      else
        match selected !! 0%nat with
        | None =>
            inr (TypeError "Cannot read properties of undefined (reading 'size')")
        | Some file =>
            match exceeds file rule with
            | Some megabytes =>
                inl (Some ("File size exceeds " ++ decimal megabytes ++ "MB limit"))
            | None =>
                if bool_decide (type = JS.str "pdf")
                   && negb (File.type file =? "application/pdf")
                then inl (Some "Invalid PDF file")
                else if bool_decide (type = JS.str "image")
                        && negb (JS.startsWith (File.type file) "image/")
                then inl (Some "Invalid image file")
                else if bool_decide (type = JS.str "video")
                        && negb (JS.startsWith (File.type file) "video/")
                then inl (Some "Invalid video file")
                else inl None
            end
        end
  end.

(** [if (err)] for a returned message. *)
Definition truthy_message (err : option string) : bool :=
  match err with
  | Some msg => negb (msg =? "")
  | None => false
  end.

(** [handleFileSelect(e)], with [selected = Array.from(e.target.files)]
    and [selectedType] the state of the render that created the
    handler. *)
Definition handleFileSelect (selectedType : JS.value) (selected : list File.t)
  : prog unit :=
  if (List.length selected =? 0)%nat then Return tt
  else
    match validateFiles selected selectedType with
    | inr thrown => Throw thrown
    | inl err =>
        if truthy_message err then perform (SetError err)
        else
          perform (SetError None);;
          perform (SetFiles selected)
    end.

(** [v.toUpperCase()]: a method call on [undefined] or [null] throws. *)
Definition toUpperCase (v : JS.value) : prog string :=
  match v with
  | JS.str s => Return (JS.toUpperCase s)
  | _ => Throw (TypeError "Cannot read properties of undefined (reading 'toUpperCase')")
  end.

(** Period passed to [setInterval], in milliseconds. *)
Definition POLL_INTERVAL : Z := 2000.

(** The interval callback created by one run of the polling effect;
    [uploadId], [onUploadComplete] and [interval] are the variables it
    closes over. *)
Definition tick (uploadId : JS.value) (onUploadComplete : option nat)
    (interval : nat) : prog unit :=
  try_catch
    (data ← SafetyAPI.getStatus uploadId;
     s ← toUpperCase (JS.field data "status");
     if (s =? "PENDING") || (s =? "PROCESSING") then
       perform (SetStatus "PROCESSING")
     else if s =? "COMPLETED" then
       perform (SetStatus "COMPLETED");;
       perform (ClearInterval interval);;
       match onUploadComplete with
       | Some _ => perform (OnUploadComplete uploadId)
       | None => Return tt
       end
     else if s =? "FAILED" then
       perform (SetStatus "FAILED");;
       perform (SetError (Some "Processing failed on server."));;
       perform (ClearInterval interval)
     else Return tt)
    (fun err => perform (Console "error" "Polling error")).

(** The dependency array [[uploadId, status, onUploadComplete]]. *)
Definition deps (w : world) : JS.value * string * option nat :=
  (uploadId (upload w), status (upload w), onUploadComplete w).

(** Body of the polling [useEffect]: two early returns, otherwise
    [setInterval(tick, 2000)], whose identifier the returned cleanup
    keeps. *)
Definition polling_effect (w : world) : world :=
  if negb (JS.truthy (uploadId (upload w))) then with_poller None w
  else if status (upload w) =? "FAILED" then with_poller None w
  else
    let interval := next_timer w in
    with_poller (Some interval)
      (with_next_timer (S interval)
         (with_timers (<[interval := POLL_INTERVAL]> (timers w)) w)).

(** The cleanup returned by the previous run, [clearInterval(interval)];
    an effect run that returned early has none. *)
Definition cleanup (w : world) : world :=
  match poller w with
  | Some interval => with_timers (delete interval (timers w)) w
  | None => w
  end.

(** React's commit after a state change: when a dependency differs from
    the previous render, the old cleanup runs and then the effect
    again; otherwise the mounted effect is left alone. *)
Definition commit (before after : world) : world :=
  if bool_decide (deps before = deps after) then after
  else polling_effect (cleanup after).

(** The timer of the mounted effect fires: its callback runs to
    completion and React commits the state it set.  Nothing happens
    when the component holds no interval or the interval was cleared. *)
Definition fire (server : backend) (w : world) : world :=
  match poller w with
  | Some interval =>
      match timers w !! interval with
      | Some _ =>
          commit w (run server
                      (tick (uploadId (upload w)) (onUploadComplete w) interval)
                      w).2
      | None => w
      end
  | None => w
  end.

(** The component is polling: it owns an interval that is still active;
    the result is the period of that interval. *)
Definition polling (w : world) : option Z :=
  match poller w with
  | Some interval => timers w !! interval
  | None => None
  end.

Fixpoint fires (server : backend) (n : nat) (w : world) : world :=
  match n with
  | O => w
  | S n => fires server n (fire server w)
  end.

End Upload.

(** ** Observations on executions *)

(** Closed form of one call of the axios instance: at most three round
    trips (the request, the refresh, the resend).  [run_api] proves it
    equal to running [Api.api]. *)
Definition gateway (server : backend) (config : request) (w : world)
  : (Http.response + exn) * world :=
  let c1 := Api.request_interceptor (_accessToken w) config in
  let res1 := server (wire w) c1 in
  let w1 := with_wire ((c1, res1) :: wire w) w in
  match Api.settle c1 res1 with
  | inl r => (inl r, w1)
  | inr (AxiosError _ resp as e) =>
      if Api.is_401 resp && negb (_retry config)
         && negb (Api.is_auth_url (url config)) then
        let rc := Api.request_interceptor (_accessToken w1)
                    (Api.post_config "/auth/refresh" ∅) in
        let res2 := server (wire w1) rc in
        let w2 := with_wire ((rc, res2) :: wire w1) w1 in
        match Api.settle rc res2 with
        | inr refreshError => (inr refreshError, with_token JS.null w2)
        | inl r2 =>
            let access_token := JS.field (Http.data r2) "access_token" in
            let w3 := with_token access_token w2 in
            let c3 := Api.request_interceptor access_token
                        (set_Authorization
                           ("Bearer " ++ JS.template access_token)
                           (set_retry true c1)) in
            let res3 := server (wire w3) c3 in
            (match Api.settle c3 res3 with
             | inl r => inl r
             | inr e3 => inr e3
             end, with_wire ((c3, res3) :: wire w3) w3)
        end
      else (inr e, w1)
  | inr e => (inr e, w1)
  end.

(** The exchanges added to the log between two worlds, newest first. *)
Definition sent_during (w w' : world) : list (request * netresult) :=
  take (List.length (wire w') - List.length (wire w)) (wire w').

Definition is_refresh (x : request * netresult) : bool :=
  url x.1 =? "/auth/refresh".

(** A transmission of a request that is not a login or refresh call and
    has not been retried yet. *)
Definition is_first_attempt (x : request * netresult) : bool :=
  negb (_retry x.1) && negb (Api.is_auth_url (url x.1)).

Definition is_resend (x : request * netresult) : bool := _retry x.1.

Definition replied_401 (x : request * netresult) : bool :=
  match x.2 with
  | Reply st _ => (st =? 401)%Z
  | NetworkError => false
  end.

(** The exchange was fulfilled (a 2xx reply). *)
Definition fulfilled (x : request * netresult) : bool :=
  match Api.settle x.1 x.2 with
  | inl _ => true
  | inr _ => false
  end.

(** Some refresh call in the list was not fulfilled. *)
Definition refresh_failed (l : list (request * netresult)) : bool :=
  existsb (fun x => is_refresh x && negb (fulfilled x)) l.

Definition count {A : Type} (f : A -> bool) (l : list A) : nat :=
  List.length (List.filter f l).

Definition is_rejected {A : Type} (r : A + exn) : bool :=
  match r with
  | inl _ => false
  | inr _ => true
  end.

(** The four ways one call of the instance can go. *)
Inductive gateway_case (server : backend) (c : request) (w : world)
  : (Http.response + exn) * world -> list (request * netresult) -> Prop :=
| gw_fulfilled c1 res1 r :
    c1 = Api.request_interceptor (_accessToken w) c ->
    res1 = server (wire w) c1 ->
    Api.settle c1 res1 = inl r ->
    gateway_case server c w (inl r, with_wire ((c1, res1) :: wire w) w)
                 [(c1, res1)]
| gw_rejected c1 res1 resp :
    c1 = Api.request_interceptor (_accessToken w) c ->
    res1 = server (wire w) c1 ->
    Api.settle c1 res1 = inr (AxiosError c1 resp) ->
    Api.is_401 resp && negb (_retry c) && negb (Api.is_auth_url (url c)) = false ->
    gateway_case server c w
                 (inr (AxiosError c1 resp), with_wire ((c1, res1) :: wire w) w)
                 [(c1, res1)]
| gw_refresh_failed c1 res1 resp rc res2 refreshError :
    c1 = Api.request_interceptor (_accessToken w) c ->
    res1 = server (wire w) c1 ->
    Api.settle c1 res1 = inr (AxiosError c1 resp) ->
    Api.is_401 resp = true -> _retry c = false ->
    Api.is_auth_url (url c) = false ->
    rc = Api.request_interceptor (_accessToken w)
           (Api.post_config "/auth/refresh" ∅) ->
    res2 = server ((c1, res1) :: wire w) rc ->
    Api.settle rc res2 = inr refreshError ->
    gateway_case server c w
                 (inr refreshError,
                  with_token JS.null
                    (with_wire ((rc, res2) :: (c1, res1) :: wire w) w))
                 [(rc, res2); (c1, res1)]
| gw_resent c1 res1 resp rc res2 r2 c3 res3 :
    c1 = Api.request_interceptor (_accessToken w) c ->
    res1 = server (wire w) c1 ->
    Api.settle c1 res1 = inr (AxiosError c1 resp) ->
    Api.is_401 resp = true -> _retry c = false ->
    Api.is_auth_url (url c) = false ->
    rc = Api.request_interceptor (_accessToken w)
           (Api.post_config "/auth/refresh" ∅) ->
    res2 = server ((c1, res1) :: wire w) rc ->
    Api.settle rc res2 = inl r2 ->
    c3 = Api.request_interceptor (JS.field (Http.data r2) "access_token")
           (set_Authorization
              ("Bearer " ++ JS.template (JS.field (Http.data r2) "access_token"))
              (set_retry true c1)) ->
    res3 = server ((rc, res2) :: (c1, res1) :: wire w) c3 ->
    gateway_case server c w
                 (match Api.settle c3 res3 with
                  | inl r => inl r
                  | inr e3 => inr e3
                  end,
                  with_token (JS.field (Http.data r2) "access_token")
                    (with_wire ((c3, res3) :: (rc, res2) :: (c1, res1) :: wire w) w))
                 [(c3, res3); (rc, res2); (c1, res1)].

(** The wrappers touch nothing but the token and the network log. *)
Definition same_page (w w' : world) : Prop :=
  console w' = console w /\ auth w' = auth w /\ upload w' = upload w /\
  timers w' = timers w /\ next_timer w' = next_timer w /\
  poller w' = poller w /\ onUploadComplete w' = onUploadComplete w /\
  completions w' = completions w.

(** ** One request through the gateway, turn by turn *)

(** The response interceptor applied to the reply of a transmission: what
    is left of a call of the instance once its request has gone out. *)
Definition received (fuel : nat) (config : request) (res : netresult)
  : prog Http.response :=
  match Api.settle config res with
  | inl response => Return response
  | inr error => Api.onRejected (Api.api_ fuel) error
  end.

(** The retry of [Api.onRejected] with its refresh call under way:
    [pending] is what is left of [api.post("/auth/refresh")]. *)
Definition awaiting_refresh (fuel : nat) (originalRequest : request)
    (pending : prog Http.response) : prog Http.response :=
  originalRequest ←
    try_catch
      (r ← pending;
       let access_token := JS.field (Http.data r) "access_token" in
       Api.setAccessToken access_token;;
       Return (set_Authorization
                 ("Bearer " ++ JS.template access_token)
                 originalRequest))
      (fun refreshError =>
         perform (WriteAccessToken JS.null);;
         Throw refreshError);
  Api.api_ fuel originalRequest.

(** Where a request can be between two turns: not sent yet; sent, with
    the reply at hand; its refresh call sent; resent; or rejected because
    the refresh failed. *)
Inductive phase : Type :=
| Unsent (config : request)
| Sent (config : request) (res : netresult)
| Refreshing (originalRequest rc : request) (res : netresult)
| Resent (config : request) (res : netresult)
| Failed (refreshError : exn).

Definition prog_of (ph : phase) : prog Http.response :=
  match ph with
  | Unsent config => Api.api config
  | Sent config res => received 1 config res
  | Refreshing originalRequest rc res =>
      awaiting_refresh 1 originalRequest (received 0 rc res)
  | Resent config res => received 0 config res
  | Failed refreshError => Throw refreshError
  end.

(** The reply is a 401 that the interceptor answers with a refresh. *)
Definition owes_refresh (x : request * netresult) : bool :=
  is_first_attempt x && replied_401 x.

(** One turn of a request, phase to phase. *)
Definition advance (server : backend) (ph : phase) (w : world) : phase * world :=
  match ph with
  | Unsent config =>
      let c1 := Api.request_interceptor (_accessToken w) config in
      let res1 := server (wire w) c1 in
      (Sent c1 res1, with_wire ((c1, res1) :: wire w) w)
  | Sent config res =>
      if owes_refresh (config, res) then
        let rc := Api.request_interceptor (_accessToken w)
                    (Api.post_config "/auth/refresh" ∅) in
        let res2 := server (wire w) rc in
        (Refreshing (set_retry true config) rc res2,
         with_wire ((rc, res2) :: wire w) w)
      else (ph, w)
  | Refreshing originalRequest rc res =>
      match Api.settle rc res with
      | inl r =>
          let access_token := JS.field (Http.data r) "access_token" in
          let c3 := Api.request_interceptor access_token
                      (set_Authorization
                         ("Bearer " ++ JS.template access_token)
                         originalRequest) in
          let res3 := server (wire w) c3 in
          (Resent c3 res3,
           with_wire ((c3, res3) :: wire w) (with_token access_token w))
      | inr refreshError => (Failed refreshError, with_token JS.null w)
      end
  | Resent _ _ => (ph, w)
  | Failed _ => (ph, w)
  end.

(** What the phases of a request that is neither a login nor a refresh
    call, and was not marked as retried by its caller, satisfy. *)
Definition well_formed (ph : phase) : Prop :=
  match ph with
  | Unsent config | Sent config _ =>
      _retry config = false /\ Api.is_auth_url (url config) = false
  | Refreshing originalRequest rc _ =>
      _retry originalRequest = true /\
      Api.is_auth_url (url originalRequest) = false /\
      url rc = "/auth/refresh" /\ _retry rc = false
  | Resent config _ =>
      _retry config = true /\ Api.is_auth_url (url config) = false
  | Failed _ => True
  end.

Definition unsent (ph : phase) : nat :=
  match ph with
  | Unsent _ => 1
  | _ => 0
  end.

Definition refresh_due (ph : phase) : nat :=
  match ph with
  | Sent config res => if owes_refresh (config, res) then 1 else 0
  | _ => 0
  end.

Definition resend_due (ph : phase) : nat :=
  match ph with
  | Refreshing _ rc res => if fulfilled (rc, res) then 1 else 0
  | _ => 0
  end.

Definition is_fulfilled_refresh (x : request * netresult) : bool :=
  is_refresh x && fulfilled x.

Definition total {A : Type} (f : A -> nat) (l : list A) : nat :=
  foldr (fun x n => (f x + n)%nat) 0%nat l.

(** The state of a pool of [n] requests started from [w0]: every request
    is in a well-formed phase, and the exchanges made since [w0] balance
    with what the requests still have to send. *)
Definition balanced (n : nat) (w0 : world) (phases : list phase) (w : world)
  : Prop :=
  Forall well_formed phases /\
  exists sent,
    wire w = (sent ++ wire w0)%list /\
    (count is_first_attempt sent + total unsent phases = n)%nat /\
    (count owes_refresh sent
     = count is_refresh sent + total refresh_due phases)%nat /\
    (count is_fulfilled_refresh sent
     = count is_resend sent + total resend_due phases)%nat.

(** ** The validation rule, as the specification words it *)

Definition categories : list string := ["image"; "pdf"; "video"].

(** Size limit of a category, in bytes. *)
Definition limit_of (category : string) : Z :=
  if category =? "image" then (10 * 1024 * 1024)%Z
  else if category =? "pdf" then (50 * 1024 * 1024)%Z
  else if category =? "video" then (100 * 1024 * 1024)%Z
  else 0%Z.

(** The declared type matches the category's prefix or exact type. *)
Definition accepts_type (category mime : string) : bool :=
  if category =? "image" then String.prefix "image/" mime
  else if category =? "pdf" then mime =? "application/pdf"
  else if category =? "video" then String.prefix "video/" mime
  else false.

(** More than one file, or the file too large, or its type not accepted. *)
Definition must_reject (selected : list File.t) (category : string) : bool :=
  (1 <? List.length selected)%nat ||
  match selected with
  | file :: _ =>
      (limit_of category <? File.size file)%Z
      || negb (accepts_type category (File.type file))
  | [] => false
  end.

(** ** Job statuses *)

(** The uppercased statuses the poll callback has a branch for. *)
Definition recognized (s : string) : bool :=
  (s =? "PENDING") || (s =? "PROCESSING") || (s =? "COMPLETED") || (s =? "FAILED").

(** The URL polled for a job. *)
Definition status_url (videoId : JS.value) : string :=
  "/videos/" ++ JS.template videoId ++ "/status".

(** ** Concrete pages and backends *)

Module Scenario.

Definition token_body (t : string) : json := {[ "access_token" := JS.str t ]}.

Definition status_body (s : string) : json := {[ "status" := JS.str s ]}.

Definition profile : json := {[ "email" := JS.str "a@b.com" ]}.

Definition summary : request := Api.get_config "/results/summary?upload_id=X".

Definition violations : request := Api.get_config "/results/violations?upload_id=X".

Definition plan : File.t := File.make "plan.pdf" 2097152 "application/pdf".

(** A page that has just been loaded: nothing stored, nothing selected. *)
Definition visitor : world :=
  mkWorld JS.null [] [] Auth.initial (mkUpload JS.null [] "IDLE" JS.null None)
          ∅ 0 None None [].

(** A signed-in user whose access token has gone stale while job ["X"]
    is being processed; the polling effect has run and holds interval 0. *)
Definition working : world :=
  Upload.polling_effect
    (mkWorld (JS.str "stale") [] [] (mkAuth (Some profile) (Some true) false)
             (mkUpload (JS.str "pdf") [plan] "PROCESSING" (JS.str "X") None)
             ∅ 0 None (Some 0) []).

(** The session is gone: every call, the refresh included, draws a 401. *)
Definition expired : backend := fun _ _ => Reply 401 ∅.

(** Only a request bearing the refreshed token is accepted. *)
Definition rotating : backend := fun _ c =>
  if url c =? "/auth/refresh" then Reply 200 (token_body "fresh")
  else if bool_decide (Authorization c = Some "Bearer fresh") then Reply 200 ∅
  else Reply 401 ∅.

(** The refresh succeeds, every other call keeps drawing a 401. *)
Definition refusing : backend := fun _ c =>
  if url c =? "/auth/refresh" then Reply 200 (token_body "fresh")
  else Reply 401 ∅.



(** Every call fails at the transport (no reply). *)
Definition offline : backend := fun _ _ => NetworkError.

(** The job status endpoint always answers with the given status. *)
Definition reporting (s : string) : backend := fun _ _ => Reply 200 (status_body s).

End Scenario.

(** ** The rest of the page *)

Definition with_onUploadComplete (cb : option nat) (w : world) : world :=
  mkWorld (_accessToken w) (wire w) (console w) (auth w)
          (upload w) (timers w) (next_timer w)
          (poller w) cb (completions w).

Definition with_uploadId (id : JS.value) (u : UploadState) : UploadState :=
  mkUpload (selectedType u) (files u) (status u) id (error u).

(** *** [api.js]: the upload and health wrappers *)

Module Endpoints.

(** [SafetyAPI.upload(files, uploadType)].  [formData files uploadType]
    stands for the multipart body the browser builds from the [FormData]
    object (one [files] part per file, then [upload_type]). *)
Definition upload (formData : list File.t -> JS.value -> json)
    (files : list File.t) (uploadType : JS.value) : prog json :=
  response ← Api.post "/videos/upload" (formData files uploadType);
  Return (Http.data response).

Definition getHealth : prog json :=
  response ← Api.get "/health";
  Return (Http.data response).

End Endpoints.

(** *** [components/ProtectedRoute.jsx] *)

Module ProtectedRoute.

Inductive view : Type :=
| Spinner
| Navigate (to : string)
| Children.

Definition render (a : AuthState) : view :=
  if loading a || bool_decide (isAuthenticated a = None) then Spinner
  else if negb (default false (isAuthenticated a)) then Navigate "/login"
  else Children.

End ProtectedRoute.

(** *** What the page can do to the session *)

(** The operations [AuthProvider] offers, and a call of the axios
    instance made by any other component. *)
Inductive action : Type :=
| Bootstrap
| Login (email password : string)
| Signup (email password : string) (role : JS.value)
| Logout
| Call (config : request).

Definition act (server : backend) (a : action) (w : world) : world :=
  match a with
  | Bootstrap => (run server Auth.initAuth w).2
  | Login email password => (run server (Auth.login email password) w).2
  | Signup email password role =>
      (run server (Auth.signup email password role) w).2
  | Logout => (run server Auth.logout w).2
  | Call config => (run server (Api.api config) w).2
  end.

Definition acts (server : backend) (l : list action) (w : world) : world :=
  foldl (fun w a => act server a w) w l.

(** *** The [Upload] component: the remaining handlers *)

Module UploadFlow.

(** [handleTypeSelect(type)] *)
Definition handleTypeSelect (type : JS.value) (w : world) : world :=
  with_upload (mkUpload type [] "IDLE" JS.null None) w.

(** [handleBack()] *)
Definition handleBack (w : world) : world :=
  if (status (upload w) =? "UPLOADING") || (status (upload w) =? "PROCESSING")
  then w
  else with_upload (mkUpload JS.null [] "IDLE" JS.null None) w.

(** The "Try Again" button of [UploadView]: [setStatus("IDLE")]. *)
Definition tryAgain (w : world) : world :=
  with_upload (with_status "IDLE" (upload w)) w.

(** The message [handleUpload] shows for a rejected upload;
    [message err] is [err.message]. *)
Definition failure_message (message : exn -> JS.value) (err : exn) : string :=
  match err with
  | AxiosError _ (Some response) =>
      "Server Error: " ++
      (if JS.truthy (JS.field (Http.data response) "detail")
       then JS.template (JS.field (Http.data response) "detail")
       else Upload.decimal (Http.status response))
  | _ =>
      if JS.truthy (message err) then JS.template (message err)
      else "Upload failed"
  end.

(** What happens to the mounted component without the user: the timer
    of its interval fires, or the parent renders again.
    [DashboardLayout] defines [handleUploadComplete] in its body, so each
    of its renders passes a callback of a new identity. *)
Inductive background : Type :=
| Tick
| Rerender (onUploadComplete : option nat).

Definition drift (server : backend) (b : background) (w : world) : world :=
  match b with
  | Tick => Upload.fire server w
  | Rerender cb => Upload.commit w (with_onUploadComplete cb w)
  end.

Definition drifts (server : backend) (l : list background) (w : world) : world :=
  foldl (fun w b => drift server b w) w l.

(** [handleUpload()].  React renders, and commits the effects, once
    after the two setters that precede the [await] and once after the
    setters that follow it.  [during] is what happens to the component
    while the upload call is awaited (the controls of [UploadView] are
    disabled while the status is UPLOADING, an interval armed for a job
    identifier the page still holds is not): the handler resumes on the
    state these events have left. *)
Definition handleUpload (server : backend)
    (formData : list File.t -> JS.value -> json) (message : exn -> JS.value)
    (during : list background) (w : world) : world :=
  if (List.length (files (upload w)) =? 0)%nat
     || negb (JS.truthy (selectedType (upload w)))
  then w
  else
    let w1 := Upload.commit w
                (with_upload
                   (with_error None (with_status "UPLOADING" (upload w))) w) in
    match run server
            (Endpoints.upload formData (files (upload w)) (selectedType (upload w)))
            w1 with
    | (inl data, w2) =>
        let w3 := drifts server during w2 in
        Upload.commit w3
          (with_upload
             (with_status "PROCESSING"
                (with_uploadId (JS.field data "video_id") (upload w3))) w3)
    | (inr err, w2) =>
        let w3 := drifts server during w2 in
        let w4 := with_console (("error", "Upload Error:") :: console w3) w3 in
        Upload.commit w4
          (with_upload
             (with_status "FAILED"
                (with_error (Some (failure_message message err)) (upload w4)))
             w4)
    end.

(** What can happen to the component: an action of the user, or a
    background event.  [Submit during] is a click on "Start Analysis"
    with what happens while the upload is awaited. *)
Inductive event : Type :=
| TypeSelect (type : JS.value)
| Back
| FileSelect (selected : list File.t)
| Submit (during : list background)
| TryAgain
| Background (b : background).

(** One event: the handler, then React's commit. *)
Definition step (server : backend)
    (formData : list File.t -> JS.value -> json) (message : exn -> JS.value)
    (e : event) (w : world) : world :=
  match e with
  | TypeSelect type => Upload.commit w (handleTypeSelect type w)
  | Back => Upload.commit w (handleBack w)
  | FileSelect selected =>
      Upload.commit w
        (run server
           (Upload.handleFileSelect (selectedType (upload w)) selected) w).2
  | Submit during => handleUpload server formData message during w
  | TryAgain => Upload.commit w (tryAgain w)
  | Background b => drift server b w
  end.

Definition steps (server : backend)
    (formData : list File.t -> JS.value -> json) (message : exn -> JS.value)
    (l : list event) (w : world) : world :=
  foldl (fun w e => step server formData message e w) w l.

(** The component owns at most one interval, the one its cleanup will
    clear, and it only holds an interval for a job that has an
    identifier and is not shown as Failed. *)
Definition well_mounted (w : world) : Prop :=
  (forall i, i ∈ dom (timers w) -> poller w = Some i) /\
  (is_Some (poller w) ->
   JS.truthy (uploadId (upload w)) = true /\ status (upload w) <> "FAILED").

End UploadFlow.

(** *** [components/Integrity.jsx] *)

Module Integrity.

(** [useState(null)], [useState(true)], [useState(null)] *)
Record state : Type := mkState {
  status : option json;
  loading : bool;
  error : option string
}.

Definition initial : state := mkState None true None.

(** [fetchHealth()], on the component state and the page. *)
Definition fetchHealth (server : backend) (s : state * world) : state * world :=
  match run server Endpoints.getHealth s.2 with
  | (inl health, w) => (mkState (Some health) false None, w)
  | (inr err, w) =>
      (mkState (status s.1) false (Some "System unreachable"),
       with_console (("error", "Health check failed") :: console w) w)
  end.

Fixpoint polls (server : backend) (n : nat) (s : state * world) : state * world :=
  match n with
  | O => s
  | S n => polls server n (fetchHealth server s)
  end.

(** What the component renders: the three rows show whether each
    component of the health body is ['ok']. *)
Inductive view : Type :=
| Checking
| Banner (error : string)
| Rows (api database auth : bool).

Definition operational (v : JS.value) : bool := bool_decide (v = JS.str "ok").

(** The render; reading [status.api] of [null] throws. *)
Definition render (s : state) : view + exn :=
  if loading s then inl Checking
  else
    match error s with
    | Some msg =>
        if negb (msg =? "") then inl (Banner msg)
        else
          match status s with
          | Some health =>
              inl (Rows (operational (JS.field health "api"))
                        (operational (JS.field health "database"))
                        (operational (JS.field health "auth")))
          | None => inr (TypeError "Cannot read properties of null (reading 'api')")
          end
    | None =>
        match status s with
        | Some health =>
            inl (Rows (operational (JS.field health "api"))
                      (operational (JS.field health "database"))
                      (operational (JS.field health "auth")))
        | None => inr (TypeError "Cannot read properties of null (reading 'api')")
        end
    end.

End Integrity.

(** *** Sample pages and backends for the upload form *)

Module Sample.

(** The multipart body reduced to its [upload_type] part. *)
Definition formData (files : list File.t) (uploadType : JS.value) : json :=
  {[ "upload_type" := uploadType ]}.

(** [err.message] as axios sets it on a transport failure. *)
Definition message (err : exn) : JS.value := JS.str "Network Error".

(** A page where a PDF plan has been chosen and nothing is uploaded yet. *)
Definition ready : world :=
  mkWorld (JS.str "t1") [] [] (mkAuth (Some Scenario.profile) (Some true) false)
          (mkUpload (JS.str "pdf") [Scenario.plan] "IDLE" JS.null None)
          ∅ 0 None (Some 0) [].

(** The page after the processing of job ["X"] was reported as failed. *)
Definition failed : world :=
  mkWorld (JS.str "t1") [] [] (mkAuth (Some Scenario.profile) (Some true) false)
          (mkUpload (JS.str "pdf") [Scenario.plan] "FAILED" (JS.str "X")
                    (Some "Processing failed on server."))
          ∅ 1 None (Some 0) [].

(** The upload is accepted as job ["X"], which is then reported as
    completed. *)
Definition accepting : backend := fun _ c =>
  if url c =? "/videos/upload"
  then Reply 200 {[ "video_id" := JS.str "X" ]}
  else Reply 200 (Scenario.status_body "completed").



(** The upload is refused with a reason. *)
Definition rejecting : backend := fun _ _ =>
  Reply 413 {[ "detail" := JS.str "File too large" ]}.

(** All services are up. *)
Definition healthy : backend := fun _ _ =>
  Reply 200 {[ "api" := JS.str "ok"; "database" := JS.str "ok";
               "auth" := JS.str "ok" ]}.

End Sample.

(** * Properties *)

Section Execution.

Variable server : backend.

Lemma run_bind {A B : Type} (m : prog A) (f : A -> prog B) (w : world) :
  run server (bind m f) w =
  match run server m w with
  | (inl a, w') => run server (f a) w'
  | (inr e, w') => (inr e, w')
  end.
Proof.
  revert w; induction m as [a | e | X op k IH]; intros w; simpl; try reflexivity.
  destruct (handle server op w) as [x w']. apply IH.
Qed.

Lemma run_mbind {A B : Type} (m : prog A) (f : A -> prog B) (w : world) :
  run server (m ≫= f) w =
  match run server m w with
  | (inl a, w') => run server (f a) w'
  | (inr e, w') => (inr e, w')
  end.
Proof. apply run_bind. Qed.

Lemma run_try_catch {A : Type} (m : prog A) (h : exn -> prog A) (w : world) :
  run server (try_catch m h) w =
  match run server m w with
  | (inl a, w') => (inl a, w')
  | (inr e, w') => run server (h e) w'
  end.
Proof.
  revert w; induction m as [a | e | X op k IH]; intros w; simpl; try reflexivity.
  destruct (handle server op w) as [x w']. apply IH.
Qed.

Lemma run_try_finally {A : Type} (m : prog A) (final : prog unit) (w : world) :
  run server (try_finally m final) w =
  match run server m w with
  | (inl a, w') =>
      match run server final w' with
      | (inl _, w'') => (inl a, w'')
      | (inr e, w'') => (inr e, w'')
      end
  | (inr e, w') =>
      match run server final w' with
      | (inl _, w'') => (inr e, w'')
      | (inr e', w'') => (inr e', w'')
      end
  end.
Proof.
  revert w; induction m as [a | e | X op k IH]; intros w; simpl.
  - rewrite run_mbind. destruct (run server final w) as [[[]|e] w']; reflexivity.
  - rewrite run_mbind. destruct (run server final w) as [[[]|e'] w']; reflexivity.
  - destruct (handle server op w) as [x w']. apply IH.
Qed.

Lemma interceptor_retry (t : JS.value) (c : request) :
  _retry (Api.request_interceptor t c) = _retry c.
Proof. unfold Api.request_interceptor. destruct (JS.truthy t); reflexivity. Qed.

Lemma interceptor_url (t : JS.value) (c : request) :
  url (Api.request_interceptor t c) = url c.
Proof. unfold Api.request_interceptor. destruct (JS.truthy t); reflexivity. Qed.

Lemma settle_error (c : request) (res : netresult) (e : exn) :
  Api.settle c res = inr e -> exists resp, e = AxiosError c resp.
Proof.
  unfold Api.settle. destruct res as [st d |].
  - destruct (_ && _); intros H; inversion H; eauto.
  - intros H; inversion H; eauto.
Qed.

(** One unfolding of the instance. *)
Lemma run_api_S (n : nat) (c : request) (w : world) :
  run server (Api.api_ (S n) c) w =
  let c1 := Api.request_interceptor (_accessToken w) c in
  let res1 := server (wire w) c1 in
  let w1 := with_wire ((c1, res1) :: wire w) w in
  match Api.settle c1 res1 with
  | inl r => (inl r, w1)
  | inr e => run server (Api.onRejected (Api.api_ n) e) w1
  end.
Proof.
  simpl. destruct (Api.settle _ _); reflexivity.
Qed.

(** The rejection branch of the response interceptor. *)
Lemma run_onRejected (api : request -> prog Http.response)
    (c : request) (resp : option Http.response) (w : world) :
  run server (Api.onRejected api (AxiosError c resp)) w =
  if Api.is_401 resp && negb (_retry c) then
    if Api.is_auth_url (url c) then (inr (AxiosError c resp), w)
    else
      match run server (api (Api.post_config "/auth/refresh" ∅)) w with
      | (inl r, w') =>
          let access_token := JS.field (Http.data r) "access_token" in
          run server
            (api (set_Authorization ("Bearer " ++ JS.template access_token)
                    (set_retry true c)))
            (with_token access_token w')
      | (inr refreshError, w') => (inr refreshError, with_token JS.null w')
      end
  else (inr (AxiosError c resp), w).
Proof.
  unfold Api.onRejected.
  destruct (Api.is_401 resp && negb (_retry c)); [| reflexivity].
  destruct (Api.is_auth_url (url c)); [reflexivity |].
  rewrite run_mbind, run_try_catch, run_mbind.
  destruct (run server (api _) w) as [[r | e] w']; reflexivity.
Qed.

(** Two unfoldings of the instance are enough: running [Api.api_] with
    any larger bound is running the closed form. *)
Lemma run_api_ (n : nat) (c : request) (w : world) :
  run server (Api.api_ (S (S n)) c) w = gateway server c w.
Proof.
  rewrite run_api_S. unfold gateway. cbv zeta.
  set (c1 := Api.request_interceptor (_accessToken w) c).
  set (w1 := with_wire _ w).
  destruct (Api.settle c1 (server (wire w) c1)) as [r | e] eqn:Hs1; [reflexivity |].
  destruct (settle_error _ _ _ Hs1) as [resp ->].
  rewrite run_onRejected.
  replace (_retry c1) with (_retry c) by (symmetry; apply interceptor_retry).
  replace (url c1) with (url c) by (symmetry; apply interceptor_url).
  destruct (Api.is_401 resp && negb (_retry c)) eqn:H401; [| reflexivity].
  destruct (Api.is_auth_url (url c)) eqn:Hauth; [reflexivity |].
  cbn [andb negb].
  rewrite run_api_S. cbv zeta.
  set (rc := Api.request_interceptor (_accessToken w1) _).
  set (w2 := with_wire _ w1).
  destruct (Api.settle rc (server (wire w1) rc)) as [r2 | e2] eqn:Hs2.
  - cbv zeta. rewrite run_api_S. cbv zeta.
    set (tok := JS.field (Http.data r2) "access_token").
    change (_accessToken (with_token tok w2)) with tok.
    set (c3 := Api.request_interceptor tok _).
    set (w3 := with_token tok w2).
    destruct (Api.settle c3 (server (wire w3) c3)) as [r3 | e3] eqn:Hs3; [reflexivity |].
    destruct (settle_error _ _ _ Hs3) as [resp3 ->].
    rewrite run_onRejected.
    replace (_retry c3) with true by (symmetry; apply interceptor_retry).
    rewrite andb_false_r. reflexivity.
  - destruct (settle_error _ _ _ Hs2) as [resp2 ->].
    rewrite run_onRejected.
    replace (_retry rc) with false by (symmetry; apply interceptor_retry).
    replace (url rc) with "/auth/refresh" by (symmetry; apply interceptor_url).
    destruct (Api.is_401 resp2); reflexivity.
Qed.

Lemma run_api (c : request) (w : world) :
  run server (Api.api c) w = gateway server c w.
Proof. apply (run_api_ 0). Qed.

Lemma sent_during_app (l : list (request * netresult)) (w w' : world) :
  wire w' = (l ++ wire w)%list -> sent_during w w' = l.
Proof.
  intros H. unfold sent_during. rewrite H, length_app.
  replace (List.length l + List.length (wire w) - List.length (wire w))%nat
    with (List.length l) by lia.
  apply take_app_length.
Qed.

Lemma gateway_cases (c : request) (w : world) :
  exists sent, gateway_case server c w (gateway server c w) sent.
Proof.
  unfold gateway. cbv zeta.
  set (c1 := Api.request_interceptor (_accessToken w) c).
  set (res1 := server (wire w) c1).
  destruct (Api.settle c1 res1) as [r | e] eqn:Hs1.
  { eexists. eapply gw_fulfilled; eauto. }
  destruct (settle_error _ _ _ Hs1) as [resp ->].
  destruct (Api.is_401 resp && negb (_retry c) && negb (Api.is_auth_url (url c)))
    eqn:Hel.
  2:{ eexists. eapply gw_rejected; eauto. }
  apply andb_prop in Hel as [Hel Hauth]. apply andb_prop in Hel as [H401 Hretry].
  apply negb_true_iff in Hauth, Hretry.
  cbn [_accessToken with_wire wire].
  set (rc := Api.request_interceptor (_accessToken w) _).
  set (res2 := server ((c1, res1) :: wire w) rc).
  destruct (Api.settle rc res2) as [r2 | e2] eqn:Hs2.
  - eexists.
    exact (gw_resent server c w c1 res1 resp rc res2 r2 _ _ eq_refl eq_refl Hs1
             H401 Hretry Hauth eq_refl eq_refl Hs2 eq_refl eq_refl).
  - eexists.
    exact (gw_refresh_failed server c w c1 res1 resp rc res2 e2 eq_refl eq_refl
             Hs1 H401 Hretry Hauth eq_refl eq_refl Hs2).
Qed.

Lemma gateway_case_wire (c : request) (w : world) r sent :
  gateway_case server c w r sent -> wire r.2 = (sent ++ wire w)%list.
Proof. destruct 1; reflexivity. Qed.

Lemma gateway_case_frame (c : request) (w : world) r sent :
  gateway_case server c w r sent ->
  console r.2 = console w /\ auth r.2 = auth w /\ upload r.2 = upload w /\
  timers r.2 = timers w /\ next_timer r.2 = next_timer w /\
  poller r.2 = poller w /\ onUploadComplete r.2 = onUploadComplete w /\
  completions r.2 = completions w.
Proof. destruct 1; repeat split; reflexivity. Qed.

(** The instance only ever rejects with an axios error: the unfolding
    bound is never what stops it. *)
Lemma api_fuel (n : nat) (c : request) (w : world) :
  run server (Api.api_ (S (S n)) c) w = run server (Api.api c) w /\
  (run server (Api.api c) w).1 <> inr RecursionLimit.
Proof.
  split; [rewrite run_api_, run_api; reflexivity |].
  rewrite run_api.
  destruct (gateway_cases c w) as [sent H].
  destruct H as [ | | ? ? ? ? ? ? ? ? ? ? ? ? ? ? Hs2
                | ? ? ? ? ? ? ? ? ? ? ? ? ? ? ? ? ? ]; simpl; try discriminate.
  - destruct (settle_error _ _ _ Hs2) as [resp2 ->]. discriminate.
  - destruct (Api.settle c3 res3) as [r3 | e3] eqn:Hs3; [discriminate |].
    destruct (settle_error _ _ _ Hs3) as [resp3 ->]. discriminate.
Qed.

End Execution.

(** ** The 401 retry protocol of the gateway *)

Lemma not_auth_not_refresh (u : string) :
  Api.is_auth_url u = false -> (u =? "/auth/refresh") = false.
Proof.
  intros H. destruct (String.eqb_spec u "/auth/refresh") as [-> | _]; [| reflexivity].
  vm_compute in H. discriminate.
Qed.

Lemma settle_401 (c : request) (res : netresult) :
  replied_401 (c, res) = true ->
  exists d, res = Reply 401 d /\
            Api.settle c res = inr (AxiosError c (Some (Http.Response 401 d))).
Proof.
  unfold replied_401; simpl. destruct res as [st d |]; [| discriminate].
  intros H. apply Z.eqb_eq in H. subst st. exists d. split; reflexivity.
Qed.

(** C3. For every request sent through the gateway: the call makes at
    most one refresh and at most one resend (three round trips in all); a
    401 drawn by a transmission already marked as retried is the last
    round trip of the call, which rejects with that 401 response; and a
    request whose URL is the login or refresh endpoint makes exactly one
    round trip, a 401 there being rejected as it is. *)
Theorem retry_at_most_once (server : backend) (c : request) (w : world) :
  let r := run server (Api.api c) w in
  let sent := sent_during w r.2 in
  ((count is_refresh sent <= 1)%nat /\ (count is_resend sent <= 1)%nat /\
   (List.length sent <= 3)%nat) /\
  (forall x, x ∈ sent -> is_resend x = true -> replied_401 x = true ->
     head sent = Some x /\
     exists d, x.2 = Reply 401 d /\
               r.1 = inr (AxiosError x.1 (Some (Http.Response 401 d)))) /\
  (Api.is_auth_url (url c) = true ->
     exists c1 res1, sent = [(c1, res1)] /\ url c1 = url c /\
       (replied_401 (c1, res1) = true ->
        exists d, res1 = Reply 401 d /\
                  r.1 = inr (AxiosError c1 (Some (Http.Response 401 d))))).
Proof.
  intros r sent. subst r sent. rewrite run_api.
  destruct (gateway_cases server c w) as [sent Hc].
  rewrite (sent_during_app sent) by (eapply gateway_case_wire; eauto).
  destruct Hc as [c1 res1 r1 Hc1 Hres1 Hs1
                 | c1 res1 resp Hc1 Hres1 Hs1 Hel
                 | c1 res1 resp rc res2 e2 Hc1 Hres1 Hs1 H401 Hretry Hauth Hrc Hres2 Hs2
                 | c1 res1 resp rc res2 r2 c3 res3 Hc1 Hres1 Hs1 H401 Hretry Hauth Hrc Hres2 Hs2 Hc3 Hres3 ].
  - (* fulfilled at once *)
    split; [| split].
    + unfold count; simpl.
      destruct (is_refresh (c1, res1)), (is_resend (c1, res1)); simpl; lia.
    + intros x Hx _ H401. apply list_elem_of_singleton in Hx. subst x.
      destruct (settle_401 _ _ H401) as (d & _ & Hs). congruence.
    + intros _. exists c1, res1. split; [reflexivity |].
      split; [subst c1; apply interceptor_url |].
      intros H401. destruct (settle_401 _ _ H401) as (d & _ & Hs). congruence.
  - (* rejected without a retry *)
    split; [| split].
    + unfold count; simpl.
      destruct (is_refresh (c1, res1)), (is_resend (c1, res1)); simpl; lia.
    + intros x Hx _ H401. apply list_elem_of_singleton in Hx. subst x.
      destruct (settle_401 _ _ H401) as (d & Hd & Hs).
      split; [reflexivity |]. exists d. split; [exact Hd |].
      simpl. rewrite Hs in Hs1. congruence.
    + intros _. exists c1, res1. split; [reflexivity |].
      split; [subst c1; apply interceptor_url |].
      intros H401. destruct (settle_401 _ _ H401) as (d & Hd & Hs).
      exists d. split; [exact Hd |]. simpl. rewrite Hs in Hs1. congruence.
  - (* the refresh failed: no resend *)
    assert (Hr1 : is_resend (c1, res1) = false).
    { unfold is_resend; simpl. subst c1. rewrite interceptor_retry. exact Hretry. }
    assert (Hr2 : is_resend (rc, res2) = false).
    { unfold is_resend; simpl. subst rc. apply interceptor_retry. }
    assert (Hf1 : is_refresh (c1, res1) = false).
    { unfold is_refresh; simpl. subst c1. rewrite interceptor_url.
      apply not_auth_not_refresh, Hauth. }
    split; [| split].
    + unfold count; simpl. rewrite Hr1, Hr2, Hf1.
      destruct (is_refresh (rc, res2)); simpl; lia.
    + intros x Hx Hres _.
      apply elem_of_cons in Hx as [-> | Hx]; [congruence |].
      apply list_elem_of_singleton in Hx. subst x. congruence.
    + intros Ha. congruence.
  - (* refreshed and resent once *)
    assert (Hr1 : is_resend (c1, res1) = false).
    { unfold is_resend; simpl. subst c1. rewrite interceptor_retry. exact Hretry. }
    assert (Hr2 : is_resend (rc, res2) = false).
    { unfold is_resend; simpl. subst rc. apply interceptor_retry. }
    assert (Hf1 : is_refresh (c1, res1) = false).
    { unfold is_refresh; simpl. subst c1. rewrite interceptor_url.
      apply not_auth_not_refresh, Hauth. }
    assert (Hf3 : is_refresh (c3, res3) = false).
    { unfold is_refresh; simpl. subst c3 c1. rewrite interceptor_url. simpl.
      rewrite interceptor_url. apply not_auth_not_refresh, Hauth. }
    split; [| split].
    + unfold count; simpl. rewrite Hr1, Hr2, Hf1, Hf3.
      destruct (is_refresh (rc, res2)), (is_resend (c3, res3)); simpl; lia.
    + intros x Hx Hres H401'.
      apply elem_of_cons in Hx as [-> | Hx].
      * split; [reflexivity |].
        destruct (settle_401 _ _ H401') as (d & Hd & Hs).
        exists d. split; [exact Hd |]. simpl. rewrite Hs. reflexivity.
      * apply elem_of_cons in Hx as [-> | Hx]; [congruence |].
        apply list_elem_of_singleton in Hx. subst x. congruence.
    + intros Ha. congruence.
Qed.

(** The refresh succeeds but the backend rejects the resend as well; and
    a login call that draws a 401. *)
Lemma retry_at_most_once_witness :
  is_rejected (run Scenario.refusing (Api.api Scenario.summary) Scenario.working).1
  = true /\
  is_rejected
    (run Scenario.expired (Api.api (Api.post_config "/auth/login" ∅))
         Scenario.visitor).1
  = true.
Proof.
  destruct (retry_at_most_once Scenario.refusing Scenario.summary Scenario.working)
    as (_ & Hsecond & _).
  destruct (retry_at_most_once Scenario.expired (Api.post_config "/auth/login" ∅)
              Scenario.visitor) as (_ & _ & Hlogin).
  split.
  - destruct (Hsecond
                (Request "get" "/results/summary?upload_id=X" ∅
                         (Some "Bearer fresh") true, Reply 401 ∅))
      as (_ & d & _ & Hr).
    + vm_compute. apply list_elem_of_here.
    + reflexivity.
    + reflexivity.
    + rewrite Hr. reflexivity.
  - destruct Hlogin as (c1 & res1 & Hsent & _ & H401); [reflexivity |].
    destruct H401 as (d & _ & Hr).
    + assert (Hx : (c1, res1) = (Api.post_config "/auth/login" ∅, Reply 401 ∅)).
      { assert (Hl : [(c1, res1)] = [(Api.post_config "/auth/login" ∅, Reply 401 ∅)])
          by (rewrite <- Hsent; vm_compute; reflexivity).
        inversion Hl. reflexivity. }
      rewrite Hx. reflexivity.
    + rewrite Hr. reflexivity.
Defined.


(** ** Concurrent requests *)

Section Pool.

Variable server : backend.

Lemma settle_fulfilled (c : request) (res : netresult) (r : Http.response) :
  Api.settle c res = inl r -> replied_401 (c, res) = false.
Proof.
  unfold Api.settle, replied_401; simpl. destruct res as [st d |]; [| discriminate].
  destruct ((200 <=? st)%Z && (st <? 300)%Z) eqn:H; [| discriminate].
  intros _. apply andb_prop in H as [_ H]. apply Z.ltb_lt in H.
  apply Z.eqb_neq. lia.
Qed.

Lemma settle_rejected (c : request) (res : netresult) (resp : option Http.response) :
  Api.settle c res = inr (AxiosError c resp) ->
  Api.is_401 resp = replied_401 (c, res).
Proof.
  unfold Api.settle, replied_401; simpl. destruct res as [st d |].
  - destruct ((200 <=? st)%Z && (st <? 300)%Z); intros H; inversion H. reflexivity.
  - intros H; inversion H. reflexivity.
Qed.

(** [resume] on the program of a phase is [advance] on the phase. *)
Lemma resume_prog_of (ph : phase) (w : world) :
  well_formed ph ->
  resume server (prog_of ph) w =
  ((prog_of (advance server ph w).1), (advance server ph w).2).
Proof.
  destruct ph as [c | c res | oR rc res | c res | e]; intros Hwf.
  - reflexivity.
  - destruct Hwf as [Hretry Hauth].
    cbn [prog_of advance]. unfold owes_refresh, is_first_attempt. cbn [fst snd].
    rewrite Hretry, Hauth. cbn [negb andb]. unfold received at 1.
    destruct (Api.settle c res) as [r | err] eqn:Hs.
    + rewrite (settle_fulfilled _ _ _ Hs). cbn [fst snd prog_of]. unfold received.
      rewrite Hs. reflexivity.
    + destruct (settle_error _ _ _ Hs) as [resp ->].
      rewrite <- (settle_rejected _ _ _ Hs).
      unfold Api.onRejected. rewrite Hretry, Hauth. cbn [negb].
      destruct (Api.is_401 resp) eqn:H401; cbn [andb fst snd prog_of].
      * reflexivity.
      * unfold received. rewrite Hs. unfold Api.onRejected.
        rewrite H401. reflexivity.
  - destruct Hwf as (Hretry & Hauth & Hurl & Hrc).
    cbn [prog_of advance]. unfold received at 1.
    destruct (Api.settle rc res) as [r | err] eqn:Hs.
    + reflexivity.
    + destruct (settle_error _ _ _ Hs) as [resp ->].
      unfold Api.onRejected. rewrite Hrc, Hurl.
      destruct (Api.is_401 resp); reflexivity.
  - destruct Hwf as [Hretry Hauth].
    cbn [prog_of advance fst snd]. unfold received.
    destruct (Api.settle c res) as [r | err] eqn:Hs; [reflexivity |].
    destruct (settle_error _ _ _ Hs) as [resp ->].
    unfold Api.onRejected. rewrite Hretry, andb_false_r. reflexivity.
  - reflexivity.
Qed.

Lemma advance_well_formed (ph : phase) (w : world) :
  well_formed ph -> well_formed (advance server ph w).1.
Proof.
  destruct ph as [c | c res | oR rc res | c res | e]; intros Hwf; cbn [advance].
  - destruct Hwf as [Hretry Hauth]. cbn.
    rewrite interceptor_retry, interceptor_url. auto.
  - destruct (owes_refresh (c, res)); [| exact Hwf].
    destruct Hwf as [Hretry Hauth]. cbn.
    rewrite interceptor_retry, interceptor_url. auto.
  - destruct Hwf as (Hretry & Hauth & Hurl & Hrc).
    destruct (Api.settle rc res); cbn; [| exact I].
    rewrite interceptor_retry, interceptor_url. auto.
  - exact Hwf.
  - exact Hwf.
Qed.

Lemma count_app {A : Type} (f : A -> bool) (l k : list A) :
  count f (l ++ k)%list = (count f l + count f k)%nat.
Proof. unfold count. rewrite List.filter_app, length_app. reflexivity. Qed.

(** The bookkeeping of one turn: what went out on the wire against what
    the request still has to send. *)
Lemma advance_account (ph : phase) (w : world) :
  well_formed ph ->
  exists delta,
    wire (advance server ph w).2 = (delta ++ wire w)%list /\
    (count is_first_attempt delta + unsent (advance server ph w).1
     = unsent ph)%nat /\
    (count owes_refresh delta + refresh_due ph
     = count is_refresh delta + refresh_due (advance server ph w).1)%nat /\
    (count is_fulfilled_refresh delta + resend_due ph
     = count is_resend delta + resend_due (advance server ph w).1)%nat.
Proof.
  destruct ph as [c | c res | oR rc res | c res | e]; intros Hwf; cbn [advance].
  - destruct Hwf as [Hretry Hauth].
    set (c1 := Api.request_interceptor (_accessToken w) c).
    set (res1 := server (wire w) c1).
    assert (Hr1 : _retry c1 = false) by (subst c1; rewrite interceptor_retry; exact Hretry).
    assert (Hu1 : Api.is_auth_url (url c1) = false)
      by (subst c1; rewrite interceptor_url; exact Hauth).
    exists [(c1, res1)]. split; [reflexivity |].
    cbn [fst snd unsent refresh_due resend_due].
    unfold count, owes_refresh, is_first_attempt, is_refresh, is_fulfilled_refresh,
      is_refresh, is_resend.
    cbn [List.filter fst snd].
    rewrite Hr1, Hu1, (not_auth_not_refresh _ Hu1). cbn [negb andb].
    destruct (replied_401 (c1, res1)); cbn; auto.
  - destruct (owes_refresh (c, res)) eqn:Howes.
    + set (rc := Api.request_interceptor (_accessToken w)
                   (Api.post_config "/auth/refresh" ∅)).
      set (res2 := server (wire w) rc).
      assert (Hr : _retry rc = false) by (subst rc; apply interceptor_retry).
      assert (Hu : url rc = "/auth/refresh") by (subst rc; apply interceptor_url).
      exists [(rc, res2)]. split; [reflexivity |].
      cbn [fst snd unsent refresh_due resend_due]. rewrite Howes.
      unfold count, owes_refresh, is_first_attempt, is_refresh, is_fulfilled_refresh,
        is_refresh, is_resend.
      cbn [List.filter fst snd].
      rewrite Hr, Hu. cbn [negb andb].
      change (Api.is_auth_url "/auth/refresh") with true. cbn [negb andb].
      change ("/auth/refresh" =? "/auth/refresh") with true. cbn [andb].
      destruct (fulfilled (rc, res2)); cbn; auto.
    + exists []. split; [reflexivity |]. cbn. rewrite Howes. auto.
  - destruct Hwf as (Hretry & Hauth & Hurl & Hrc).
    unfold resend_due at 1. unfold fulfilled at 1. cbn [fst snd].
    destruct (Api.settle rc res) as [r | err].
    + set (tok := JS.field (Http.data r) "access_token").
      set (c3 := Api.request_interceptor tok _).
      set (res3 := server (wire w) c3).
      assert (Hr3 : _retry c3 = true) by (subst c3; rewrite interceptor_retry; exact Hretry).
      assert (Hu3 : Api.is_auth_url (url c3) = false)
        by (subst c3; rewrite interceptor_url; exact Hauth).
      exists [(c3, res3)]. split; [reflexivity |].
      cbn [fst snd unsent refresh_due resend_due].
      unfold count, owes_refresh, is_first_attempt, is_refresh, is_fulfilled_refresh,
        is_refresh, is_resend.
      cbn [List.filter fst snd].
      rewrite Hr3, (not_auth_not_refresh _ Hu3). cbn. auto.
    + exists []. split; [reflexivity |]. cbn. auto.
  - exists []. split; [reflexivity |]. cbn. auto.
  - exists []. split; [reflexivity |]. cbn. auto.
Qed.

(** A settled request has nothing left to send. *)
Lemma settled_nothing_due (ph : phase) :
  well_formed ph ->
  settled (prog_of ph) = true ->
  unsent ph = 0%nat /\ refresh_due ph = 0%nat /\ resend_due ph = 0%nat.
Proof.
  destruct ph as [c | c res | oR rc res | c res | e]; intros Hwf Hs.
  - discriminate Hs.
  - cbn [unsent refresh_due resend_due].
    destruct (owes_refresh (c, res)) eqn:Howes; [| auto].
    exfalso. destruct Hwf as [Hretry Hauth].
    unfold owes_refresh in Howes. apply andb_prop in Howes as [_ H401].
    destruct (settle_401 _ _ H401) as (d & _ & Hse).
    cbn [prog_of] in Hs. unfold received in Hs. rewrite Hse in Hs.
    unfold Api.onRejected in Hs. rewrite Hretry, Hauth in Hs. discriminate Hs.
  - exfalso. destruct Hwf as (Hretry & Hauth & Hurl & Hrc).
    cbn [prog_of] in Hs. unfold received in Hs.
    destruct (Api.settle rc res) as [r | err] eqn:Hse; [discriminate Hs |].
    destruct (settle_error _ _ _ Hse) as [resp ->].
    unfold Api.onRejected in Hs. rewrite Hrc, Hurl in Hs.
    destruct (Api.is_401 resp); discriminate Hs.
  - auto.
  - auto.
Qed.

Lemma total_insert {A : Type} (f : A -> nat) (l : list A) (i : nat) (x y : A) :
  l !! i = Some x ->
  (total f (<[i := y]> l) + f x = total f l + f y)%nat.
Proof.
  unfold total. revert i. induction l as [| a l IH]; intros i Hi; [discriminate |].
  destruct i as [| i]; simpl in *.
  - inversion Hi; subst. lia.
  - specialize (IH i Hi). lia.
Qed.

Lemma total_zero {A : Type} (f : A -> nat) (l : list A) :
  Forall (fun x => f x = 0%nat) l -> total f l = 0%nat.
Proof. unfold total. induction 1 as [| x l Hx _ IH]; cbn; [reflexivity | lia]. Qed.

Lemma turn_balanced (n : nat) (w0 : world) (i : nat) (phases : list phase)
    (w : world) :
  balanced n w0 phases w ->
  exists phases' w',
    turn server i (prog_of <$> phases, w) = (prog_of <$> phases', w') /\
    balanced n w0 phases' w'.
Proof.
  intros (Hwf & sent & Hwire & H1 & H2 & H3). unfold turn. cbn [fst snd].
  rewrite list_lookup_fmap.
  destruct (phases !! i) as [ph |] eqn:Hi; cbn [fmap option_fmap option_map].
  2:{ exists phases, w. split; [reflexivity |]. split; [exact Hwf |].
      exists sent. auto. }
  assert (Hph : well_formed ph).
  { rewrite Forall_lookup in Hwf. exact (Hwf i ph Hi). }
  rewrite (resume_prog_of ph w Hph).
  exists (<[i := (advance server ph w).1]> phases), (advance server ph w).2.
  split; [rewrite list_fmap_insert; reflexivity |].
  split.
  { apply Forall_insert; [exact Hwf |]. apply advance_well_formed, Hph. }
  destruct (advance_account ph w Hph) as (delta & Hd & A1 & A2 & A3).
  exists (delta ++ sent)%list. split.
  { rewrite Hd, Hwire, app_assoc. reflexivity. }
  pose proof (total_insert unsent phases i ph (advance server ph w).1 Hi) as T1.
  pose proof (total_insert refresh_due phases i ph (advance server ph w).1 Hi) as T2.
  pose proof (total_insert resend_due phases i ph (advance server ph w).1 Hi) as T3.
  rewrite !count_app. repeat split; lia.
Qed.

Lemma interleave_balanced (n : nat) (w0 : world) (schedule : list nat)
    (phases : list phase) (w : world) :
  balanced n w0 phases w ->
  exists phases' w',
    interleave server schedule (prog_of <$> phases, w) = (prog_of <$> phases', w') /\
    balanced n w0 phases' w'.
Proof.
  revert phases w. induction schedule as [| i schedule IH]; intros phases w Hb.
  - exists phases, w. split; [reflexivity | exact Hb].
  - destruct (turn_balanced n w0 i phases w Hb) as (phases1 & w1 & Ht & Hb1).
    destruct (IH phases1 w1 Hb1) as (phases' & w' & Hi & Hb').
    exists phases', w'. split; [| exact Hb'].
    unfold interleave in *. cbn [foldl]. rewrite Ht. exact Hi.
Qed.

Lemma settled_pool (phases : list phase) :
  Forall well_formed phases ->
  forallb settled (prog_of <$> phases) = true ->
  total unsent phases = 0%nat /\ total refresh_due phases = 0%nat /\
  total resend_due phases = 0%nat.
Proof.
  induction 1 as [| ph phases Hph _ IH]; [intros _; auto |].
  rewrite fmap_cons. cbn [forallb]. intros Hs.
  apply andb_prop in Hs as [Hs Hrest].
  destruct (settled_nothing_due ph Hph Hs) as (H1 & H2 & H3).
  destruct (IH Hrest) as (I1 & I2 & I3).
  unfold total in *. cbn [foldr]. lia.
Qed.

Lemma total_unsent (requests : list request) :
  total unsent (Unsent <$> requests) = List.length requests /\
  total refresh_due (Unsent <$> requests) = 0%nat /\
  total resend_due (Unsent <$> requests) = 0%nat.
Proof.
  unfold total. induction requests as [| c requests (I1 & I2 & I3)]; [auto |].
  rewrite fmap_cons. cbn [foldr List.length unsent refresh_due resend_due]. lia.
Qed.

Lemma all_unauthorized (l : list (request * netresult)) :
  forallb (fun x => implb (is_first_attempt x) (replied_401 x)) l = true ->
  count owes_refresh l = count is_first_attempt l.
Proof.
  unfold count, owes_refresh. induction l as [| x l IH]; [reflexivity |].
  cbn [forallb List.filter]. intros H. apply andb_prop in H as [Hx Hl].
  specialize (IH Hl).
  destruct (is_first_attempt x); cbn [andb implb] in *.
  - rewrite Hx. cbn [List.length]. lia.
  - exact IH.
Qed.

End Pool.

(** ** Session lifecycle *)

Section Session.

Variable server : backend.

Lemma gateway_frame (c : request) (w : world) :
  let w' := (gateway server c w).2 in
  console w' = console w /\ auth w' = auth w /\ upload w' = upload w /\
  timers w' = timers w /\ next_timer w' = next_timer w /\
  poller w' = poller w /\ onUploadComplete w' = onUploadComplete w /\
  completions w' = completions w.
Proof.
  destruct (gateway_cases server c w) as [sent H].
  exact (gateway_case_frame server c w _ sent H).
Qed.

Lemma run_SafetyAPI_logout (w : world) :
  run server Api.SafetyAPI.logout w =
  match gateway server (Api.post_config "/auth/logout" ∅) w with
  | (inl _, w1) => (inl tt, with_token JS.null w1)
  | (inr e, w1) => (inr e, w1)
  end.
Proof.
  unfold Api.SafetyAPI.logout, Api.post. rewrite run_mbind, run_api.
  destruct (gateway server _ w) as [[r | e] w1]; reflexivity.
Qed.

Lemma run_SafetyAPI_refreshToken (w : world) :
  run server Api.SafetyAPI.refreshToken w =
  match gateway server (Api.post_config "/auth/refresh" ∅) w with
  | (inl response, w1) =>
      (inl (Http.data response),
       if JS.truthy (JS.field (Http.data response) "access_token")
       then with_token (JS.field (Http.data response) "access_token") w1
       else w1)
  | (inr e, w1) => (inr e, w1)
  end.
Proof.
  unfold Api.SafetyAPI.refreshToken, Api.post. rewrite run_mbind, run_api.
  destruct (gateway server _ w) as [[r | e] w1]; [| reflexivity].
  rewrite run_mbind. destruct (JS.truthy _); reflexivity.
Qed.

Lemma run_SafetyAPI_getMe (w : world) :
  run server Api.SafetyAPI.getMe w =
  match gateway server (Api.get_config "/auth/me") w with
  | (inl response, w1) => (inl (Http.data response), w1)
  | (inr e, w1) => (inr e, w1)
  end.
Proof.
  unfold Api.SafetyAPI.getMe, Api.get. rewrite run_mbind, run_api.
  destruct (gateway server _ w) as [[r | e] w1]; reflexivity.
Qed.

Lemma run_SafetyAPI_login (email password : string) (w : world) :
  run server (Api.SafetyAPI.login email password) w =
  match gateway server
          (Api.post_config "/auth/login"
             (<["email" := JS.str email]> (<["password" := JS.str password]> ∅)))
          w with
  | (inl response, w1) => (inl (Http.data response), w1)
  | (inr e, w1) => (inr e, w1)
  end.
Proof.
  unfold Api.SafetyAPI.login, Api.post. rewrite run_mbind, run_api.
  destruct (gateway server _ w) as [[r | e] w1]; reflexivity.
Qed.

Lemma run_SafetyAPI_getStatus (videoId : JS.value) (w : world) :
  run server (Api.SafetyAPI.getStatus videoId) w =
  match gateway server
          (Api.get_config ("/videos/" ++ JS.template videoId ++ "/status")) w with
  | (inl response, w1) => (inl (Http.data response), w1)
  | (inr e, w1) => (inr e, w1)
  end.
Proof.
  unfold Api.SafetyAPI.getStatus, Api.get. rewrite run_mbind, run_api.
  destruct (gateway server _ w) as [[r | e] w1]; reflexivity.
Qed.

Lemma same_page_gateway (c : request) (w : world) r w' :
  gateway server c w = (r, w') -> same_page w w'.
Proof.
  intros H. pose proof (gateway_frame c w) as F. rewrite H in F. exact F.
Qed.

Lemma same_page_logout (w : world) r w' :
  run server Api.SafetyAPI.logout w = (r, w') -> same_page w w'.
Proof.
  rewrite run_SafetyAPI_logout.
  destruct (gateway server _ w) as [[x | e] w1] eqn:G; intros H; inversion H; subst;
    apply same_page_gateway in G; exact G.
Qed.

Lemma same_page_refreshToken (w : world) r w' :
  run server Api.SafetyAPI.refreshToken w = (r, w') -> same_page w w'.
Proof.
  rewrite run_SafetyAPI_refreshToken.
  destruct (gateway server _ w) as [[x | e] w1] eqn:G; intros H; inversion H; subst;
    apply same_page_gateway in G; [| exact G].
  destruct (JS.truthy _); exact G.
Qed.

Lemma same_page_getMe (w : world) r w' :
  run server Api.SafetyAPI.getMe w = (r, w') -> same_page w w'.
Proof.
  rewrite run_SafetyAPI_getMe.
  destruct (gateway server _ w) as [[x | e] w1] eqn:G; intros H; inversion H; subst;
    apply same_page_gateway in G; exact G.
Qed.

Lemma same_page_login (email password : string) (w : world) r w' :
  run server (Api.SafetyAPI.login email password) w = (r, w') -> same_page w w'.
Proof.
  rewrite run_SafetyAPI_login.
  destruct (gateway server _ w) as [[x | e] w1] eqn:G; intros H; inversion H; subst;
    apply same_page_gateway in G; exact G.
Qed.

Lemma same_page_getStatus (videoId : JS.value) (w : world) r w' :
  run server (Api.SafetyAPI.getStatus videoId) w = (r, w') -> same_page w w'.
Proof.
  rewrite run_SafetyAPI_getStatus.
  destruct (gateway server _ w) as [[x | e] w1] eqn:G; intros H; inversion H; subst;
    apply same_page_gateway in G; exact G.
Qed.

(** C6. Every execution of [logout] resolves (it never rejects) with
    the access token cleared, the cached user absent and
    [isAuthenticated] false, whether the logout call succeeded or not;
    when the call fails, the failure is written to the console as a
    warning and nothing else happens to it. *)
Theorem logout_always_ends_session (w : world) :
  let r := run server Auth.logout w in
  r.1 = inl tt /\
  _accessToken r.2 = JS.null /\
  user (auth r.2) = None /\
  isAuthenticated (auth r.2) = Some false /\
  (forall e w1, run server Api.SafetyAPI.logout w = (inr e, w1) ->
     console r.2 = ("warn", "Logout API call failed") :: console w).
Proof.
  intros r. subst r. unfold Auth.logout.
  rewrite run_mbind, run_try_catch.
  destruct (run server Api.SafetyAPI.logout w) as [[[] | e] w1] eqn:H.
  - simpl. repeat split. intros e w2 Heq. discriminate.
  - simpl. repeat split. intros e' w2 Heq. inversion Heq; subst.
    apply same_page_logout in H. destruct H as [Hc _]. rewrite Hc. reflexivity.
Qed.

End Session.

(** The user signs out while the network is down. *)
Lemma logout_always_ends_session_witness :
  let r := run Scenario.offline Auth.logout Scenario.working in
  r.1 = inl tt /\
  _accessToken r.2 = JS.null /\
  isAuthenticated (auth r.2) = Some false /\
  console r.2 = [("warn", "Logout API call failed")].
Proof.
  destruct (logout_always_ends_session Scenario.offline Scenario.working)
    as (H1 & H2 & _ & H4 & H5).
  split; [exact H1 |]. split; [exact H2 |]. split; [exact H4 |].
  eapply H5. vm_compute. reflexivity.
Defined.

(** From here on the wrappers are reasoned about through the lemmas
    above, not by unfolding. *)
Opaque Api.api Api.post Api.get.
Opaque Api.SafetyAPI.login Api.SafetyAPI.signup Api.SafetyAPI.logout.
Opaque Api.SafetyAPI.refreshToken Api.SafetyAPI.getMe Api.SafetyAPI.getStatus.

(** C7. [initAuth] (the bootstrap) always resolves, with [loading]
    false.  When the initial refresh fails, or the refresh succeeds and
    the profile fetch fails, it ends with [isAuthenticated] false, the
    user absent and the access token cleared; nothing is thrown, the only
    trace being one [console.debug] line.  When both succeed it ends with
    [isAuthenticated] true and the fetched profile stored. *)
Theorem bootstrap_settles (server : backend) (w : world) :
  let r := run server Auth.initAuth w in
  let unauthenticated :=
    isAuthenticated (auth r.2) = Some false /\ user (auth r.2) = None /\
    _accessToken r.2 = JS.null /\
    console r.2 =
      ("debug", "Session restoration failed (Normal if new user):") :: console w in
  r.1 = inl tt /\
  loading (auth r.2) = false /\
  (forall e w1,
     run server Api.SafetyAPI.refreshToken w = (inr e, w1) -> unauthenticated) /\
  (forall d w1 e w2,
     run server Api.SafetyAPI.refreshToken w = (inl d, w1) ->
     run server Api.SafetyAPI.getMe w1 = (inr e, w2) -> unauthenticated) /\
  (forall d w1 userData w2,
     run server Api.SafetyAPI.refreshToken w = (inl d, w1) ->
     run server Api.SafetyAPI.getMe w1 = (inl userData, w2) ->
     isAuthenticated (auth r.2) = Some true /\ user (auth r.2) = Some userData).
Proof.
  intros r unauthenticated. subst r unauthenticated. unfold Auth.initAuth.
  rewrite run_try_finally, run_try_catch, run_mbind.
  destruct (run server Api.SafetyAPI.refreshToken w) as [[d | e] w1] eqn:Hr.
  - rewrite run_mbind.
    destruct (run server Api.SafetyAPI.getMe w1) as [[userData | e] w2] eqn:Hm.
    + simpl. split; [reflexivity |]. split; [reflexivity |].
      split; [intros; discriminate |]. split.
      * intros d' w1' e' w2' H1 H2. inversion H1; subst.
        rewrite Hm in H2. discriminate.
      * intros d' w1' userData' w2' H1 H2. inversion H1; subst.
        rewrite Hm in H2. inversion H2; subst. split; reflexivity.
    + pose proof (same_page_refreshToken server _ _ _ Hr) as [Hc1 _].
      pose proof (same_page_getMe server _ _ _ Hm) as [Hc2 _].
      simpl. rewrite Hc2, Hc1.
      split; [reflexivity |]. split; [reflexivity |].
      split; [intros; discriminate |]. split.
      * intros; repeat split; reflexivity.
      * intros d' w1' userData' w2' H1 H2. inversion H1; subst.
        rewrite Hm in H2. discriminate.
  - apply same_page_refreshToken in Hr. destruct Hr as [Hc1 _].
    simpl. rewrite Hc1.
    split; [reflexivity |]. split; [reflexivity |].
    split; [intros; repeat split; reflexivity |].
    split; intros; discriminate.
Qed.

(** A first visit (no refresh cookie: the refresh draws a 401), and a
    return visit on which the refresh and the profile fetch succeed. *)
Lemma bootstrap_settles_witness :
  (let r := run Scenario.expired Auth.initAuth Scenario.visitor in
   r.1 = inl tt /\ loading (auth r.2) = false /\
   isAuthenticated (auth r.2) = Some false /\ user (auth r.2) = None /\
   _accessToken r.2 = JS.null) /\
  (let r := run Scenario.rotating Auth.initAuth Scenario.visitor in
   loading (auth r.2) = false /\
   isAuthenticated (auth r.2) = Some true /\ user (auth r.2) = Some ∅).
Proof.
  split.
  - destruct (bootstrap_settles Scenario.expired Scenario.visitor)
      as (H1 & H2 & Hfail & _ & _).
    destruct (Hfail (AxiosError (Api.post_config "/auth/refresh" ∅)
                       (Some (Http.Response 401 ∅)))
                    (with_wire [(Api.post_config "/auth/refresh" ∅, Reply 401 ∅)]
                       Scenario.visitor))
      as (H3 & H4 & H5 & _); [vm_compute; reflexivity |].
    split; [exact H1 |]. split; [exact H2 |]. split; [exact H3 |].
    split; [exact H4 | exact H5].
  - destruct (bootstrap_settles Scenario.rotating Scenario.visitor)
      as (_ & H2 & _ & _ & Hok).
    edestruct Hok as (H3 & H4); [vm_compute; reflexivity | vm_compute; reflexivity |].
    split; [exact H2 |]. split; [exact H3 | exact H4].
Defined.



(** If the gateway's own refresh fails, the call rejects and the token
    is cleared; nothing else on the page changes. *)
Lemma gateway_refresh_failed (server : backend) (c : request) (w : world) :
  let r := gateway server c w in
  Api.is_auth_url (url c) = false ->
  refresh_failed (sent_during w r.2) = true ->
  _accessToken r.2 = JS.null /\ is_rejected r.1 = true /\ same_page w r.2.
Proof.
  intros r Hauth Hx. subst r.
  apply existsb_exists in Hx as (x & Hx & Hfx).
  apply list_elem_of_In in Hx.
  apply andb_prop in Hfx as [Hfx Hnx]. apply negb_true_iff in Hnx.
  pose proof (gateway_frame server c w) as Hframe.
  destruct (gateway_cases server c w) as [sent Hc].
  rewrite (sent_during_app sent) in Hx by (eapply gateway_case_wire; eauto).
  destruct Hc as [c1 res1 r1 Hc1 Hres1 Hs1
                 | c1 res1 resp Hc1 Hres1 Hs1 Hel
                 | c1 res1 resp rc res2 e2 Hc1 Hres1 Hs1 H401 Hretry Hauth' Hrc Hres2 Hs2
                 | c1 res1 resp rc res2 r2 c3 res3 Hc1 Hres1 Hs1 H401 Hretry Hauth' Hrc Hres2 Hs2 Hc3 Hres3 ].
  - apply list_elem_of_singleton in Hx. subst x.
    unfold is_refresh in Hfx; simpl in Hfx. subst c1. rewrite interceptor_url in Hfx.
    rewrite (not_auth_not_refresh _ Hauth) in Hfx. discriminate.
  - apply list_elem_of_singleton in Hx. subst x.
    unfold is_refresh in Hfx; simpl in Hfx. subst c1. rewrite interceptor_url in Hfx.
    rewrite (not_auth_not_refresh _ Hauth) in Hfx. discriminate.
  - split; [reflexivity |]. split; [reflexivity |]. exact Hframe.
  - exfalso.
    apply elem_of_cons in Hx as [-> | Hx].
    { unfold is_refresh in Hfx; simpl in Hfx. subst c3 c1.
      rewrite interceptor_url in Hfx. simpl in Hfx. rewrite interceptor_url in Hfx.
      rewrite (not_auth_not_refresh _ Hauth) in Hfx. discriminate. }
    apply elem_of_cons in Hx as [-> | Hx].
    { unfold fulfilled in Hnx; simpl in Hnx. rewrite Hs2 in Hnx. discriminate. }
    apply list_elem_of_singleton in Hx. subst x.
    unfold is_refresh in Hfx; simpl in Hfx. subst c1. rewrite interceptor_url in Hfx.
    rewrite (not_auth_not_refresh _ Hauth) in Hfx. discriminate.
Qed.

Lemma interceptor_null (c : request) : Api.request_interceptor JS.null c = c.
Proof. reflexivity. Qed.

(** C2 as stated does not hold.  The stale token of a signed-in user is
    rejected while the job is polled, and so is the refresh: the token is
    cleared, but [isAuthenticated] is still [true] after the tick. *)
Lemma refresh_failure_keeps_session :
  let w' := Upload.fire Scenario.expired Scenario.working in
  refresh_failed (sent_during Scenario.working w') = true /\
  _accessToken w' = JS.null /\
  isAuthenticated (auth Scenario.working) = Some true /\
  isAuthenticated (auth w') = Some true /\
  isAuthenticated (auth w') <> Some false.
Proof. vm_compute. repeat split; discriminate. Qed.

(** C2, amended.  Whenever the refresh fails the access token becomes
    absent, so that the request interceptor attaches no bearer header to
    any later request.  When the refresh is the one the gateway makes
    after a 401, the call rejects and the page state, [isAuthenticated]
    included, is left as it was; when it is the refresh of the bootstrap,
    [isAuthenticated] becomes false. *)
Theorem refresh_failure_clears_token (server : backend) (w : world) :
  (forall c,
     let r := run server (Api.api c) w in
     Api.is_auth_url (url c) = false ->
     refresh_failed (sent_during w r.2) = true ->
     _accessToken r.2 = JS.null /\
     is_rejected r.1 = true /\
     auth r.2 = auth w /\
     forall c', Api.request_interceptor (_accessToken r.2) c' = c') /\
  (forall e w1,
     let r := run server Auth.initAuth w in
     run server Api.SafetyAPI.refreshToken w = (inr e, w1) ->
     _accessToken r.2 = JS.null /\
     isAuthenticated (auth r.2) = Some false /\
     forall c', Api.request_interceptor (_accessToken r.2) c' = c').
Proof.
  split.
  - intros c r Hauth Hfail. subst r. rewrite run_api in *.
    destruct (gateway_refresh_failed server c w Hauth Hfail) as (Ht & Hr & Hp).
    split; [exact Ht |]. split; [exact Hr |]. split; [apply Hp |].
    intros c'. rewrite Ht. reflexivity.
  - intros e w1 r Hr. subst r. unfold Auth.initAuth.
    rewrite run_try_finally, run_try_catch, run_mbind, Hr. simpl.
    split; [reflexivity |]. split; [reflexivity |]. intros c'. reflexivity.
Qed.

(** A page of a visitor for whom the session is gone: the refresh of the
    bootstrap fails, and a later request draws a 401 and a failed refresh. *)
Lemma refresh_failure_clears_token_witness :
  _accessToken (run Scenario.expired (Api.api Scenario.summary) Scenario.working).2
  = JS.null /\
  isAuthenticated (auth (run Scenario.expired Auth.initAuth Scenario.working).2)
  = Some false.
Proof.
  destruct (refresh_failure_clears_token Scenario.expired Scenario.working)
    as [Hgw Hboot].
  split.
  - apply (Hgw Scenario.summary); vm_compute; reflexivity.
  - eapply Hboot. vm_compute. reflexivity.
Defined.




(** ** File validation *)

Lemma LIMITS_image :
  Upload.LIMITS_get "image"
  = Some (Upload.Own (Upload.Rule 10 ["jpg"; "jpeg"; "png"; "bmp"] "image/")).
Proof. reflexivity. Qed.

Lemma LIMITS_pdf :
  Upload.LIMITS_get "pdf" = Some (Upload.Own (Upload.Rule 50 ["pdf"] "application/pdf")).
Proof. reflexivity. Qed.

Lemma LIMITS_video :
  Upload.LIMITS_get "video"
  = Some (Upload.Own (Upload.Rule 100 ["mp4"; "mov"; "avi"; "mkv"] "video/")).
Proof. reflexivity. Qed.

(** What [validateFiles] returns for one file of a known category. *)
Lemma validateFiles_single (file : File.t) (category : string) :
  category ∈ categories ->
  Upload.validateFiles [file] (JS.str category) =
  inl (if (limit_of category <? File.size file)%Z then
         Some ("File size exceeds "
               ++ Upload.decimal (limit_of category / (1024 * 1024)) ++ "MB limit")
       else if accepts_type category (File.type file) then None
       else if category =? "image" then Some "Invalid image file"
       else if category =? "pdf" then Some "Invalid PDF file"
       else Some "Invalid video file").
Proof.
  intros Hc. unfold categories in Hc.
  apply elem_of_cons in Hc as [-> | Hc]; [| apply elem_of_cons in Hc as [-> | Hc]];
    [| | apply list_elem_of_singleton in Hc; subst category].
  - unfold Upload.validateFiles. cbn [JS.template]. rewrite LIMITS_image.
    cbn -[Z.mul Z.ltb String.eqb]. unfold JS.startsWith.
    change (limit_of "image") with (10 * 1024 * 1024)%Z.
    destruct (10 * 1024 * 1024 <? File.size file)%Z; [reflexivity |].
    cbn -[String.eqb String.prefix].
    change (accepts_type "image" (File.type file))
      with (String.prefix "image/" (File.type file)).
    destruct (String.prefix "image/" (File.type file)); reflexivity.
  - unfold Upload.validateFiles. cbn [JS.template]. rewrite LIMITS_pdf.
    cbn -[Z.mul Z.ltb String.eqb]. unfold JS.startsWith.
    change (limit_of "pdf") with (50 * 1024 * 1024)%Z.
    destruct (50 * 1024 * 1024 <? File.size file)%Z; [reflexivity |].
    cbn -[String.eqb String.prefix].
    change (accepts_type "pdf" (File.type file))
      with (File.type file =? "application/pdf").
    destruct (File.type file =? "application/pdf"); reflexivity.
  - unfold Upload.validateFiles. cbn [JS.template]. rewrite LIMITS_video.
    cbn -[Z.mul Z.ltb String.eqb]. unfold JS.startsWith.
    change (limit_of "video") with (100 * 1024 * 1024)%Z.
    destruct (100 * 1024 * 1024 <? File.size file)%Z; [reflexivity |].
    cbn -[String.eqb String.prefix].
    change (accepts_type "video" (File.type file))
      with (String.prefix "video/" (File.type file)).
    destruct (String.prefix "video/" (File.type file)); reflexivity.
Qed.

Lemma validateFiles_many (f1 f2 : File.t) (rest : list File.t) (category : string) :
  category ∈ categories ->
  Upload.validateFiles (f1 :: f2 :: rest) (JS.str category)
  = inl (Some "Please select only one file").
Proof.
  intros Hc. unfold categories in Hc.
  apply elem_of_cons in Hc as [-> | Hc]; [| apply elem_of_cons in Hc as [-> | Hc]];
    [| | apply list_elem_of_singleton in Hc; subst category];
    unfold Upload.validateFiles; cbn [JS.template].
  - rewrite LIMITS_image. reflexivity.
  - rewrite LIMITS_pdf. reflexivity.
  - rewrite LIMITS_video. reflexivity.
Qed.

(** Every message [validateFiles] returns is a non-empty string, hence
    truthy for the caller's [if (err)]. *)
Lemma validateFiles_message (selected : list File.t) (type : JS.value) (msg : string) :
  Upload.validateFiles selected type = inl (Some msg) ->
  Upload.truthy_message (Some msg) = true.
Proof.
  unfold Upload.validateFiles.
  destruct (Upload.LIMITS_get (JS.template type)) as [rule |];
    [| intros H; inversion H; reflexivity].
  destruct (1 <? List.length selected)%nat; [intros H; inversion H; reflexivity |].
  destruct (selected !! 0%nat) as [file |]; [| discriminate].
  destruct (Upload.exceeds file rule);
    [intros H; inversion H; reflexivity |].
  destruct (_ && _); [intros H; inversion H; reflexivity |].
  destruct (_ && _); [intros H; inversion H; reflexivity |].
  destruct (_ && _); [intros H; inversion H; reflexivity |].
  discriminate.
Qed.

(** [validateFiles] is written for the selections its only caller
    passes: [handleFileSelect] returns before validating an empty
    selection.  Called on the empty list it would throw on reading
    [selected[0].size]. *)
Lemma validateFiles_empty_selection :
  must_reject [] "image" = false /\
  Upload.validateFiles [] (JS.str "image")
  = inr (TypeError "Cannot read properties of undefined (reading 'size')") /\
  Upload.validateFiles [] (JS.str "image") <> inl None.
Proof. vm_compute. repeat split. discriminate. Qed.

(** C4.  For every file list the component validates (a non-empty one:
    [handleFileSelect] returns before validating an empty selection) and
    every category,
    [validateFiles] returns a message exactly when more than one file is
    supplied, or the file is larger than the category's limit (10MB, 50MB,
    100MB), or its declared type does not match the category's prefix or
    exact type, and returns [null] otherwise.  For an image: a size above
    10MB gives the size-limit message, a type without the [image/] prefix
    is rejected, and the file's name plays no part. *)
Theorem validateFiles_rejects_exactly (selected : list File.t) (category : string) :
  category ∈ categories ->
  selected <> [] ->
  (must_reject selected category = true ->
   exists msg, msg <> "" /\
     Upload.validateFiles selected (JS.str category) = inl (Some msg)) /\
  (must_reject selected category = false ->
   Upload.validateFiles selected (JS.str category) = inl None) /\
  (forall file, selected = [file] -> category = "image" ->
     ((10 * 1024 * 1024 < File.size file)%Z ->
      Upload.validateFiles selected (JS.str category)
      = inl (Some "File size exceeds 10MB limit")) /\
     (JS.startsWith (File.type file) "image/" = false ->
      exists msg, msg <> "" /\
        Upload.validateFiles selected (JS.str category) = inl (Some msg)) /\
     (forall name',
        Upload.validateFiles
          [File.make name' (File.size file) (File.type file)] (JS.str category)
        = Upload.validateFiles selected (JS.str category))).
Proof.
  intros Hc Hne.
  assert (Hmsg : forall msg,
             Upload.validateFiles selected (JS.str category) = inl (Some msg) ->
             msg <> "").
  { intros msg H ->. apply validateFiles_message in H. discriminate. }
  destruct selected as [| file [| f2 rest]]; [congruence | |].
  - (* one file *)
    pose proof (validateFiles_single file category Hc) as Hv.
    split; [| split].
    + intros Hrej. unfold must_reject in Hrej. cbn [List.length Nat.ltb Nat.leb orb] in Hrej.
      destruct (limit_of category <? File.size file)%Z eqn:Hsz.
      { eexists. split; [| exact Hv]. apply Hmsg. exact Hv. }
      cbn [orb] in Hrej. apply negb_true_iff in Hrej. rewrite Hrej in Hv.
      destruct (category =? "image"), (category =? "pdf");
        (eexists; split; [| exact Hv]; apply Hmsg; exact Hv).
    + intros Hrej. unfold must_reject in Hrej. cbn [List.length Nat.ltb Nat.leb orb] in Hrej.
      apply orb_false_iff in Hrej as [Hsz Hty]. apply negb_false_iff in Hty.
      rewrite Hsz, Hty in Hv. exact Hv.
    + intros file' Heq ->. inversion Heq; subst file'. clear Heq.
      change (limit_of "image") with (10 * 1024 * 1024)%Z in Hv.
      split; [| split].
      * intros Hsz. apply Z.ltb_lt in Hsz. rewrite Hsz in Hv. exact Hv.
      * intros Hty. unfold JS.startsWith in Hty.
        change (accepts_type "image" (File.type file))
          with (String.prefix "image/" (File.type file)) in Hv.
        rewrite Hty in Hv.
        destruct (10 * 1024 * 1024 <? File.size file)%Z;
          (eexists; split; [| exact Hv]; apply Hmsg; exact Hv).
      * intros name'. rewrite Hv.
        rewrite (validateFiles_single _ "image" Hc). reflexivity.
  - (* several files *)
    pose proof (validateFiles_many file f2 rest category Hc) as Hv.
    split; [| split].
    + intros _. eexists. split; [| exact Hv]. discriminate.
    + intros Hrej. discriminate Hrej.
    + intros file' Heq. discriminate Heq.
Qed.

(** A 12MB PNG offered as an image. *)
Lemma validateFiles_rejects_exactly_witness :
  Upload.validateFiles [File.make "site.png" 12582912 "image/png"] (JS.str "image")
  = inl (Some "File size exceeds 10MB limit").
Proof.
  destruct (validateFiles_rejects_exactly
              [File.make "site.png" 12582912 "image/png"] "image")
    as (_ & _ & H).
  - vm_compute. apply list_elem_of_here.
  - discriminate.
  - destruct (H (File.make "site.png" 12582912 "image/png") eq_refl eq_refl)
      as (Hsize & _ & _).
    apply Hsize. reflexivity.
Defined.

(** C10. When a file selection fails validation, [handleFileSelect] sets
    the error message and nothing else: the stored selection and the rest
    of the page are as before.  When it passes, the error is cleared and
    the new selection replaces the stored one. *)
Theorem handleFileSelect_effect (server : backend) (w : world)
    (selected : list File.t) :
  selected <> [] ->
  let r := run server
             (Upload.handleFileSelect (selectedType (upload w)) selected) w in
  (forall msg,
     Upload.validateFiles selected (selectedType (upload w)) = inl (Some msg) ->
     r = (inl tt, with_upload (with_error (Some msg) (upload w)) w) /\
     files (upload r.2) = files (upload w)) /\
  (Upload.validateFiles selected (selectedType (upload w)) = inl None ->
   r = (inl tt,
        with_upload (with_files selected (with_error None (upload w))) w) /\
   files (upload r.2) = selected /\ error (upload r.2) = None).
Proof.
  intros Hne r. subst r. unfold Upload.handleFileSelect.
  destruct selected as [| file rest]; [congruence |].
  cbn [List.length Nat.eqb].
  split.
  - intros msg Hv. rewrite Hv.
    rewrite (validateFiles_message _ _ _ Hv). split; reflexivity.
  - intros Hv. rewrite Hv. cbn [Upload.truthy_message].
    split; [reflexivity |]. split; reflexivity.
Qed.

(** The signed-in user, with [plan.pdf] selected for the "pdf" category,
    picks a PNG and then another PDF. *)
Lemma handleFileSelect_effect_witness :
  let png := File.make "site.png" 1024 "image/png" in
  let pdf := File.make "other.pdf" 1024 "application/pdf" in
  let rejected :=
    (run Scenario.offline (Upload.handleFileSelect (JS.str "pdf") [png])
         Scenario.working).2 in
  let accepted :=
    (run Scenario.offline (Upload.handleFileSelect (JS.str "pdf") [pdf])
         Scenario.working).2 in
  (files (upload rejected) = [Scenario.plan] /\
   error (upload rejected) = Some "Invalid PDF file") /\
  (files (upload accepted) = [pdf] /\ error (upload accepted) = None).
Proof.
  intros png pdf rejected accepted. split.
  - destruct (handleFileSelect_effect Scenario.offline Scenario.working [png])
      as [Hbad _]; [discriminate |].
    destruct (Hbad "Invalid PDF file") as [Hr Hf]; [vm_compute; reflexivity |].
    split; [exact Hf |].
    change rejected
      with (run Scenario.offline
              (Upload.handleFileSelect (selectedType (upload Scenario.working)) [png])
              Scenario.working).2.
    rewrite Hr. reflexivity.
  - destruct (handleFileSelect_effect Scenario.offline Scenario.working [pdf])
      as [_ Hgood]; [discriminate |].
    destruct Hgood as (_ & Hf & He); [vm_compute; reflexivity |].
    split; [exact Hf | exact He].
Defined.

(** ** Job polling *)

Section Polling.

Variable server : backend.

(** What one run of the interval callback does, by the outcome of the
    status fetch. *)
Lemma run_tick (uploadId : JS.value) (cb : option nat) (interval : nat)
    (w : world) :
  run server (Upload.tick uploadId cb interval) w =
  match run server (Api.SafetyAPI.getStatus uploadId) w with
  | (inr _, w1) =>
      (inl tt, with_console (("error", "Polling error") :: console w1) w1)
  | (inl data, w1) =>
      match JS.field data "status" with
      | JS.str s =>
          let s := JS.toUpperCase s in
          if (s =? "PENDING") || (s =? "PROCESSING") then
            (inl tt, with_upload (with_status "PROCESSING" (upload w1)) w1)
          else if s =? "COMPLETED" then
            (inl tt,
             let w2 := with_timers (delete interval (timers w1))
                         (with_upload (with_status "COMPLETED" (upload w1)) w1) in
             match cb with
             | Some _ => with_completions (uploadId :: completions w2) w2
             | None => w2
             end)
          else if s =? "FAILED" then
            (inl tt,
             with_timers (delete interval (timers w1))
               (with_upload
                  (with_error (Some "Processing failed on server.")
                     (with_status "FAILED" (upload w1))) w1))
          else (inl tt, w1)
      | _ => (inl tt, with_console (("error", "Polling error") :: console w1) w1)
      end
  end.
Proof.
  unfold Upload.tick. rewrite run_try_catch, run_mbind.
  destruct (run server (Api.SafetyAPI.getStatus uploadId) w) as [[data | e] w1];
    [| reflexivity].
  destruct (JS.field data "status") as [| | s]; try reflexivity.
  cbn [Upload.toUpperCase]. rewrite run_mbind. cbn [run].
  destruct ((JS.toUpperCase s =? "PENDING") || (JS.toUpperCase s =? "PROCESSING"));
    [reflexivity |].
  destruct (JS.toUpperCase s =? "COMPLETED"); [destruct cb; reflexivity |].
  destruct (JS.toUpperCase s =? "FAILED"); reflexivity.
Qed.

Lemma with_status_same (u : UploadState) :
  with_status (status u) u = u.
Proof. destruct u; reflexivity. Qed.

Lemma with_upload_same (w : world) : with_upload (upload w) w = w.
Proof. destruct w; reflexivity. Qed.

Lemma recognized_false (s : string) :
  recognized s = false ->
  (s =? "PENDING") || (s =? "PROCESSING") = false /\
  (s =? "COMPLETED") = false /\ (s =? "FAILED") = false.
Proof.
  unfold recognized. intros H.
  apply orb_false_iff in H as [H H4]. apply orb_false_iff in H as [H H3].
  auto.
Qed.

(** A tick that fetches a status the callback has no branch for changes
    nothing but the network log. *)
Lemma fire_unrecognized (w w1 : world) (interval : nat) (period : Z)
    (data : json) (s : string) :
  poller w = Some interval ->
  timers w !! interval = Some period ->
  run server (Api.SafetyAPI.getStatus (uploadId (upload w))) w = (inl data, w1) ->
  JS.field data "status" = JS.str s ->
  recognized (JS.toUpperCase s) = false ->
  Upload.fire server w = w1.
Proof.
  intros Hp Ht Hrun Hfield Hrec. unfold Upload.fire. rewrite Hp, Ht, run_tick, Hrun, Hfield.
  cbv zeta. destruct (recognized_false _ Hrec) as (H1 & H2 & H3).
  rewrite H1, H2, H3. cbn [snd].
  pose proof (same_page_getStatus server _ _ _ _ Hrun) as (_ & _ & Hu & _ & _ & _ & Hcb & _).
  unfold Upload.commit, Upload.deps. rewrite Hu, Hcb.
  rewrite bool_decide_eq_true_2; reflexivity.
Qed.

(** A tick whose fetch throws only writes to the console. *)
Lemma fire_error (w w1 : world) (interval : nat) (period : Z) (e : exn) :
  poller w = Some interval ->
  timers w !! interval = Some period ->
  run server (Api.SafetyAPI.getStatus (uploadId (upload w))) w = (inr e, w1) ->
  Upload.fire server w = with_console (("error", "Polling error") :: console w1) w1.
Proof.
  intros Hp Ht Hrun. unfold Upload.fire. rewrite Hp, Ht, run_tick, Hrun. cbn [snd].
  pose proof (same_page_getStatus server _ _ _ _ Hrun) as (_ & _ & Hu & _ & _ & _ & Hcb & _).
  unfold Upload.commit, Upload.deps. cbn [upload onUploadComplete with_console].
  rewrite Hu, Hcb. rewrite bool_decide_eq_true_2; reflexivity.
Qed.

(** A Pending or Processing tick while the job is Processing changes
    nothing but the network log. *)
Lemma fire_in_progress (w w1 : world) (interval : nat) (period : Z)
    (data : json) (s : string) :
  poller w = Some interval ->
  timers w !! interval = Some period ->
  status (upload w) = "PROCESSING" ->
  run server (Api.SafetyAPI.getStatus (uploadId (upload w))) w = (inl data, w1) ->
  JS.field data "status" = JS.str s ->
  (JS.toUpperCase s =? "PENDING") || (JS.toUpperCase s =? "PROCESSING") = true ->
  Upload.fire server w = w1.
Proof.
  intros Hp Ht Hst Hrun Hfield Hs. unfold Upload.fire.
  rewrite Hp, Ht, run_tick, Hrun, Hfield. cbv zeta. rewrite Hs. cbn [snd].
  pose proof (same_page_getStatus server _ _ _ _ Hrun) as (_ & _ & Hu & _ & _ & _ & Hcb & _).
  assert (Hsame : with_upload (with_status "PROCESSING" (upload w1)) w1 = w1).
  { rewrite <- Hst, <- Hu at 1. rewrite with_status_same. apply with_upload_same. }
  rewrite Hsame. unfold Upload.commit, Upload.deps. rewrite Hu, Hcb.
  rewrite bool_decide_eq_true_2; reflexivity.
Qed.

(** A Failed tick ends the polling: the job is Failed, with the generic
    message, and the component holds no active interval. *)
Lemma fire_failed (w w1 : world) (interval : nat) (period : Z)
    (data : json) (s : string) :
  poller w = Some interval ->
  timers w !! interval = Some period ->
  run server (Api.SafetyAPI.getStatus (uploadId (upload w))) w = (inl data, w1) ->
  JS.field data "status" = JS.str s ->
  JS.toUpperCase s = "FAILED" ->
  let w' := Upload.fire server w in
  status (upload w') = "FAILED" /\
  error (upload w') = Some "Processing failed on server." /\
  Upload.polling w' = None /\
  timers w' = delete interval (timers w).
Proof.
  intros Hp Ht Hrun Hfield Hs w'. subst w'. unfold Upload.fire.
  rewrite Hp, Ht, run_tick, Hrun, Hfield. cbv zeta. rewrite Hs.
  cbn [String.eqb Ascii.eqb Bool.eqb orb andb snd].
  pose proof (same_page_getStatus server _ _ _ _ Hrun)
    as (_ & _ & Hu & Hti & _ & Hpo & Hcb & _).
  unfold Upload.commit. case_bool_decide as Hdeps.
  - unfold Upload.polling. cbn. rewrite Hpo, Hp, Hti, lookup_delete_eq. auto.
  - unfold Upload.cleanup. cbn [poller with_timers with_upload timers].
    rewrite Hpo, Hp. unfold Upload.polling_effect.
    cbn [upload with_timers with_upload uploadId status with_error with_status].
    destruct (negb (JS.truthy (uploadId (upload w1)))); cbn;
      rewrite Hti, delete_delete_eq; auto.
Qed.

(** A Completed tick while the job is not yet Completed does not end
    the polling: the callback clears its interval, but [status] is a
    dependency of the effect, which runs again and, the job not being
    Failed, registers a new interval. *)
Lemma fire_completed (w w1 : world) (interval : nat) (period : Z)
    (data : json) (s : string) :
  poller w = Some interval ->
  timers w !! interval = Some period ->
  JS.truthy (uploadId (upload w)) = true ->
  status (upload w) <> "COMPLETED" ->
  run server (Api.SafetyAPI.getStatus (uploadId (upload w))) w = (inl data, w1) ->
  JS.field data "status" = JS.str s ->
  JS.toUpperCase s = "COMPLETED" ->
  let w' := Upload.fire server w in
  status (upload w') = "COMPLETED" /\
  poller w' = Some (next_timer w) /\
  Upload.polling w' = Some Upload.POLL_INTERVAL.
Proof.
  intros Hp Ht Hid Hst Hrun Hfield Hs w'. subst w'. unfold Upload.fire.
  rewrite Hp, Ht, run_tick, Hrun, Hfield. cbv zeta. rewrite Hs.
  cbn [String.eqb Ascii.eqb Bool.eqb orb andb snd].
  pose proof (same_page_getStatus server _ _ _ _ Hrun)
    as (_ & _ & Hu & Hti & Hnt & Hpo & Hcb & _).
  unfold Upload.commit. rewrite bool_decide_eq_false_2.
  2:{ unfold Upload.deps. intros Heq. apply Hst.
      destruct (onUploadComplete w); cbn in Heq; inversion Heq; congruence. }
  destruct w1 as [tok1 wire1 con1 au1 up1 ti1 nt1 po1 cb1 done1].
  cbn in Hu, Hti, Hnt, Hpo, Hcb. subst up1 ti1 nt1 po1 cb1.
  unfold Upload.cleanup, Upload.polling_effect, Upload.polling.
  destruct (onUploadComplete w); cbn; rewrite Hp; cbn; rewrite Hid; cbn;
    rewrite lookup_insert_eq; auto.
Qed.

End Polling.

Lemma polling_inv (w : world) (period : Z) :
  Upload.polling w = Some period ->
  exists interval, poller w = Some interval /\ timers w !! interval = Some period.
Proof.
  unfold Upload.polling. destruct (poller w) as [interval |]; [| discriminate].
  intros H. exists interval. auto.
Qed.

(** A status fetch that the backend answers at once with a 2xx reply. *)
Lemma getStatus_fulfilled (server : backend) (w : world) (st : Z) (d : json) :
  let c1 := Api.request_interceptor (_accessToken w)
              (Api.get_config (status_url (uploadId (upload w)))) in
  server (wire w) c1 = Reply st d ->
  (200 <=? st)%Z && (st <? 300)%Z = true ->
  run server (Api.SafetyAPI.getStatus (uploadId (upload w))) w
  = (inl d, with_wire ((c1, Reply st d) :: wire w) w).
Proof.
  intros c1 Hs Hst. rewrite run_SafetyAPI_getStatus.
  unfold gateway. fold (status_url (uploadId (upload w))). fold c1.
  cbv zeta. rewrite Hs. cbn [Api.settle]. rewrite Hst. reflexivity.
Qed.

(** C5, at the failing input.  A signed-in user's job ["X"] is
    Processing and polled every 2000 ms; the backend reports "completed".
    The tick sets the job Completed and clears its interval, but the
    component is polling again right after it (a new interval, again of
    2000 ms), and the next tick sends a second status request. *)
Lemma polling_survives_completed_tick :
  let server := Scenario.reporting "completed" in
  let w1 := Upload.fire server Scenario.working in
  let w2 := Upload.fire server w1 in
  (status (upload Scenario.working) = "PROCESSING" /\
   poller Scenario.working = Some 0%nat /\
   Upload.polling Scenario.working = Some 2000%Z) /\
  (status (upload w1) = "COMPLETED" /\
   timers w1 !! 0%nat = None /\
   poller w1 = Some 1%nat /\
   Upload.polling w1 = Some 2000%Z /\
   List.length (wire w1) = 1%nat) /\
  List.length (wire w2) = 2%nat.
Proof. vm_compute. repeat split. Qed.

(** [toUpperCase] is the Unicode one: a status spelt with a dotless i or
    a long s is recognized as Failed, as in the browser. *)
Lemma toUpperCase_beyond_ascii :
  JS.toUpperCase "faıled" = "FAILED" /\ JS.toUpperCase "proceſſing" = "PROCESSING" /\
  recognized (JS.toUpperCase "faıled") = true.
Proof. vm_compute. repeat split. Qed.

(** C8. A tick that fetches a status whose uppercased form is none of
    PENDING, PROCESSING, COMPLETED and FAILED leaves the job (status,
    error, selection) and the timers as they are, and the component keeps
    polling with the same interval; as long as the backend keeps
    answering with such statuses, any number of ticks leaves the job
    unchanged and polling active, each tick sending one more request. *)
Theorem unrecognized_status_keeps_polling (server : backend) (w : world)
    (period : Z) :
  Upload.polling w = Some period ->
  (forall data w1 s,
     run server (Api.SafetyAPI.getStatus (uploadId (upload w))) w = (inl data, w1) ->
     JS.field data "status" = JS.str s ->
     recognized (JS.toUpperCase s) = false ->
     let w' := Upload.fire server w in
     upload w' = upload w /\ Upload.polling w' = Some period /\
     timers w' = timers w /\ completions w' = completions w) /\
  ((forall h c, url c = status_url (uploadId (upload w)) ->
      exists st d s, server h c = Reply st d /\
        (200 <=? st)%Z && (st <? 300)%Z = true /\
        JS.field d "status" = JS.str s /\
        recognized (JS.toUpperCase s) = false) ->
   forall n,
     let w' := Upload.fires server n w in
     upload w' = upload w /\ Upload.polling w' = Some period /\
     List.length (wire w') = (n + List.length (wire w))%nat).
Proof.
  intros Hpoll. split.
  - intros data w1 s Hrun Hfield Hrec w'. subst w'.
    destruct (polling_inv w period Hpoll) as (interval & Hp & Ht).
    rewrite (fire_unrecognized server w w1 interval period data s Hp Ht Hrun Hfield Hrec).
    pose proof (same_page_getStatus server _ _ _ _ Hrun)
      as (_ & _ & Hu & Hti & _ & Hpo & _ & Hdone).
    unfold Upload.polling. rewrite Hu, Hti, Hpo, Hdone, Hp. auto.
  - intros Hserver n. revert w Hpoll Hserver.
    induction n as [| n IH]; intros w Hpoll Hserver; cbn [Upload.fires].
    + auto.
    + destruct (polling_inv w period Hpoll) as (interval & Hp & Ht).
      set (c1 := Api.request_interceptor (_accessToken w)
                   (Api.get_config (status_url (uploadId (upload w))))).
      destruct (Hserver (wire w) c1) as (st & d & s & Hs & Hst & Hfield & Hrec).
      { subst c1. rewrite interceptor_url. reflexivity. }
      pose proof (getStatus_fulfilled server w st d Hs Hst) as Hrun.
      fold c1 in Hrun.
      rewrite (fire_unrecognized server w _ interval period d s Hp Ht Hrun Hfield Hrec).
      set (w1 := with_wire ((c1, Reply st d) :: wire w) w).
      assert (Hpoll1 : Upload.polling w1 = Some period) by exact Hpoll.
      destruct (IH w1 Hpoll1 Hserver) as (Hu & Hpo & Hlen).
      split; [exact Hu |]. split; [exact Hpo |].
      rewrite Hlen. cbn [w1 wire with_wire List.length]. lia.
Qed.

(** The backend reports the status "queued", which the callback has no
    branch for, while job ["X"] is polled. *)
Lemma unrecognized_status_keeps_polling_witness :
  let w' := Upload.fires (Scenario.reporting "queued") 5 Scenario.working in
  status (upload w') = "PROCESSING" /\
  Upload.polling w' = Some 2000%Z /\
  List.length (wire w') = 5%nat.
Proof.
  destruct (unrecognized_status_keeps_polling (Scenario.reporting "queued")
              Scenario.working 2000%Z) as [_ Hmany].
  - vm_compute. reflexivity.
  - destruct (Hmany
                (fun h c _ =>
                   ex_intro _ 200%Z
                     (ex_intro _ (Scenario.status_body "queued")
                        (ex_intro _ "queued"
                           (conj eq_refl (conj eq_refl (conj eq_refl eq_refl))))))
                5%nat) as (Hu & Hp & Hlen).
    cbv zeta. rewrite Hu, Hp, Hlen. repeat split.
Defined.

(** ** Concurrent 401 responses *)

(** C1 as stated does not hold.  Two requests of a signed-in user go out
    with the stale token and both draw a 401 before either is resumed;
    each then makes its own refresh call, so two refresh calls go out
    (both are in flight before either reply is handled), not one. *)
Lemma two_unauthorized_requests_two_refreshes :
  let s := interleave Scenario.rotating [0; 1; 0; 1; 0; 1]%nat
             ([Api.api Scenario.summary; Api.api Scenario.violations],
              Scenario.working) in
  forallb settled s.1 = true /\
  map (fun x => (url x.1, replied_401 x)) (rev (wire s.2))
  = [("/results/summary?upload_id=X", true);
     ("/results/violations?upload_id=X", true);
     ("/auth/refresh", false);
     ("/auth/refresh", false);
     ("/results/summary?upload_id=X", false);
     ("/results/violations?upload_id=X", false)] /\
  count is_refresh (wire s.2) = 2%nat /\
  count is_refresh (wire s.2) <> 1%nat.
Proof. vm_compute. repeat split. discriminate. Qed.

(** C1, amended.  Take any number of requests that are neither login nor
    refresh calls, under any backend and any interleaving, run until all
    of them have settled.  Each request was transmitted once as a first
    attempt, the refresh calls made are as many as the first attempts
    that drew a 401 (one refresh per such request, none shared), and the
    resends are as many as the refresh calls that were fulfilled.  So
    when all N requests receive a 401, N refresh calls are issued. *)
Theorem one_refresh_per_unauthorized_request (server : backend)
    (requests : list request) (schedule : list nat) (w : world) :
  Forall (fun c => _retry c = false /\ Api.is_auth_url (url c) = false) requests ->
  let s := interleave server schedule (Api.api <$> requests, w) in
  let sent := sent_during w s.2 in
  forallb settled s.1 = true ->
  count is_first_attempt sent = List.length requests /\
  count is_refresh sent = count owes_refresh sent /\
  count is_resend sent = count is_fulfilled_refresh sent /\
  (forallb (fun x => implb (is_first_attempt x) (replied_401 x)) sent = true ->
   count is_refresh sent = List.length requests).
Proof.
  intros Hreq s sent Hsettled. subst s sent.
  assert (Hpool : Api.api <$> requests = prog_of <$> (Unsent <$> requests)).
  { rewrite <- list_fmap_compose. reflexivity. }
  rewrite Hpool in *.
  destruct (total_unsent requests) as (U1 & U2 & U3).
  assert (Hb : balanced (List.length requests) w (Unsent <$> requests) w).
  { split.
    - apply Forall_fmap. exact Hreq.
    - exists []. split; [reflexivity |]. cbn. rewrite U1, U2, U3. auto. }
  destruct (interleave_balanced server _ w schedule _ w Hb)
    as (phases & w' & Hrun & Hwf & sent & Hwire & B1 & B2 & B3).
  rewrite Hrun in *. cbn [fst snd] in *.
  rewrite (sent_during_app sent w w' Hwire).
  destruct (settled_pool phases Hwf Hsettled) as (T1 & T2 & T3).
  split; [lia |]. split; [lia |]. split; [lia |].
  intros Hall. rewrite <- (all_unauthorized sent Hall) in B1. lia.
Qed.

(** Two requests bearing a stale token, interleaved turn by turn. *)
Lemma one_refresh_per_unauthorized_request_witness :
  let s := interleave Scenario.rotating [0; 1; 0; 1; 0; 1]%nat
             (Api.api <$> [Scenario.summary; Scenario.violations],
              Scenario.working) in
  count is_refresh (sent_during Scenario.working s.2) = 2%nat.
Proof.
  destruct (one_refresh_per_unauthorized_request Scenario.rotating
              [Scenario.summary; Scenario.violations] [0; 1; 0; 1; 0; 1]%nat
              Scenario.working) as (_ & _ & _ & H).
  - repeat constructor.
  - vm_compute. reflexivity.
  - apply H. vm_compute. reflexivity.
Defined.

(** * Further properties of the code *)

(** ** The gateway *)

(** X1. A call whose first reply is not a 401 (a 2xx, any other status,
    or no reply at all) makes exactly one round trip and settles as that
    reply does: it is not retried, and the token and the rest of the page
    are left as they were. *)
Theorem settles_at_once_unless_401 (server : backend) (c : request) (w : world) :
  let c1 := Api.request_interceptor (_accessToken w) c in
  let res1 := server (wire w) c1 in
  replied_401 (c1, res1) = false ->
  run server (Api.api c) w
  = (Api.settle c1 res1, with_wire ((c1, res1) :: wire w) w).
Proof.
  intros c1 res1 H401. rewrite run_api. unfold gateway. cbv zeta.
  fold c1. fold res1.
  destruct (Api.settle c1 res1) as [r | e] eqn:Hs; [reflexivity |].
  destruct (settle_error _ _ _ Hs) as [resp ->].
  rewrite (settle_rejected _ _ _ Hs), H401. reflexivity.
Qed.

(** The network is down when the summary is requested. *)
Lemma settles_at_once_unless_401_witness :
  run Scenario.offline (Api.api Scenario.summary) Scenario.working
  = (inr (AxiosError
            (set_Authorization "Bearer stale" Scenario.summary) None),
     with_wire [(set_Authorization "Bearer stale" Scenario.summary, NetworkError)]
       Scenario.working).
Proof.
  rewrite (settles_at_once_unless_401 Scenario.offline Scenario.summary
             Scenario.working); reflexivity.
Defined.

(** X2. When a request that is neither a login nor a refresh call draws
    a 401 and the refresh is fulfilled, the request is resent once: same
    method, URL and body, marked as retried, with the header
    [Bearer <access_token of the refresh reply>] (literally
    ["Bearer undefined"] when the reply has no such field).  The store
    then holds that [access_token], and the call settles as the resend
    does. *)
Theorem refreshed_request_is_resent (server : backend) (c : request) (w : world)
    (d1 d2 : json) (st : Z) :
  let c1 := Api.request_interceptor (_accessToken w) c in
  let rc := Api.request_interceptor (_accessToken w)
              (Api.post_config "/auth/refresh" ∅) in
  _retry c = false ->
  Api.is_auth_url (url c) = false ->
  server (wire w) c1 = Reply 401 d1 ->
  server ((c1, Reply 401 d1) :: wire w) rc = Reply st d2 ->
  (200 <=? st)%Z && (st <? 300)%Z = true ->
  let access_token := JS.field d2 "access_token" in
  let c3 := Request (method c) (url c) (body c)
              (Some ("Bearer " ++ JS.template access_token)) true in
  let history := (rc, Reply st d2) :: (c1, Reply 401 d1) :: wire w in
  let res3 := server history c3 in
  run server (Api.api c) w
  = (Api.settle c3 res3,
     with_token access_token (with_wire ((c3, res3) :: history) w)).
Proof.
  intros c1 rc Hretry Hauth H1 H2 Hst access_token c3 history res3.
  rewrite run_api. unfold gateway. cbv zeta. fold c1. rewrite H1.
  cbn [Api.settle]. change ((200 <=? 401)%Z && (401 <? 300)%Z) with false.
  cbv iota. cbn [Api.is_401 Http.status].
  change (401 =? 401)%Z with true. rewrite Hretry, Hauth.
  cbn [negb andb with_wire _accessToken wire]. fold rc. rewrite H2.
  cbn [Api.settle]. rewrite Hst. cbn [Http.data]. fold access_token.
  assert (Hc3 : Api.request_interceptor access_token
                  (set_Authorization ("Bearer " ++ JS.template access_token)
                     (set_retry true c1)) = c3).
  { unfold Api.request_interceptor, set_Authorization, set_retry, c3.
    cbn [method url body Authorization _retry].
    assert (Hm : method c1 = method c /\ url c1 = url c /\ body c1 = body c).
    { unfold c1, Api.request_interceptor. destruct (JS.truthy (_accessToken w));
        repeat split; reflexivity. }
    destruct Hm as (-> & -> & ->). destruct (JS.truthy access_token); reflexivity. }
  rewrite Hc3.
  cbn [wire with_token with_wire _accessToken console auth upload timers
       next_timer poller onUploadComplete completions].
  fold history. fold res3.
  destruct (Api.settle c3 res3); reflexivity.
Qed.

(** A stale token: the refresh gives ["fresh"], with which the resend is
    accepted. *)
Lemma refreshed_request_is_resent_witness :
  run Scenario.rotating (Api.api Scenario.summary) Scenario.working
  = (inl (Http.Response 200 ∅),
     with_token (JS.str "fresh")
       (with_wire
          [(Request "get" "/results/summary?upload_id=X" ∅
                    (Some "Bearer fresh") true, Reply 200 ∅);
           (Request "post" "/auth/refresh" ∅ (Some "Bearer stale") false,
            Reply 200 (Scenario.token_body "fresh"));
           (Request "get" "/results/summary?upload_id=X" ∅
                    (Some "Bearer stale") false, Reply 401 ∅)]
          Scenario.working)).
Proof.
  rewrite (refreshed_request_is_resent Scenario.rotating Scenario.summary
             Scenario.working ∅ (Scenario.token_body "fresh") 200);
    try reflexivity.
Defined.

(** X3. [SafetyAPI.refreshToken] makes exactly one round trip and only
    ever writes the token when the reply is fulfilled and carries a
    truthy [access_token]; a fulfilled reply without one still resolves,
    and then, as on every failure (a 401 included), the previous token
    stays in the store. *)
Theorem refreshToken_writes_only_truthy_token (server : backend) (w : world) :
  let rc := Api.request_interceptor (_accessToken w)
              (Api.post_config "/auth/refresh" ∅) in
  let res := server (wire w) rc in
  let r := run server Api.SafetyAPI.refreshToken w in
  wire r.2 = (rc, res) :: wire w /\
  match Api.settle rc res with
  | inl response =>
      r.1 = inl (Http.data response) /\
      _accessToken r.2
      = (if JS.truthy (JS.field (Http.data response) "access_token")
         then JS.field (Http.data response) "access_token"
         else _accessToken w)
  | inr e => r.1 = inr e /\ _accessToken r.2 = _accessToken w
  end.
Proof.
  intros rc res r. subst r. rewrite run_SafetyAPI_refreshToken.
  unfold gateway. cbv zeta. fold rc. fold res.
  destruct (Api.settle rc res) as [response | e] eqn:Hs.
  - destruct (JS.truthy (JS.field (Http.data response) "access_token"));
      repeat split; reflexivity.
  - destruct (settle_error _ _ _ Hs) as [resp ->].
    replace (_retry (Api.post_config "/auth/refresh" ∅)) with false by reflexivity.
    replace (Api.is_auth_url (url (Api.post_config "/auth/refresh" ∅)))
      with true by reflexivity.
    rewrite andb_false_r. repeat split; reflexivity.
Qed.

(** ** Login and signup *)



(** X5. When the login endpoint does not answer with a 2xx (a 401 for a
    wrong password included), [login] makes that one round trip only (no
    refresh is attempted), rejects with the error of the call, and sets
    [isAuthenticated] to false; the token, the cached user and the rest
    of the page are left as they were. *)
Theorem login_rejected_never_refreshes (server : backend)
    (email password : string) (w : world) (e : exn) :
  let c1 := Api.request_interceptor (_accessToken w)
              (Api.post_config "/auth/login"
                 (<["email" := JS.str email]>
                    (<["password" := JS.str password]> ∅))) in
  let res1 := server (wire w) c1 in
  Api.settle c1 res1 = inr e ->
  run server (Auth.login email password) w
  = (inr e,
     with_auth (with_isAuthenticated (Some false) (auth w))
       (with_wire ((c1, res1) :: wire w) w)).
Proof.
  intros c1 res1 Hs. unfold Auth.login.
  rewrite run_try_catch, run_mbind, run_SafetyAPI_login.
  unfold gateway. cbv zeta. fold c1. fold res1. rewrite Hs.
  destruct (settle_error _ _ _ Hs) as [resp ->].
  replace (Api.is_auth_url (url (Api.post_config "/auth/login"
             (<["email" := JS.str email]> (<["password" := JS.str password]> ∅)))))
    with true by reflexivity.
  rewrite andb_false_r. reflexivity.
Qed.

(** A wrong password: the login endpoint answers 401. *)
Lemma login_rejected_never_refreshes_witness :
  let r := run Scenario.expired (Auth.login "a@b.com" "wrong") Scenario.visitor in
  List.length (wire r.2) = 1%nat /\
  isAuthenticated (auth r.2) = Some false /\
  _accessToken r.2 = JS.null.
Proof.
  cbv zeta.
  rewrite (login_rejected_never_refreshes Scenario.expired "a@b.com" "wrong"
             Scenario.visitor
             (AxiosError
                (Api.post_config "/auth/login"
                   (<["email" := JS.str "a@b.com"]>
                      (<["password" := JS.str "wrong"]> ∅)))
                (Some (Http.Response 401 ∅)))).
  - repeat split.
  - reflexivity.
Defined.

Transparent Api.SafetyAPI.signup Api.post.

Lemma run_SafetyAPI_signup (server : backend) (email password : string)
    (role : JS.value) (w : world) :
  run server (Api.SafetyAPI.signup email password role) w =
  match gateway server
          (Api.post_config "/auth/signup"
             (<["email" := JS.str email]>
                (<["password" := JS.str password]> (<["role" := role]> ∅))))
          w with
  | (inl response, w1) => (inl (Http.data response), w1)
  | (inr e, w1) => (inr e, w1)
  end.
Proof.
  unfold Api.SafetyAPI.signup, Api.post. rewrite run_mbind, run_api.
  destruct (gateway server _ w) as [[r | e] w1]; reflexivity.
Qed.

Opaque Api.SafetyAPI.signup Api.post.

(** X6. [signup] resolves with the body of the reply its call of the
    axios instance is fulfilled with, or rejects with the error that call
    rejects with (when the first reply is not a 401: with the body of
    that reply if it is a 2xx, with the error carrying it otherwise), and
    never touches the session: [user],
    [isAuthenticated] and [loading] are the same after it, whatever the
    outcome.  Its request is not exempt from the 401 retry: a 401 on the
    signup endpoint is followed by one refresh call. *)
Theorem signup_leaves_session (server : backend) (email password : string)
    (role : JS.value) (w : world) :
  let r := run server (Auth.signup email password role) w in
  let c := Api.post_config "/auth/signup"
             (<["email" := JS.str email]>
                (<["password" := JS.str password]> (<["role" := role]> ∅))) in
  let c1 := Api.request_interceptor (_accessToken w) c in
  r = match gateway server c w with
      | (inl response, w1) => (inl (Http.data response), w1)
      | (inr e, w1) => (inr e, w1)
      end /\
  (replied_401 (c1, server (wire w) c1) = false ->
   r.1 = match Api.settle c1 (server (wire w) c1) with
         | inl response => inl (Http.data response)
         | inr e => inr e
         end) /\
  auth r.2 = auth w /\
  upload r.2 = upload w /\
  (replied_401 (c1, server (wire w) c1) = true ->
   count is_refresh (sent_during w r.2) = 1%nat).
Proof.
  intros r c c1. subst r.
  assert (Hr : run server (Auth.signup email password role) w
               = match gateway server c w with
                 | (inl response, w1) => (inl (Http.data response), w1)
                 | (inr e, w1) => (inr e, w1)
                 end).
  { unfold Auth.signup. rewrite run_mbind, run_SafetyAPI_signup. fold c.
    destruct (gateway server c w) as [[x | e] w']; reflexivity. }
  split; [exact Hr |].
  split.
  { intros Hnot. rewrite Hr. unfold gateway. fold c1. cbv zeta.
    destruct (Api.settle c1 (server (wire w) c1)) as [response | e] eqn:Hs;
      [reflexivity |].
    destruct (settle_error _ _ _ Hs) as [resp ->].
    rewrite (settle_rejected _ _ _ Hs), Hnot. reflexivity. }
  assert (Hw : (run server (Auth.signup email password role) w).2
               = (gateway server c w).2).
  { rewrite Hr. destruct (gateway server c w) as [[x | e] w']; reflexivity. }
  rewrite Hw. clear Hw Hr.
  pose proof (gateway_frame server c w) as (_ & Ha & Hu & _).
  split; [exact Ha |]. split; [exact Hu |]. intros H401.
  destruct (gateway_cases server c w) as [sent Hc].
  rewrite (sent_during_app sent) by (eapply gateway_case_wire; eauto).
  destruct Hc as [c1' res1 r1 Hc1 Hres1 Hs1
                 | c1' res1 resp Hc1 Hres1 Hs1 Hel
                 | c1' res1 resp rc res2 e2 Hc1 Hres1 Hs1 _ _ _ Hrc Hres2 Hs2
                 | c1' res1 resp rc res2 r2 c3 res3 Hc1 Hres1 Hs1 _ _ _ Hrc
                     Hres2 Hs2 Hc3 Hres3 ].
  - exfalso. subst c1' res1. fold c1 in Hs1.
    rewrite (settle_fulfilled _ _ _ Hs1) in H401. discriminate.
  - exfalso. subst c1' res1. fold c1 in Hs1.
    rewrite (settle_rejected _ _ _ Hs1), H401 in Hel. discriminate.
  - unfold count, is_refresh. cbn [List.filter fst snd].
    subst rc c1'. rewrite !interceptor_url. reflexivity.
  - unfold count, is_refresh. cbn [List.filter fst snd].
    subst c3 rc c1'. rewrite !interceptor_url. cbn [url set_Authorization set_retry].
    rewrite !interceptor_url. reflexivity.
Qed.

(** A signed-in user's token has expired when the signup form is sent. *)
Lemma signup_leaves_session_witness :
  let r := run Scenario.expired (Auth.signup "new@b.com" "pw" JS.undefined)
             Scenario.working in
  (exists e, r.1 = inr e) /\
  auth r.2 = auth Scenario.working /\
  count is_refresh (sent_during Scenario.working r.2) = 1%nat.
Proof.
  destruct (signup_leaves_session Scenario.expired "new@b.com" "pw" JS.undefined
              Scenario.working) as (Hres & _ & Ha & _ & Hr).
  split; [| split; [exact Ha | apply Hr; reflexivity]].
  cbv zeta. rewrite Hres. vm_compute. eexists. reflexivity.
Defined.

(** ** The session under any sequence of operations *)

Section SessionInvariants.

Variable server : backend.

(** What one operation can do to the state of [AuthProvider]. *)
Lemma act_auth (a : action) (w : world) :
  let after := auth (act server a w) in
  after = auth w \/
  (exists u, after = mkAuth (Some u) (Some true) false) \/
  after = mkAuth None (Some false) false \/
  after = mkAuth (user (auth w)) (Some false) (loading (auth w)) \/
  (exists u, after = mkAuth (Some u) (Some true) (loading (auth w))) \/
  after = mkAuth None (Some false) (loading (auth w)).
Proof.
  destruct a as [| email password | email password role | | c]; cbn [act].
  - (* initAuth *)
    unfold Auth.initAuth. rewrite run_try_finally, run_try_catch, run_mbind.
    destruct (run server Api.SafetyAPI.refreshToken w) as [[d | e] w1].
    + rewrite run_mbind.
      destruct (run server Api.SafetyAPI.getMe w1) as [[u | e] w2].
      * right. left. exists u. reflexivity.
      * right. right. left. reflexivity.
    + right. right. left. reflexivity.
  - (* login *)
    unfold Auth.login. rewrite run_try_catch, run_mbind.
    destruct (run server (Api.SafetyAPI.login email password) w)
      as [[data | e] w1] eqn:Hlogin;
      pose proof (same_page_login server _ _ _ _ _ Hlogin) as (_ & Ha1 & _).
    + rewrite run_mbind.
      change (run server (Api.setAccessToken (JS.field data "access_token")) w1)
        with (inl tt : unit + exn, with_token (JS.field data "access_token") w1).
      cbv beta iota. rewrite run_mbind.
      destruct (run server Api.SafetyAPI.getMe
                  (with_token (JS.field data "access_token") w1))
        as [[u | e] w2] eqn:Hme;
        pose proof (same_page_getMe server _ _ _ Hme) as (_ & Ha2 & _);
        simpl in Ha2.
      * right. right. right. right. left. exists u. simpl.
        rewrite Ha2, Ha1. reflexivity.
      * right. right. right. left. simpl. rewrite Ha2, Ha1. reflexivity.
    + right. right. right. left. simpl. rewrite Ha1. reflexivity.
  - (* signup *)
    left. unfold Auth.signup. rewrite run_mbind, run_SafetyAPI_signup.
    pose proof (gateway_frame server
                  (Api.post_config "/auth/signup"
                     (<["email" := JS.str email]>
                        (<["password" := JS.str password]> (<["role" := role]> ∅))))
                  w) as (_ & Ha & _).
    destruct (gateway server _ w) as [[x | e] w']; exact Ha.
  - (* logout *)
    unfold Auth.logout. rewrite run_mbind, run_try_catch.
    destruct (run server Api.SafetyAPI.logout w) as [[[] | e] w1] eqn:Hout;
      pose proof (same_page_logout server _ _ _ Hout) as (_ & Ha & _);
      right; right; right; right; right; simpl; rewrite Ha; reflexivity.
  - (* any other call *)
    left. rewrite run_api. apply gateway_frame.
Qed.

Lemma acts_cons (a : action) (l : list action) (w : world) :
  acts server (a :: l) w = acts server l (act server a w).
Proof. reflexivity. Qed.

Lemma acts_snoc (l : list action) (a : action) (w : world) :
  acts server (l ++ [a])%list w = act server a (acts server l w).
Proof. unfold acts. rewrite foldl_app. reflexivity. Qed.

Lemma checking_flags (l : list action) (w : world) :
  (loading (auth w) = false -> loading (auth (acts server l w)) = false) /\
  (isAuthenticated (auth w) <> None ->
   isAuthenticated (auth (acts server l w)) <> None).
Proof.
  revert w. induction l as [| a l IH]; intros w; [split; auto |].
  rewrite acts_cons. destruct (IH (act server a w)) as [IH1 IH2].
  pose proof (act_auth a w) as Ha. cbv zeta in Ha.
  split; intros H.
  - apply IH1.
    destruct Ha as [-> | [[u ->] | [-> | [-> | [[u ->] | ->]]]]];
      try reflexivity; exact H.
  - apply IH2.
    destruct Ha as [-> | [[u ->] | [-> | [-> | [[u ->] | ->]]]]];
      try discriminate; exact H.
Qed.

Lemma user_kept (l : list action) (w : world) :
  (isAuthenticated (auth w) = Some true -> is_Some (user (auth w))) ->
  isAuthenticated (auth (acts server l w)) = Some true ->
  is_Some (user (auth (acts server l w))).
Proof.
  revert w. induction l as [| a l IH]; intros w Hinv; [exact Hinv |].
  rewrite acts_cons. apply IH.
  pose proof (act_auth a w) as Ha. cbv zeta in Ha.
  destruct Ha as [-> | [[u ->] | [-> | [-> | [[u ->] | ->]]]]];
    cbn [isAuthenticated user]; try discriminate; eauto.
Qed.

(** X7. Under any sequence of session operations and other calls, and
    any backend: once [loading] is false it stays false, and once
    [isAuthenticated] has left [null] ("checking") it never returns to
    it. *)
Theorem checking_is_never_reentered (l : list action) (w : world) :
  (loading (auth w) = false -> loading (auth (acts server l w)) = false) /\
  (isAuthenticated (auth w) <> None ->
   isAuthenticated (auth (acts server l w)) <> None).
Proof. exact (checking_flags l w). Qed.

(** X8. Under any sequence of session operations and other calls, and
    any backend: if a user profile is cached whenever [isAuthenticated]
    is true, this is still so afterwards.  It is so for the initial
    state, hence always. *)
Theorem authenticated_has_user (l : list action) (w : world) :
  (isAuthenticated (auth w) = Some true -> is_Some (user (auth w))) ->
  isAuthenticated (auth (acts server l w)) = Some true ->
  is_Some (user (auth (acts server l w))).
Proof. exact (user_kept l w). Qed.

(** X9. After the bootstrap, whatever is done next, [ProtectedRoute]
    never shows the spinner again: it renders its children exactly when
    [isAuthenticated] is true, and then a user profile is cached;
    otherwise it redirects to [/login]. *)
Theorem route_after_bootstrap (l : list action) (w : world) :
  let a := auth (acts server (Bootstrap :: l) w) in
  ProtectedRoute.render a <> ProtectedRoute.Spinner /\
  (ProtectedRoute.render a = ProtectedRoute.Children <->
   isAuthenticated a = Some true) /\
  (ProtectedRoute.render a = ProtectedRoute.Children -> is_Some (user a)) /\
  (ProtectedRoute.render a <> ProtectedRoute.Children ->
   ProtectedRoute.render a = ProtectedRoute.Navigate "/login").
Proof.
  intros a. subst a. rewrite acts_cons.
  set (w1 := act server Bootstrap w).
  assert (Hboot : loading (auth w1) = false /\ isAuthenticated (auth w1) <> None /\
                  (isAuthenticated (auth w1) = Some true -> is_Some (user (auth w1)))).
  { subst w1. cbn [act]. unfold Auth.initAuth.
    rewrite run_try_finally, run_try_catch, run_mbind.
    destruct (run server Api.SafetyAPI.refreshToken w) as [[d | e] w'].
    - rewrite run_mbind.
      destruct (run server Api.SafetyAPI.getMe w') as [[u | e] w2]; simpl;
        repeat split; try discriminate; eauto.
    - simpl. repeat split; try discriminate. }
  destruct Hboot as (Hl & Hn & Hu).
  destruct (checking_flags l w1) as [Hl' Hn'].
  specialize (Hl' Hl). specialize (Hn' Hn).
  pose proof (user_kept l w1 Hu) as Hu'.
  unfold ProtectedRoute.render. rewrite Hl'. cbn [orb].
  destruct (isAuthenticated (auth (acts server l w1))) as [[|] |] eqn:Hi;
    [| | congruence].
  - rewrite bool_decide_eq_false_2 by discriminate. cbn.
    split; [discriminate |]. split; [split; reflexivity |].
    split; [intros _; auto |]. intros H. congruence.
  - rewrite bool_decide_eq_false_2 by discriminate. cbn.
    split; [discriminate |]. split; [split; discriminate |].
    split; [discriminate |]. reflexivity.
Qed.

End SessionInvariants.

Lemma logout_auth (server : backend) (w : world) :
  auth (act server Logout w) = mkAuth None (Some false) (loading (auth w)).
Proof.
  cbn [act]. unfold Auth.logout. rewrite run_mbind, run_try_catch.
  destruct (run server Api.SafetyAPI.logout w) as [[[] | e] w1] eqn:Hout;
    pose proof (same_page_logout server _ _ _ Hout) as (_ & Ha & _);
    simpl; rewrite Ha; reflexivity.
Qed.

Lemma bootstrap_loaded (server : backend) (w : world) :
  loading (auth (act server Bootstrap w)) = false.
Proof.
  cbn [act]. unfold Auth.initAuth.
  rewrite run_try_finally, run_try_catch, run_mbind.
  destruct (run server Api.SafetyAPI.refreshToken w) as [[d | e] w'].
  - rewrite run_mbind.
    destruct (run server Api.SafetyAPI.getMe w') as [[u | e] w2]; reflexivity.
  - reflexivity.
Qed.

(** X10. Once the bootstrap has run, a logout (whatever was done in
    between, and whether or not the logout call succeeds) makes
    [ProtectedRoute] redirect to [/login]. *)
Theorem logout_redirects_to_login (server : backend) (l : list action)
    (w : world) :
  ProtectedRoute.render (auth (acts server (Bootstrap :: l ++ [Logout]) w))
  = ProtectedRoute.Navigate "/login".
Proof.
  rewrite acts_cons, acts_snoc, logout_auth.
  destruct (checking_flags server l (act server Bootstrap w)) as [Hl _].
  rewrite (Hl (bootstrap_loaded server w)). reflexivity.
Qed.

(** A visit on which the session has expired: bootstrap, a failed login,
    a call, a logout. *)
Lemma checking_is_never_reentered_witness :
  let w := acts Scenario.expired
             [Login "a@b.com" "pw"; Call Scenario.summary; Logout]
             (act Scenario.expired Bootstrap Scenario.visitor) in
  loading (auth w) = false /\ isAuthenticated (auth w) <> None.
Proof.
  destruct (checking_is_never_reentered Scenario.expired
              [Login "a@b.com" "pw"; Call Scenario.summary; Logout]
              (act Scenario.expired Bootstrap Scenario.visitor)) as [Hl Hn].
  split.
  - apply Hl. reflexivity.
  - apply Hn. vm_compute. discriminate.
Defined.

(** A return visit: the bootstrap finds a session, then a signup form
    is sent and the summary is fetched. *)
Lemma authenticated_has_user_witness :
  let w := acts Scenario.rotating
             [Bootstrap; Signup "c@b.com" "pw" JS.undefined; Call Scenario.summary]
             Scenario.visitor in
  is_Some (user (auth w)).
Proof.
  apply (authenticated_has_user Scenario.rotating
           [Bootstrap; Signup "c@b.com" "pw" JS.undefined; Call Scenario.summary]
           Scenario.visitor).
  - vm_compute. discriminate.
  - vm_compute. reflexivity.
Defined.

(** ** The upload form *)

(** X11. For a type that is none of the three keys of [LIMITS] and no
    property name inherited from [Object.prototype] (the initial [null]
    included) [validateFiles] returns ["Unknown type"] whatever the
    selection, the empty one included; so a non-empty selection made
    then only sets that error and stores no file.  For an inherited name
    such as ["constructor"], [LIMITS[type]] is truthy and has no size:
    a single file is accepted whatever its size and declared type. *)
Theorem unknown_type_is_rejected (selected : list File.t) (type : JS.value) :
  JS.template type ∉ categories ->
  (JS.template type ∉ Upload.Object_prototype ->
   Upload.validateFiles selected type = inl (Some "Unknown type") /\
   (forall server w,
      selected <> [] ->
      run server (Upload.handleFileSelect type selected) w
      = (inl tt, with_upload (with_error (Some "Unknown type") (upload w)) w))) /\
  (JS.template type ∈ Upload.Object_prototype ->
   forall file, Upload.validateFiles [file] type = inl None).
Proof.
  intros Hk.
  assert (Hown : Upload.LIMITS !! JS.template type = None).
  { unfold Upload.LIMITS. unfold categories in Hk.
    rewrite !not_elem_of_cons in Hk. destruct Hk as (H1 & H2 & H3 & _).
    rewrite !lookup_insert_ne by congruence. apply lookup_empty. }
  split.
  - intros Hp.
    assert (Hv : Upload.validateFiles selected type = inl (Some "Unknown type")).
    { unfold Upload.validateFiles, Upload.LIMITS_get. rewrite Hown.
      rewrite bool_decide_eq_false_2 by exact Hp. reflexivity. }
    split; [exact Hv |].
    intros server w Hne. unfold Upload.handleFileSelect.
    destruct selected as [| file rest]; [congruence |].
    cbn [List.length Nat.eqb]. rewrite Hv. reflexivity.
  - intros Hp file. unfold Upload.validateFiles, Upload.LIMITS_get. rewrite Hown.
    rewrite bool_decide_eq_true_2 by exact Hp.
    cbn [List.length Nat.ltb Nat.leb lookup list_lookup Upload.exceeds].
    assert (Hne : forall category, category ∈ categories ->
                    bool_decide (type = JS.str category) = false).
    { intros category Hc. apply bool_decide_eq_false_2. intros ->. exact (Hk Hc). }
    rewrite !Hne by (unfold categories; rewrite !elem_of_cons; auto).
    reflexivity.
Qed.

(** A file is picked before any category has been chosen; a 4 GB
    executable is offered for the type ["constructor"]. *)
Lemma unknown_type_is_rejected_witness :
  Upload.validateFiles [] JS.null = inl (Some "Unknown type") /\
  error (upload (run Scenario.offline
                   (Upload.handleFileSelect JS.null [Scenario.plan])
                   Scenario.visitor).2)
  = Some "Unknown type" /\
  Upload.validateFiles [File.make "setup.exe" 4294967296 "application/x-msdownload"]
    (JS.str "constructor")
  = inl None.
Proof.
  assert (Hnull : JS.template JS.null ∉ categories).
  { cbn [JS.template]. unfold categories.
    rewrite !not_elem_of_cons. repeat split; try discriminate.
    apply not_elem_of_nil. }
  assert (Hnull' : JS.template JS.null ∉ Upload.Object_prototype).
  { cbn [JS.template]. unfold Upload.Object_prototype.
    rewrite !not_elem_of_cons. repeat split; try discriminate.
    apply not_elem_of_nil. }
  split; [| split].
  - apply (unknown_type_is_rejected [] JS.null); assumption.
  - destruct (unknown_type_is_rejected [Scenario.plan] JS.null) as [H _];
      [exact Hnull |].
    destruct (H Hnull') as [_ Hrun].
    rewrite (Hrun Scenario.offline Scenario.visitor); [reflexivity | discriminate].
  - apply (unknown_type_is_rejected [] (JS.str "constructor")).
    + cbn [JS.template]. unfold categories.
      rewrite !not_elem_of_cons. repeat split; try discriminate.
      apply not_elem_of_nil.
    + cbn [JS.template]. unfold Upload.Object_prototype. apply list_elem_of_here.
Defined.

Section UploadEvents.

Variable server : backend.
Variable formData : list File.t -> JS.value -> json.
Variable message : exn -> JS.value.

Lemma commit_same (before after : world) :
  Upload.deps before = Upload.deps after ->
  Upload.commit before after = after.
Proof. intros H. unfold Upload.commit. rewrite bool_decide_eq_true_2; auto. Qed.

Lemma commit_changed (before after : world) :
  Upload.deps before <> Upload.deps after ->
  Upload.commit before after = Upload.polling_effect (Upload.cleanup after).
Proof. intros H. unfold Upload.commit. rewrite bool_decide_eq_false_2; auto. Qed.

(** [commit] leaves the state of the component, the token, the log and
    the console alone: it only touches the timers. *)
Lemma commit_upload (before after : world) :
  upload (Upload.commit before after) = upload after /\
  onUploadComplete (Upload.commit before after) = onUploadComplete after /\
  completions (Upload.commit before after) = completions after /\
  wire (Upload.commit before after) = wire after /\
  _accessToken (Upload.commit before after) = _accessToken after /\
  auth (Upload.commit before after) = auth after.
Proof.
  unfold Upload.commit. case_bool_decide; [repeat split |].
  unfold Upload.polling_effect, Upload.cleanup.
  destruct (poller after); cbn;
    destruct (negb (JS.truthy (uploadId (upload after))));
    try destruct (status (upload after) =? "FAILED"); repeat split.
Qed.

(** After a commit that re-runs the effect, the component polls exactly
    when the job has an identifier and is not Failed. *)
Lemma rerun_polling (w : world) :
  Upload.polling (Upload.polling_effect w)
  = if JS.truthy (uploadId (upload w)) && negb (status (upload w) =? "FAILED")
    then Some Upload.POLL_INTERVAL else None.
Proof.
  unfold Upload.polling_effect, Upload.polling.
  destruct (JS.truthy (uploadId (upload w))); cbn; [| reflexivity].
  destruct (status (upload w) =? "FAILED"); cbn; [reflexivity |].
  apply lookup_insert_eq.
Qed.

Lemma cleanup_upload (w : world) : upload (Upload.cleanup w) = upload w.
Proof. unfold Upload.cleanup. destruct (poller w); reflexivity. Qed.

(** What [commit] keeps of [well_mounted]. *)
Lemma commit_mounted (before after : world) :
  UploadFlow.well_mounted before ->
  poller after = poller before ->
  dom (timers after) ⊆ dom (timers before) ->
  UploadFlow.well_mounted (Upload.commit before after).
Proof.
  intros [Hown Hjob] Hp Ht. unfold Upload.commit. case_bool_decide as Hd.
  - unfold Upload.deps in Hd. inversion Hd as [[Hid Hst Hcb]].
    split.
    + intros i Hi. rewrite Hp. apply Hown. apply Ht, Hi.
    + rewrite Hp, <- Hid, <- Hst. exact Hjob.
  - assert (Hclean : timers (Upload.cleanup after) = ∅).
    { unfold Upload.cleanup. rewrite Hp.
      apply map_eq. intros i. rewrite lookup_empty.
      destruct (poller before) as [j |] eqn:Hj; cbn.
      - destruct (decide (i = j)) as [-> | Hne]; [apply lookup_delete_eq |].
        rewrite lookup_delete_ne by congruence.
        apply not_elem_of_dom. intros Hi.
        apply Ht in Hi. apply Hown in Hi. congruence.
      - apply not_elem_of_dom. intros Hi.
        apply Ht in Hi. apply Hown in Hi. congruence. }
    pose proof (cleanup_upload after) as Hup.
    unfold Upload.polling_effect. rewrite Hup.
    destruct (JS.truthy (uploadId (upload after))) eqn:Hid; cbn [negb].
    + destruct (status (upload after) =? "FAILED") eqn:Hst.
      * split; cbn; [rewrite Hclean; set_solver |].
        intros [x Hx]. discriminate Hx.
      * split; cbn.
        -- rewrite Hclean. intros i Hi.
           rewrite dom_insert_L, dom_empty_L, union_empty_r_L in Hi.
           apply elem_of_singleton in Hi. congruence.
        -- intros _. rewrite Hup. split; [exact Hid |].
           apply String.eqb_neq. exact Hst.
    + split; cbn; [rewrite Hclean; set_solver |].
      intros [x Hx]. discriminate Hx.
Qed.

End UploadEvents.

Transparent Api.post Api.get.

Lemma run_upload (server : backend) (formData : list File.t -> JS.value -> json)
    (selected : list File.t) (uploadType : JS.value) (w : world) :
  run server (Endpoints.upload formData selected uploadType) w =
  match gateway server
          (Api.post_config "/videos/upload" (formData selected uploadType)) w with
  | (inl response, w1) => (inl (Http.data response), w1)
  | (inr e, w1) => (inr e, w1)
  end.
Proof.
  unfold Endpoints.upload, Api.post. rewrite run_mbind, run_api.
  destruct (gateway server _ w) as [[r | e] w1]; reflexivity.
Qed.

Lemma run_getHealth (server : backend) (w : world) :
  run server Endpoints.getHealth w =
  match gateway server (Api.get_config "/health") w with
  | (inl response, w1) => (inl (Http.data response), w1)
  | (inr e, w1) => (inr e, w1)
  end.
Proof.
  unfold Endpoints.getHealth, Api.get. rewrite run_mbind, run_api.
  destruct (gateway server _ w) as [[r | e] w1]; reflexivity.
Qed.

Opaque Api.post Api.get.

Lemma same_page_upload (server : backend)
    (formData : list File.t -> JS.value -> json)
    (selected : list File.t) (uploadType : JS.value) (w : world) r w' :
  run server (Endpoints.upload formData selected uploadType) w = (r, w') ->
  same_page w w'.
Proof.
  rewrite run_upload.
  destruct (gateway server _ w) as [[x | e] w1] eqn:G; intros H; inversion H; subst;
    apply same_page_gateway in G; exact G.
Qed.

Lemma same_page_getHealth (server : backend) (w : world) r w' :
  run server Endpoints.getHealth w = (r, w') -> same_page w w'.
Proof.
  rewrite run_getHealth.
  destruct (gateway server _ w) as [[x | e] w1] eqn:G; intros H; inversion H; subst;
    apply same_page_gateway in G; exact G.
Qed.

(** A component that holds no job identifier holds no interval at all. *)
Lemma mounted_without_job (w : world) :
  UploadFlow.well_mounted w ->
  JS.truthy (uploadId (upload w)) = false ->
  timers w = ∅ /\ Upload.polling w = None.
Proof.
  intros [Hown Hjob] Hid.
  assert (Hp : poller w = None).
  { destruct (poller w) as [i |] eqn:Hp; [| reflexivity].
    destruct Hjob as [Ht _]; [eauto | congruence]. }
  split.
  - apply map_eq. intros i. rewrite lookup_empty.
    apply not_elem_of_dom. intros Hi. apply Hown in Hi. congruence.
  - unfold Upload.polling. rewrite Hp. reflexivity.
Qed.

Lemma failure_message_nonempty (message : exn -> JS.value) (err : exn) :
  UploadFlow.failure_message message err <> "".
Proof.
  assert (Ht : forall v, JS.truthy v = true -> JS.template v <> "").
  { intros [| | s]; cbn; try discriminate.
    intros H ->. discriminate H. }
  unfold UploadFlow.failure_message.
  destruct err as [c [response |] | msg |]; try discriminate;
    destruct (JS.truthy (message _)) eqn:Hm; try discriminate; auto.
Qed.

Section UploadFrames.

Variable server : backend.

Lemma fire_idle (w : world) : Upload.polling w = None -> Upload.fire server w = w.
Proof.
  unfold Upload.polling, Upload.fire. destruct (poller w); [| reflexivity].
  intros ->. reflexivity.
Qed.

Lemma fires_idle (n : nat) (w : world) :
  Upload.polling w = None -> Upload.fires server n w = w.
Proof.
  intros H. induction n as [| n IH]; cbn [Upload.fires]; [reflexivity |].
  rewrite fire_idle; assumption.
Qed.

Ltac dom_sub :=
  first [reflexivity | apply subseteq_difference_l; reflexivity].

Lemma mounted_size (w : world) :
  UploadFlow.well_mounted w -> (size (timers w) <= 1)%nat.
Proof.
  intros [Hown _]. rewrite <- size_dom.
  destruct (poller w) as [i |].
  - transitivity (size ({[ i ]} : gset nat)); [| rewrite size_singleton; lia].
    apply subseteq_size. intros j Hj. apply elem_of_singleton.
    specialize (Hown j Hj). congruence.
  - replace (dom (timers w)) with (∅ : gset nat); [rewrite size_empty; lia |].
    symmetry. apply leibniz_equiv, elem_of_equiv_empty. intros j Hj.
    specialize (Hown j Hj). discriminate.
Qed.

Lemma tick_frame (id : JS.value) (cb : option nat) (interval : nat) (w : world) :
  let w' := (run server (Upload.tick id cb interval) w).2 in
  poller w' = poller w /\ dom (timers w') ⊆ dom (timers w).
Proof.
  cbv zeta. rewrite run_tick.
  destruct (run server (Api.SafetyAPI.getStatus id) w) as [[data | e] w1] eqn:Hrun;
    pose proof (same_page_getStatus server _ _ _ _ Hrun)
      as (_ & _ & _ & Hti & _ & Hpo & _).
  - destruct (JS.field data "status") as [| | s]; cbn [snd];
      [cbn; rewrite Hpo, Hti; split; [reflexivity | dom_sub]
      | cbn; rewrite Hpo, Hti; split; [reflexivity | dom_sub] |].
    cbv zeta.
    destruct ((JS.toUpperCase s =? "PENDING") || (JS.toUpperCase s =? "PROCESSING"));
      [cbn; rewrite Hpo, Hti; split; [reflexivity | dom_sub] |].
    destruct (JS.toUpperCase s =? "COMPLETED").
    { destruct cb; cbn; rewrite Hpo, Hti, dom_delete_L;
        (split; [reflexivity | dom_sub]). }
    destruct (JS.toUpperCase s =? "FAILED"); cbn; rewrite Hpo, Hti, ?dom_delete_L;
      (split; [reflexivity | dom_sub]).
  - cbn. rewrite Hpo, Hti. split; [reflexivity | dom_sub].
Qed.

Lemma handleFileSelect_frame (type : JS.value) (selected : list File.t) (w : world) :
  let w' := (run server (Upload.handleFileSelect type selected) w).2 in
  poller w' = poller w /\ timers w' = timers w.
Proof.
  cbv zeta. unfold Upload.handleFileSelect.
  destruct (List.length selected =? 0)%nat; [split; reflexivity |].
  destruct (Upload.validateFiles selected type) as [err | thrown];
    [| split; reflexivity].
  destruct (Upload.truthy_message err); split; reflexivity.
Qed.

Lemma same_page_mounted (w w' : world) :
  same_page w w' -> UploadFlow.well_mounted w -> UploadFlow.well_mounted w'.
Proof.
  intros (_ & _ & Hu & Hti & _ & Hpo & _) [Hown Hjob].
  unfold UploadFlow.well_mounted. rewrite Hu, Hti, Hpo. split; assumption.
Qed.

(** A tick changes neither the category, nor the files, nor the job
    identifier. *)
Lemma fire_fields (w : world) :
  let w' := Upload.fire server w in
  selectedType (upload w') = selectedType (upload w) /\
  files (upload w') = files (upload w) /\
  uploadId (upload w') = uploadId (upload w).
Proof.
  cbv zeta. unfold Upload.fire.
  destruct (poller w) as [interval |]; [| repeat split].
  destruct (timers w !! interval); [| repeat split].
  destruct (commit_upload w
              (run server
                 (Upload.tick (uploadId (upload w)) (onUploadComplete w) interval)
                 w).2) as (-> & _).
  rewrite run_tick.
  destruct (run server (Api.SafetyAPI.getStatus (uploadId (upload w))) w)
    as [[data | e] w1] eqn:Hrun;
    pose proof (same_page_getStatus server _ _ _ _ Hrun) as (_ & _ & Hu & _).
  - destruct (JS.field data "status") as [| | s]; cbn [snd];
      [cbn; rewrite Hu; repeat split | cbn; rewrite Hu; repeat split |].
    cbv zeta.
    destruct ((JS.toUpperCase s =? "PENDING") || (JS.toUpperCase s =? "PROCESSING"));
      [cbn; rewrite Hu; repeat split |].
    destruct (JS.toUpperCase s =? "COMPLETED").
    { destruct (onUploadComplete w); cbn; rewrite Hu; repeat split. }
    destruct (JS.toUpperCase s =? "FAILED"); cbn; rewrite Hu; repeat split.
  - cbn. rewrite Hu. repeat split.
Qed.

Lemma drift_fields (b : UploadFlow.background) (w : world) :
  let w' := UploadFlow.drift server b w in
  selectedType (upload w') = selectedType (upload w) /\
  files (upload w') = files (upload w) /\
  uploadId (upload w') = uploadId (upload w).
Proof.
  destruct b as [| cb]; cbn [UploadFlow.drift].
  - apply fire_fields.
  - cbv zeta.
    destruct (commit_upload w (with_onUploadComplete cb w)) as (-> & _).
    repeat split.
Qed.

Lemma drifts_cons (b : UploadFlow.background) (l : list UploadFlow.background)
    (w : world) :
  UploadFlow.drifts server (b :: l) w
  = UploadFlow.drifts server l (UploadFlow.drift server b w).
Proof. reflexivity. Qed.

Lemma drifts_fields (l : list UploadFlow.background) (w : world) :
  let w' := UploadFlow.drifts server l w in
  selectedType (upload w') = selectedType (upload w) /\
  files (upload w') = files (upload w) /\
  uploadId (upload w') = uploadId (upload w).
Proof.
  cbv zeta. revert w. induction l as [| b l IH]; intros w; [repeat split |].
  rewrite drifts_cons.
  destruct (IH (UploadFlow.drift server b w)) as (-> & -> & ->).
  apply drift_fields.
Qed.

Lemma drift_mounted (b : UploadFlow.background) (w : world) :
  UploadFlow.well_mounted w -> UploadFlow.well_mounted (UploadFlow.drift server b w).
Proof.
  intros Hm. destruct b as [| cb]; cbn [UploadFlow.drift].
  - unfold Upload.fire.
    destruct (poller w) as [interval |] eqn:Hp; [| exact Hm].
    destruct (timers w !! interval); [| exact Hm].
    destruct (tick_frame (uploadId (upload w)) (onUploadComplete w) interval w)
      as [Hp' Ht'].
    apply commit_mounted; [exact Hm | exact Hp' | exact Ht'].
  - apply commit_mounted; [exact Hm | reflexivity | reflexivity].
Qed.

Lemma drifts_mounted (l : list UploadFlow.background) (w : world) :
  UploadFlow.well_mounted w -> UploadFlow.well_mounted (UploadFlow.drifts server l w).
Proof.
  revert w. induction l as [| b l IH]; intros w Hm; [exact Hm |].
  rewrite drifts_cons. apply IH, drift_mounted, Hm.
Qed.

(** A component that holds no job identifier is left as it is by ticks
    and parent renders, the callback it was passed apart. *)
Lemma drifts_without_job (l : list UploadFlow.background) (w : world) :
  UploadFlow.well_mounted w ->
  JS.truthy (uploadId (upload w)) = false ->
  upload (UploadFlow.drifts server l w) = upload w.
Proof.
  revert w. induction l as [| b l IH]; intros w Hm Hid; [reflexivity |].
  rewrite drifts_cons.
  assert (Hu : upload (UploadFlow.drift server b w) = upload w).
  { destruct b as [| cb]; cbn [UploadFlow.drift].
    - destruct (mounted_without_job w Hm Hid) as [_ Hp].
      rewrite (fire_idle w Hp). reflexivity.
    - destruct (commit_upload w (with_onUploadComplete cb w)) as (-> & _).
      reflexivity. }
  rewrite IH; [exact Hu | apply drift_mounted, Hm | rewrite Hu; exact Hid].
Qed.

End UploadFrames.

Section UploadHandlers.

Variable server : backend.
Variable formData : list File.t -> JS.value -> json.
Variable message : exn -> JS.value.

(** X12. [handleBack] does nothing at all while the job is Uploading or
    Processing; in any other status it puts the component back in its
    initial state (no category, no file, Idle, no error, no job), after
    which no interval is left and nothing is polled. *)
Theorem handleBack_guard (w : world) :
  UploadFlow.well_mounted w ->
  let w' := UploadFlow.step server formData message UploadFlow.Back w in
  ((status (upload w) =? "UPLOADING") || (status (upload w) =? "PROCESSING") = true ->
   w' = w) /\
  ((status (upload w) =? "UPLOADING") || (status (upload w) =? "PROCESSING") = false ->
   upload w' = mkUpload JS.null [] "IDLE" JS.null None /\
   timers w' = ∅ /\ Upload.polling w' = None).
Proof.
  intros Hm w'. subst w'. cbn [UploadFlow.step]. unfold UploadFlow.handleBack.
  split; intros Hs; rewrite Hs.
  - apply commit_same. reflexivity.
  - set (after := with_upload (mkUpload JS.null [] "IDLE" JS.null None) w).
    assert (Hm' : UploadFlow.well_mounted (Upload.commit w after)).
    { apply commit_mounted; [exact Hm | reflexivity | reflexivity]. }
    destruct (commit_upload w after) as (Hu & _).
    split; [rewrite Hu; reflexivity |].
    apply mounted_without_job; [exact Hm' |]. rewrite Hu. reflexivity.
Qed.

(** X13. [handleTypeSelect] sets the category and drops everything else
    of the previous job (files, status, error, job identifier); no
    interval is left after it and nothing is polled. *)
Theorem handleTypeSelect_resets (type : JS.value) (w : world) :
  UploadFlow.well_mounted w ->
  let w' := UploadFlow.step server formData message (UploadFlow.TypeSelect type) w in
  upload w' = mkUpload type [] "IDLE" JS.null None /\
  timers w' = ∅ /\ Upload.polling w' = None.
Proof.
  intros Hm w'. subst w'. cbn [UploadFlow.step]. unfold UploadFlow.handleTypeSelect.
  set (after := with_upload (mkUpload type [] "IDLE" JS.null None) w).
  assert (Hm' : UploadFlow.well_mounted (Upload.commit w after)).
  { apply commit_mounted; [exact Hm | reflexivity | reflexivity]. }
  destruct (commit_upload w after) as (Hu & _).
  split; [rewrite Hu; reflexivity |].
  apply mounted_without_job; [exact Hm' |]. rewrite Hu. reflexivity.
Qed.

(** X14. The "Try Again" button shown for a Failed job only sets the
    status back to Idle: the job identifier, the files and the error
    stay.  If the failed job has an identifier (the upload went through
    and the processing failed), the polling effect therefore starts
    polling that same job again. *)
Theorem try_again_polls_failed_job (w : world) :
  status (upload w) = "FAILED" ->
  JS.truthy (uploadId (upload w)) = true ->
  let w' := UploadFlow.step server formData message UploadFlow.TryAgain w in
  upload w' = with_status "IDLE" (upload w) /\
  uploadId (upload w') = uploadId (upload w) /\
  Upload.polling w' = Some Upload.POLL_INTERVAL.
Proof.
  intros Hs Hid w'. subst w'. cbn [UploadFlow.step]. unfold UploadFlow.tryAgain.
  set (after := with_upload (with_status "IDLE" (upload w)) w).
  destruct (commit_upload w after) as (Hu & _).
  split; [rewrite Hu; reflexivity |]. split; [rewrite Hu; reflexivity |].
  rewrite commit_changed.
  2:{ unfold Upload.deps. cbn. rewrite Hs. intros H. inversion H. }
  rewrite rerun_polling, cleanup_upload. cbn. rewrite Hid. reflexivity.
Qed.

(** The page just before the upload goes out. *)
Lemma uploading_page (w : world) :
  let w1 := Upload.commit w
              (with_upload (with_error None (with_status "UPLOADING" (upload w))) w) in
  upload w1 = with_error None (with_status "UPLOADING" (upload w)) /\
  wire w1 = wire w /\ _accessToken w1 = _accessToken w.
Proof.
  cbv zeta.
  destruct (commit_upload w
              (with_upload (with_error None (with_status "UPLOADING" (upload w))) w))
    as (Hu & _ & _ & Hw & Ht & _).
  rewrite Hu, Hw, Ht. repeat split.
Qed.

(** The page when the upload call settles, after what happened during
    the call. *)
Lemma settling_page (during : list UploadFlow.background) (w w2 : world)
    (res : json + exn) :
  run server
    (Endpoints.upload formData (files (upload w)) (selectedType (upload w)))
    (Upload.commit w
       (with_upload (with_error None (with_status "UPLOADING" (upload w))) w))
  = (res, w2) ->
  let w3 := UploadFlow.drifts server during w2 in
  selectedType (upload w3) = selectedType (upload w) /\
  files (upload w3) = files (upload w) /\
  uploadId (upload w3) = uploadId (upload w) /\
  (UploadFlow.well_mounted w -> UploadFlow.well_mounted w3) /\
  (during = [] \/
   UploadFlow.well_mounted w /\ JS.truthy (uploadId (upload w)) = false ->
   upload w3 = with_error None (with_status "UPLOADING" (upload w))).
Proof.
  intros Hrun w3. subst w3.
  pose proof (same_page_upload server formData _ _ _ _ _ Hrun) as Hsame.
  pose proof Hsame as (_ & _ & Hu & _).
  destruct (uploading_page w) as (Hu1 & _). rewrite Hu1 in Hu.
  destruct (drifts_fields server during w2) as (Hsel & Hfiles & Hid).
  rewrite Hsel, Hfiles, Hid, Hu.
  do 3 (split; [reflexivity |]).
  assert (Hm2 : UploadFlow.well_mounted w -> UploadFlow.well_mounted w2).
  { intros Hm. apply (same_page_mounted _ _ Hsame).
    apply commit_mounted; [exact Hm | reflexivity | reflexivity]. }
  split.
  - intros Hm. apply drifts_mounted, Hm2, Hm.
  - intros [-> | [Hm Hno]]; [exact Hu |].
    rewrite drifts_without_job; [exact Hu | apply Hm2, Hm |].
    rewrite Hu. exact Hno.
Qed.


(** X17. When a file and a category are selected and the upload call
    rejects, [handleUpload] ends with the job Failed and a non-empty
    error message ([Server Error: ...] with the [detail] of the reply or
    else its status when there is a reply, otherwise [err.message] or
    ["Upload failed"]), whatever ticks and parent renders happened during
    the call; the job identifier is not touched, and nothing is polled
    afterwards. *)
Theorem handleUpload_failure (during : list UploadFlow.background)
    (w w2 : world) (err : exn) :
  files (upload w) <> [] ->
  JS.truthy (selectedType (upload w)) = true ->
  run server
    (Endpoints.upload formData (files (upload w)) (selectedType (upload w)))
    (Upload.commit w
       (with_upload (with_error None (with_status "UPLOADING" (upload w))) w))
  = (inr err, w2) ->
  let w' := UploadFlow.step server formData message (UploadFlow.Submit during) w in
  upload w'
  = mkUpload (selectedType (upload w)) (files (upload w)) "FAILED"
             (uploadId (upload w))
             (Some (UploadFlow.failure_message message err)) /\
  UploadFlow.failure_message message err <> "" /\
  (during = [] \/ UploadFlow.well_mounted w -> Upload.polling w' = None).
Proof.
  intros Hf Ht Hrun w'. subst w'. cbn [UploadFlow.step].
  unfold UploadFlow.handleUpload.
  assert (Hlen : (List.length (files (upload w)) =? 0)%nat = false)
    by (destruct (files (upload w)); [congruence | reflexivity]).
  rewrite Hlen, Ht. cbn [negb orb]. rewrite Hrun. cbv zeta.
  destruct (settling_page during w w2 _ Hrun)
    as (Hsel & Hfiles & Hid & Hm3 & Hquiet).
  set (w3 := UploadFlow.drifts server during w2) in *. clearbody w3.
  set (w4 := with_console _ w3).
  set (after := with_upload _ w4).
  destruct (commit_upload w4 after) as (Hua & _).
  split; [| split].
  - rewrite Hua. subst after w4. cbn. rewrite <- Hsel, <- Hfiles, <- Hid. reflexivity.
  - apply failure_message_nonempty.
  - intros Hq. unfold Upload.commit. case_bool_decide as Hd.
    + (* a tick has already shown the job as Failed *)
      assert (Hst : status (upload w3) = "FAILED").
      { unfold Upload.deps in Hd. subst after w4. cbn in Hd. congruence. }
      destruct Hq as [-> | Hm].
      * exfalso. assert (Hq : upload w3
                              = with_error None (with_status "UPLOADING" (upload w)))
          by (apply Hquiet; left; reflexivity).
        rewrite Hq in Hst. discriminate.
      * destruct (Hm3 Hm) as [_ Hjob].
        unfold Upload.polling. subst after w4. cbn.
        destruct (poller w3) as [i |] eqn:Hp; [| reflexivity].
        destruct Hjob as [_ Hne]; [eauto | congruence].
    + rewrite rerun_polling, cleanup_upload. subst after. cbn.
      rewrite andb_false_r. reflexivity.
Qed.

End UploadHandlers.

Section UploadInvariant.

Variable server : backend.
Variable formData : list File.t -> JS.value -> json.
Variable message : exn -> JS.value.

(** The interval callback never registers a timer and never changes
    which interval the cleanup holds. *)
Lemma step_mounted (e : UploadFlow.event) (w : world) :
  UploadFlow.well_mounted w ->
  UploadFlow.well_mounted (UploadFlow.step server formData message e w).
Proof.
  intros Hm. destruct e as [type | | selected | during | | b]; cbn [UploadFlow.step].
  - apply commit_mounted; [exact Hm | reflexivity | reflexivity].
  - unfold UploadFlow.handleBack.
    destruct (_ || _); (apply commit_mounted; [exact Hm | reflexivity | reflexivity]).
  - destruct (handleFileSelect_frame server (selectedType (upload w)) selected w)
      as [Hp Ht].
    apply commit_mounted; [exact Hm | exact Hp | rewrite Ht; reflexivity].
  - unfold UploadFlow.handleUpload.
    destruct (_ || _); [exact Hm |].
    set (w1 := Upload.commit w _).
    assert (Hm1 : UploadFlow.well_mounted w1)
      by (apply commit_mounted; [exact Hm | reflexivity | reflexivity]).
    destruct (run server _ w1) as [[data | err] w2] eqn:Hrun;
      pose proof (same_page_mounted w1 w2
                    (same_page_upload server formData _ _ _ _ _ Hrun) Hm1) as Hm2;
      pose proof (drifts_mounted server during w2 Hm2) as Hm3; cbv zeta.
    + apply commit_mounted; [exact Hm3 | reflexivity | reflexivity].
    + apply commit_mounted; [| reflexivity | reflexivity].
      destruct Hm3 as [Hown Hjob]. split; assumption.
  - apply commit_mounted; [exact Hm | reflexivity | reflexivity].
  - apply drift_mounted, Hm.
Qed.

(** X18. Whatever the user does to the upload form (choosing a category,
    going back, selecting files, submitting, trying again), however the
    timer ticks in between and during the uploads, however often the
    parent renders again with a new callback and whatever the backend
    answers: if the
    component holds no interval but the one its cleanup will clear, and
    holds it only for a job that has an identifier and is not shown as
    Failed, then this is still so afterwards, and at most one interval
    is registered. *)
Theorem upload_never_leaks_an_interval (l : list UploadFlow.event) (w : world) :
  UploadFlow.well_mounted w ->
  let w' := UploadFlow.steps server formData message l w in
  UploadFlow.well_mounted w' /\ (size (timers w') <= 1)%nat.
Proof.
  intros Hm w'. subst w'.
  assert (H : UploadFlow.well_mounted (UploadFlow.steps server formData message l w)).
  { revert w Hm. induction l as [| e l IH]; intros w Hm; [exact Hm |].
    apply IH, step_mounted, Hm. }
  split; [exact H |]. apply mounted_size, H.
Qed.

End UploadInvariant.

Lemma mounted_idle (w : world) :
  timers w = ∅ -> poller w = None -> UploadFlow.well_mounted w.
Proof.
  intros Ht Hp. split.
  - intros i Hi. rewrite Ht, dom_empty_L in Hi.
    apply not_elem_of_empty in Hi. destruct Hi.
  - rewrite Hp. intros [i Hi]. discriminate.
Qed.

Lemma mounted_polling (w : world) (i : nat) (period : Z) :
  timers w = {[ i := period ]} -> poller w = Some i ->
  JS.truthy (uploadId (upload w)) = true -> status (upload w) <> "FAILED" ->
  UploadFlow.well_mounted w.
Proof.
  intros Ht Hp Hid Hs. split.
  - intros j Hj. rewrite Ht, dom_singleton_L in Hj.
    apply elem_of_singleton in Hj. congruence.
  - intros _. split; assumption.
Qed.

Lemma handleBack_guard_witness :
  UploadFlow.step Scenario.offline Sample.formData Sample.message
    UploadFlow.Back Scenario.working = Scenario.working /\
  upload (UploadFlow.step Scenario.offline Sample.formData Sample.message
            UploadFlow.Back Sample.ready)
  = mkUpload JS.null [] "IDLE" JS.null None.
Proof.
  split.
  - apply (handleBack_guard Scenario.offline Sample.formData Sample.message
             Scenario.working).
    + apply (mounted_polling _ 0%nat 2000%Z); [reflexivity | reflexivity | reflexivity |].
      vm_compute. discriminate.
    + reflexivity.
  - apply (handleBack_guard Scenario.offline Sample.formData Sample.message
             Sample.ready).
    + apply mounted_idle; reflexivity.
    + reflexivity.
Defined.

Lemma handleTypeSelect_resets_witness :
  let w' := UploadFlow.step Scenario.offline Sample.formData Sample.message
              (UploadFlow.TypeSelect (JS.str "ppe")) Scenario.working in
  upload w' = mkUpload (JS.str "ppe") [] "IDLE" JS.null None /\
  timers w' = ∅ /\ Upload.polling w' = None.
Proof.
  apply (handleTypeSelect_resets Scenario.offline Sample.formData Sample.message
           (JS.str "ppe") Scenario.working).
  apply (mounted_polling _ 0%nat 2000%Z); [reflexivity | reflexivity | reflexivity |].
  vm_compute. discriminate.
Defined.

Lemma try_again_polls_failed_job_witness :
  let w' := UploadFlow.step Scenario.offline Sample.formData Sample.message
              UploadFlow.TryAgain Sample.failed in
  upload w' = with_status "IDLE" (upload Sample.failed) /\
  uploadId (upload w') = JS.str "X" /\
  Upload.polling w' = Some 2000%Z.
Proof.
  apply (try_again_polls_failed_job Scenario.offline Sample.formData Sample.message
           Sample.failed); reflexivity.
Defined.


Lemma handleUpload_failure_witness :
  let w' := UploadFlow.step Sample.rejecting Sample.formData Sample.message
              (UploadFlow.Submit [UploadFlow.Tick]) Sample.ready in
  status (upload w') = "FAILED" /\
  error (upload w') = Some "Server Error: File too large" /\
  Upload.polling w' = None.
Proof.
  edestruct (handleUpload_failure Sample.rejecting Sample.formData Sample.message
               [UploadFlow.Tick] Sample.ready) as (Hu & _ & Hp).
  - vm_compute. discriminate.
  - reflexivity.
  - vm_compute. reflexivity.
  - cbv zeta. rewrite Hu, Hp; [repeat split |].
    right. apply mounted_idle; reflexivity.
Defined.

Lemma upload_never_leaks_an_interval_witness :
  let w' := UploadFlow.steps Sample.accepting Sample.formData Sample.message
              [UploadFlow.TypeSelect (JS.str "pdf");
               UploadFlow.FileSelect [Scenario.plan];
               UploadFlow.Submit [UploadFlow.Rerender (Some 1%nat)];
               UploadFlow.Background UploadFlow.Tick;
               UploadFlow.Background (UploadFlow.Rerender (Some 2%nat));
               UploadFlow.Background UploadFlow.Tick;
               UploadFlow.TryAgain; UploadFlow.Submit [UploadFlow.Tick];
               UploadFlow.Back]
              Scenario.visitor in
  UploadFlow.well_mounted w' /\ (size (timers w') <= 1)%nat.
Proof.
  apply (upload_never_leaks_an_interval Sample.accepting Sample.formData
           Sample.message).
  apply mounted_idle; reflexivity.
Defined.

(** ** What a tick of the poller leaves behind *)

Section PollingOutcomes.

Variable server : backend.

(** X19. A tick that fetches the status Completed (in any letter case)
    marks the job Completed and calls the parent's callback once with the
    job identifier, or nobody when no callback was passed; category,
    files, error and identifier stay, and the network log is that of the
    status fetch.  When the job was not yet shown as Completed and has a
    truthy identifier, the component is polling again afterwards, every
    2000 ms. *)
Theorem completed_tick_notifies_parent (w w1 : world) (period : Z)
    (data : json) (s : string) :
  Upload.polling w = Some period ->
  run server (Api.SafetyAPI.getStatus (uploadId (upload w))) w = (inl data, w1) ->
  JS.field data "status" = JS.str s ->
  JS.toUpperCase s = "COMPLETED" ->
  let w' := Upload.fire server w in
  upload w' = with_status "COMPLETED" (upload w) /\
  onUploadComplete w' = onUploadComplete w /\
  completions w'
  = match onUploadComplete w with
    | Some _ => uploadId (upload w) :: completions w
    | None => completions w
    end /\
  wire w' = wire w1 /\
  (status (upload w) <> "COMPLETED" ->
   JS.truthy (uploadId (upload w)) = true ->
   Upload.polling w' = Some Upload.POLL_INTERVAL).
Proof.
  intros Hpoll Hrun Hfield Hs w'. subst w'.
  destruct (polling_inv w period Hpoll) as (interval & Hp & Ht).
  unfold Upload.fire.
  rewrite Hp, Ht, run_tick, Hrun, Hfield. cbv zeta. rewrite Hs.
  cbn [String.eqb Ascii.eqb Bool.eqb orb andb snd].
  pose proof (same_page_getStatus server _ _ _ _ Hrun)
    as (_ & _ & Hu & Hti & _ & Hpo & Hcb & Hdone).
  set (after := match onUploadComplete w with Some _ => _ | None => _ end).
  assert (Au : upload after = with_status "COMPLETED" (upload w))
    by (subst after; destruct (onUploadComplete w); cbn; rewrite Hu; reflexivity).
  assert (Acb : onUploadComplete after = onUploadComplete w)
    by (subst after; destruct (onUploadComplete w); cbn; exact Hcb).
  assert (Adone : completions after
                  = match onUploadComplete w with
                    | Some _ => uploadId (upload w) :: completions w
                    | None => completions w
                    end)
    by (subst after; destruct (onUploadComplete w); cbn; rewrite Hdone; reflexivity).
  assert (Aw : wire after = wire w1)
    by (subst after; destruct (onUploadComplete w); reflexivity).
  destruct (commit_upload w after) as (Cu & Ccb & Cdone & Cw & _).
  rewrite Cu, Ccb, Cdone, Cw, Au, Acb, Adone, Aw.
  do 4 (split; [reflexivity |]).
  intros Hst Hid. rewrite commit_changed.
  - rewrite rerun_polling, cleanup_upload, Au. cbn. rewrite Hid. reflexivity.
  - unfold Upload.deps. rewrite Au. cbn. intros H. inversion H. congruence.
Qed.

(** X20. A tick whose status fetch fails (no reply, a reply outside
    2xx, a failed refresh) or brings a body without a string [status]
    only logs ["Polling error"]: the job, the timers and the completions
    stay as they are and the component keeps polling with the same
    interval. *)
Theorem failed_fetch_keeps_polling (w w1 : world) (period : Z)
    (res : json + exn) :
  Upload.polling w = Some period ->
  run server (Api.SafetyAPI.getStatus (uploadId (upload w))) w = (res, w1) ->
  match res with
  | inl data => forall s, JS.field data "status" <> JS.str s
  | inr _ => True
  end ->
  let w' := Upload.fire server w in
  console w' = ("error", "Polling error") :: console w /\
  upload w' = upload w /\ timers w' = timers w /\
  Upload.polling w' = Some period /\ completions w' = completions w /\
  wire w' = wire w1.
Proof.
  intros Hpoll Hrun Hres w'. subst w'.
  destruct (polling_inv w period Hpoll) as (interval & Hp & Ht).
  pose proof (same_page_getStatus server _ _ _ _ Hrun)
    as (Hcon & _ & Hu & Hti & _ & Hpo & Hcb & Hdone).
  assert (Hfire : Upload.fire server w
                  = with_console (("error", "Polling error") :: console w1) w1).
  { unfold Upload.fire. rewrite Hp, Ht, run_tick, Hrun.
    assert (Hsame : Upload.commit w
                      (with_console (("error", "Polling error") :: console w1) w1)
                    = with_console (("error", "Polling error") :: console w1) w1).
    { apply commit_same. unfold Upload.deps. cbn. rewrite Hu, Hcb. reflexivity. }
    destruct res as [data | e]; [| exact Hsame].
    destruct (JS.field data "status") as [| | s] eqn:Hf;
      [exact Hsame | exact Hsame |].
    destruct (Hres s). reflexivity. }
  rewrite Hfire. unfold Upload.polling. cbn.
  rewrite Hcon, Hu, Hti, Hpo, Hdone, Hp. repeat split; assumption.
Qed.

(** X21. A tick that fetches the status Failed shows the job as Failed
    with the error ["Processing failed on server."], keeps its
    identifier, and ends the polling: however many ticks follow, no
    further request is sent. *)
Theorem failed_job_is_not_polled_again (w w1 : world) (period : Z)
    (data : json) (s : string) (n : nat) :
  Upload.polling w = Some period ->
  run server (Api.SafetyAPI.getStatus (uploadId (upload w))) w = (inl data, w1) ->
  JS.field data "status" = JS.str s ->
  JS.toUpperCase s = "FAILED" ->
  let w' := Upload.fires server (S n) w in
  upload w'
  = with_error (Some "Processing failed on server.")
      (with_status "FAILED" (upload w)) /\
  Upload.polling w' = None /\
  completions w' = completions w /\
  wire w' = wire w1.
Proof.
  intros Hpoll Hrun Hfield Hs w'. subst w'. cbn [Upload.fires].
  destruct (polling_inv w period Hpoll) as (interval & Hp & Ht).
  pose proof (same_page_getStatus server _ _ _ _ Hrun)
    as (_ & _ & Hu & Hti & _ & Hpo & Hcb & Hdone).
  assert (Hfire : Upload.fire server w
                  = Upload.commit w
                      (with_timers (delete interval (timers w1))
                         (with_upload
                            (with_error (Some "Processing failed on server.")
                               (with_status "FAILED" (upload w1))) w1))).
  { unfold Upload.fire. rewrite Hp, Ht, run_tick, Hrun, Hfield. cbv zeta.
    rewrite Hs. reflexivity. }
  set (after := with_timers _ _) in Hfire.
  destruct (commit_upload w after) as (Cu & _ & Cdone & Cw & _).
  assert (Hnone : Upload.polling (Upload.fire server w) = None).
  { rewrite Hfire. unfold Upload.commit. case_bool_decide.
    - unfold Upload.polling. subst after. cbn. rewrite Hpo, Hp.
      apply lookup_delete_eq.
    - rewrite rerun_polling, cleanup_upload. subst after. cbn.
      rewrite andb_false_r. reflexivity. }
  rewrite fires_idle by exact Hnone.
  split; [rewrite Hfire, Cu; subst after; cbn; rewrite Hu; reflexivity |].
  split; [exact Hnone |].
  split; [rewrite Hfire, Cdone; subst after; cbn; exact Hdone |].
  rewrite Hfire, Cw. reflexivity.
Qed.

End PollingOutcomes.

Lemma completed_tick_notifies_parent_witness :
  let w' := Upload.fire (Scenario.reporting "Completed") Scenario.working in
  status (upload w') = "COMPLETED" /\
  completions w' = [JS.str "X"] /\
  List.length (wire w') = 1%nat /\
  Upload.polling w' = Some 2000%Z.
Proof.
  edestruct (completed_tick_notifies_parent (Scenario.reporting "Completed")
               Scenario.working)
    with (period := 2000%Z) (s := "Completed") as (Hu & _ & Hdone & Hw & Hp).
  - reflexivity.
  - vm_compute. reflexivity.
  - reflexivity.
  - reflexivity.
  - cbv zeta. rewrite Hu, Hdone, Hw, Hp.
    + repeat split.
    + vm_compute. discriminate.
    + reflexivity.
Defined.

Lemma failed_fetch_keeps_polling_witness :
  let w' := Upload.fire Scenario.offline Scenario.working in
  console w' = [("error", "Polling error")] /\
  upload w' = upload Scenario.working /\
  Upload.polling w' = Some 2000%Z.
Proof.
  edestruct (failed_fetch_keeps_polling Scenario.offline Scenario.working)
    as (Hcon & Hu & _ & Hp & _).
  - vm_compute. reflexivity.
  - vm_compute. reflexivity.
  - exact I.
  - cbv zeta. rewrite Hcon, Hu, Hp. repeat split.
Defined.

Lemma failed_job_is_not_polled_again_witness :
  let w' := Upload.fires (Scenario.reporting "failed") 3 Scenario.working in
  status (upload w') = "FAILED" /\
  error (upload w') = Some "Processing failed on server." /\
  uploadId (upload w') = JS.str "X" /\
  Upload.polling w' = None /\
  List.length (wire w') = 1%nat.
Proof.
  edestruct (failed_job_is_not_polled_again (Scenario.reporting "failed")
               Scenario.working)
    with (period := 2000%Z) (s := "failed") (n := 2%nat) as (Hu & Hp & _ & Hw).
  - reflexivity.
  - vm_compute. reflexivity.
  - reflexivity.
  - reflexivity.
  - cbv zeta. rewrite Hu, Hp, Hw. repeat split.
Defined.

(** ** The health page *)

Section Health.

Variable server : backend.

Lemma fetchHealth_settled (s : Integrity.state * world) :
  let s' := (Integrity.fetchHealth server s).1 in
  Integrity.loading s' = false /\
  (Integrity.error s' = Some "System unreachable" \/
   Integrity.error s' = None /\ is_Some (Integrity.status s')).
Proof.
  cbv zeta. unfold Integrity.fetchHealth.
  destruct (run server Endpoints.getHealth s.2) as [[health | err] w]; cbn.
  - split; [reflexivity |]. right. split; [reflexivity | eauto].
  - split; [reflexivity |]. left. reflexivity.
Qed.

Lemma polls_settled (n : nat) (s : Integrity.state * world) :
  let s' := (Integrity.polls server (S n) s).1 in
  Integrity.loading s' = false /\
  (Integrity.error s' = Some "System unreachable" \/
   Integrity.error s' = None /\ is_Some (Integrity.status s')).
Proof.
  revert s. induction n as [| n IH]; intros s.
  - apply fetchHealth_settled.
  - apply (IH (Integrity.fetchHealth server s)).
Qed.

(** X22. For a backend whose fulfilled health replies carry a JSON
    object (the reply shape of the model; a 2xx whose body is the JSON
    [null] would be stored as the status and is not covered).  Before the
    first health check has settled the page shows "Checking"; once
    [fetchHealth] has run, at mount or from the 30 s interval, any number
    of times and whatever the status codes and failures, the render does
    not read a field of a [null] status: it shows either the error banner
    or the three rows.  A check that fails before any has succeeded
    leaves the status [null] but sets the error, so the banner is
    rendered and the rows are not; with loading off, no error and no
    status the render throws. *)
Theorem health_page_always_renders (n : nat) (w : world) :
  Integrity.render Integrity.initial = inl Integrity.Checking /\
  (exists e, Integrity.render (Integrity.mkState None false None) = inr e) /\
  exists v,
    Integrity.render (Integrity.polls server (S n) (Integrity.initial, w)).1 = inl v /\
    v <> Integrity.Checking.
Proof.
  split; [reflexivity |]. split; [eexists; reflexivity |].
  destruct (polls_settled n (Integrity.initial, w)) as (Hl & He).
  unfold Integrity.render. rewrite Hl.
  destruct He as [-> | [-> [health ->]]].
  - eexists. split; [reflexivity | discriminate].
  - eexists. split; [reflexivity | discriminate].
Qed.

(** X23. One health check.  When the call rejects, the last health
    body is kept but the page shows the banner "System unreachable"
    instead of it, and one ["Health check failed"] line is logged; when
    it resolves, the banner is gone and the three rows show, for each of
    [api], [database] and [auth], whether the new body has it equal to
    ["ok"].  Either way the session and the upload form are not
    touched. *)
Theorem health_check_outcome (s : Integrity.state * world)
    (res : json + exn) (w1 : world) :
  run server Endpoints.getHealth s.2 = (res, w1) ->
  let s' := Integrity.fetchHealth server s in
  match res with
  | inl health =>
      Integrity.status s'.1 = Some health /\
      Integrity.render s'.1
      = inl (Integrity.Rows (Integrity.operational (JS.field health "api"))
                            (Integrity.operational (JS.field health "database"))
                            (Integrity.operational (JS.field health "auth"))) /\
      console s'.2 = console s.2
  | inr _ =>
      Integrity.status s'.1 = Integrity.status s.1 /\
      Integrity.render s'.1 = inl (Integrity.Banner "System unreachable") /\
      console s'.2 = ("error", "Health check failed") :: console s.2
  end /\
  auth s'.2 = auth s.2 /\ upload s'.2 = upload s.2 /\ timers s'.2 = timers s.2.
Proof.
  intros Hrun s'. subst s'. unfold Integrity.fetchHealth. rewrite Hrun.
  pose proof (same_page_getHealth server _ _ _ Hrun)
    as (Hcon & Hau & Hu & Hti & _).
  destruct res as [health | err]; cbn; rewrite Hcon, Hau, Hu, Hti; repeat split.
Qed.

End Health.

Lemma health_check_outcome_witness :
  let s := Integrity.fetchHealth Sample.healthy (Integrity.initial, Scenario.visitor) in
  let s' := Integrity.fetchHealth Scenario.offline s in
  Integrity.render s.1 = inl (Integrity.Rows true true true) /\
  Integrity.render s'.1 = inl (Integrity.Banner "System unreachable") /\
  is_Some (Integrity.status s'.1).
Proof.
  cbv zeta. split; [| split].
  - edestruct (health_check_outcome Sample.healthy
                 (Integrity.initial, Scenario.visitor)) as [H _].
    + vm_compute. reflexivity.
    + cbv beta iota in H. destruct H as (_ & Hr & _). rewrite Hr. reflexivity.
  - edestruct (health_check_outcome Scenario.offline
                 (Integrity.fetchHealth Sample.healthy
                    (Integrity.initial, Scenario.visitor))) as [H _].
    + vm_compute. reflexivity.
    + cbv beta iota in H. destruct H as (_ & Hr & _). exact Hr.
  - vm_compute. eauto.
Defined.

Lemma route_after_bootstrap_witness :
  ProtectedRoute.render
    (auth (acts Scenario.expired [Bootstrap; Logout] Scenario.visitor))
  = ProtectedRoute.Navigate "/login".
Proof.
  destruct (route_after_bootstrap Scenario.expired [Logout] Scenario.visitor)
    as (_ & _ & _ & H).
  apply H. vm_compute. discriminate.
Defined.
